(** * Message routing and conversation assignment: a shallow embedding

    The development follows the JavaScript sources of the platform:

    - [src/services/socket.js]            PresenceManager, 'conversation:take',
                                          'conversation:close'
    - [src/services/messageProcessor.js]  MessageProcessor (routing, chatbot)
    - [src/routes/conversations]          POST /conversations/:id/assign,
                                          /close, /reopen
    - [src/services/whatsapp.js]          handleIncomingMessage (find or create)
    - [src/services/omnichannelService.js] findOrCreateUnifiedConversation,
                                          determinePreferredChannel
    - [src/services/campaignService.js]   createCampaign, processCampaign,
                                          cancelCampaign
    - [src/utils/helpers.js]              isBusinessHours, formatPhone,
                                          isValidBrazilianPhone

    The routing rule is stated twice: [Decision] is what the code computes,
    [Spec] is the rule of the specification over the configured hours.
    [Invocation] gives [processIncomingMessage] its receiver, [Overlap] lets
    a second inbound handler run while the first awaits the store.

    Asynchronous handlers are functions in a state-and-exception monad over
    a [World]: the rows of the store, the in-memory maps of the services and
    the effects that left the process (notifications, channel sends, log
    lines).  Every [await prisma...] is one store call that may throw. *)

From Stdlib Require Import Ascii String.
From stdpp Require Import gmap strings list fin_maps.

Open Scope string_scope.
Open Scope list_scope.

(* ===================================================================== *)
(** * JavaScript strings *)
(* ===================================================================== *)

Module JS.

(** Text is kept as its UTF-8 bytes.  On well-formed text a byte-wise
    substring search finds exactly the occurrences that
    [String.prototype.includes] finds. *)

Fixpoint includes (text keyword : string) : bool :=
  String.prefix keyword text
  || match text with
     | EmptyString => false
     | String _ rest => includes rest keyword
     end.

Definition lowerAscii (c : ascii) : ascii :=
  let n := nat_of_ascii c in
  if (65 <=? n)%nat && (n <=? 90)%nat then ascii_of_nat (n + 32) else c.

(** Second byte of a two-byte sequence introduced by 0xC3: the capital
    letters U+00C0..U+00DE (but not the multiplication sign U+00D7). *)
Definition lowerLatin1 (c : ascii) : ascii :=
  let n := nat_of_ascii c in
  if (128 <=? n)%nat && (n <=? 158)%nat && negb (n =? 151)%nat
  then ascii_of_nat (n + 32) else c.

(** [String.prototype.toLowerCase] on the Basic Latin and Latin-1
    Supplement blocks, which hold the whole vocabulary of the sources. *)
Fixpoint toLowerCaseFrom (afterC3 : bool) (s : string) : string :=
  match s with
  | EmptyString => EmptyString
  | String c rest =>
      String (if afterC3 then lowerLatin1 c else lowerAscii c)
             (toLowerCaseFrom (nat_of_ascii c =? 195)%nat rest)
  end.

Definition toLowerCase (s : string) : string := toLowerCaseFrom false s.

(** [Array.prototype.some]. *)
Definition some {A} (p : A -> bool) (l : list A) : bool := existsb p l.

(** [Array.prototype.reduce] without an initial value; [None] stands for the
    TypeError on an empty array. *)
Definition reduce {A} (f : A -> A -> A) (l : list A) : option A :=
  match l with
  | [] => None
  | x :: rest => Some (fold_left f rest x)
  end.

(** [Array.prototype.slice(from, to)]. *)
Definition slice {A} (l : list A) (from to : nat) : list A :=
  firstn (to - from) (skipn from l).

End JS.

(* ===================================================================== *)
(** * Presence (socket.js, class PresenceManager) *)
(* ===================================================================== *)

Module Presence.

(** [userSockets : Map<userId, Set<socketId>>] and
    [socketUsers : Map<socketId, userId>]; user ids are the UUID strings of
    the store, socket ids are the strings handed out by the transport. *)
Record PresenceManager := {
  userSockets : gmap string (gset string);
  socketUsers : gmap string string
}.

Definition empty : PresenceManager :=
  {| userSockets := ∅; socketUsers := ∅ |}.

Definition addUser (userId socketId : string) (p : PresenceManager)
  : PresenceManager :=
  let us :=
    match userSockets p !! userId with
    | Some _ => userSockets p
    | None => <[userId := ∅]> (userSockets p)
    end in
  {| userSockets := alter (fun s => s ∪ {[socketId]}) userId us;
     socketUsers := <[socketId := userId]> (socketUsers p) |}.

(** Truthiness of a string: only the empty string is falsy. *)
Definition truthy (s : string) : bool :=
  match s with EmptyString => false | _ => true end.

(** [removeUser] returns the looked-up user id ([undefined] as [None]). *)
Definition removeUser (socketId : string) (p : PresenceManager)
  : option string * PresenceManager :=
  match socketUsers p !! socketId with
  | Some userId =>
      if truthy userId then
        let us :=
          match userSockets p !! userId with
          | Some sockets =>
              let sockets' := sockets ∖ {[socketId]} in
              if decide (size sockets' = 0)
              then delete userId (userSockets p)
              else <[userId := sockets']> (userSockets p)
          | None => userSockets p
          end in
        (Some userId,
         {| userSockets := us;
            socketUsers := delete socketId (socketUsers p) |})
      else (Some userId, p)
  | None => (None, p)
  end.

Definition isUserOnline (userId : string) (p : PresenceManager) : bool :=
  match userSockets p !! userId with
  | Some sockets => bool_decide (0 < size sockets)%nat
  | None => false
  end.

(** The keys, without the insertion order that a [Map] keeps. *)
Definition getOnlineUsers (p : PresenceManager) : list string :=
  elements (dom (userSockets p)).

End Presence.

(* ===================================================================== *)
(** * The persistence store *)
(* ===================================================================== *)

Module Store.

Inductive Role := AGENT | MANAGER | ADMIN | OWNER.
Inductive UserStatus := ACTIVE | INACTIVE.
Inductive ConversationStatus := OPEN | PENDING | CLOSED.
Inductive CampaignStatus :=
  DRAFT | SCHEDULED | SENDING | SENT | CANCELLED | FAILED.

#[global] Instance Role_eq_dec : EqDecision Role.
Proof. solve_decision. Defined.
#[global] Instance UserStatus_eq_dec : EqDecision UserStatus.
Proof. solve_decision. Defined.
#[global] Instance ConversationStatus_eq_dec : EqDecision ConversationStatus.
Proof. solve_decision. Defined.
#[global] Instance CampaignStatus_eq_dec : EqDecision CampaignStatus.
Proof. solve_decision. Defined.

(** Row ids stand for the generated keys of the store; the store hands out
    fresh ones from [nextId] on every [create]. *)
Record User := {
  user_id : nat; user_companyId : nat; user_isOnline : bool;
  user_role : Role; user_status : UserStatus
}.

Record Chatbot := {
  chatbot_id : nat; chatbot_companyId : nat; chatbot_isActive : bool
}.

Record Contact := { contact_id : nat; contact_phone : string }.

(** [conv_channels] is [metadata?.channels]; [None] when the row was
    created without metadata. *)
Record Conversation := {
  conv_id : nat; conv_contactId : nat; conv_companyId : nat;
  conv_status : ConversationStatus; conv_channel : string;
  conv_channels : option (list string)
}.

Record ConversationAgent := {
  ca_id : nat; ca_userId : nat; ca_conversationId : nat; ca_isActive : bool
}.

Record Message := {
  msg_id : nat; msg_content : string; msg_inbound : bool;
  msg_conversationId : nat
}.

Record Recipient := { rcp_phone : string }.

Record Results := {
  res_sent : nat; res_delivered : nat; res_failed : nat;
  res_errors : list string
}.

Record Campaign := {
  camp_id : nat; camp_companyId : nat; camp_content : string;
  camp_recipients : list Recipient; camp_status : CampaignStatus;
  camp_results : Results
}.

(** Tables keep their rows in insertion order; a query without [orderBy]
    answers in that order. *)
Record DB := {
  users : list User;
  companies : list nat;
  chatbots : list Chatbot;
  contacts : list Contact;
  conversations : list Conversation;
  conversationAgents : list ConversationAgent;
  messages : list Message;
  campaigns : list Campaign;
  nextId : nat
}.

Definition with_contacts (t : list Contact) (d : DB) : DB :=
  {| users := users d; companies := companies d; chatbots := chatbots d;
     contacts := t; conversations := conversations d;
     conversationAgents := conversationAgents d; messages := messages d;
     campaigns := campaigns d; nextId := nextId d |}.

Definition with_conversations (t : list Conversation) (d : DB) : DB :=
  {| users := users d; companies := companies d; chatbots := chatbots d;
     contacts := contacts d; conversations := t;
     conversationAgents := conversationAgents d; messages := messages d;
     campaigns := campaigns d; nextId := nextId d |}.

Definition with_conversationAgents (t : list ConversationAgent) (d : DB) : DB :=
  {| users := users d; companies := companies d; chatbots := chatbots d;
     contacts := contacts d; conversations := conversations d;
     conversationAgents := t; messages := messages d;
     campaigns := campaigns d; nextId := nextId d |}.

Definition with_messages (t : list Message) (d : DB) : DB :=
  {| users := users d; companies := companies d; chatbots := chatbots d;
     contacts := contacts d; conversations := conversations d;
     conversationAgents := conversationAgents d; messages := t;
     campaigns := campaigns d; nextId := nextId d |}.

Definition with_campaigns (t : list Campaign) (d : DB) : DB :=
  {| users := users d; companies := companies d; chatbots := chatbots d;
     contacts := contacts d; conversations := conversations d;
     conversationAgents := conversationAgents d; messages := messages d;
     campaigns := t; nextId := nextId d |}.

Definition bump (d : DB) : DB :=
  {| users := users d; companies := companies d; chatbots := chatbots d;
     contacts := contacts d; conversations := conversations d;
     conversationAgents := conversationAgents d; messages := messages d;
     campaigns := campaigns d; nextId := S (nextId d) |}.

(** A store call answers with a value or rejects. *)
Inductive Err :=
  StoreError | RecordNotFound | TypeError | ChannelError | CompletionError
  | Rejected (message : string).  (* throw new Error(message) *)
Inductive Res (A : Type) := Ok (a : A) | Throw (e : Err).
Arguments Ok {A} a.
Arguments Throw {A} e.

Definition active (st : ConversationStatus) : bool :=
  bool_decide (st ∈ [OPEN; PENDING]).

(** ** Queries, named after the calls of the sources *)

(** [prisma.user.findMany({ where: { companyId, isOnline: true,
      role: { in: roles }, status: 'ACTIVE' } })] *)
Definition user_findMany_online (companyId : nat) (roles : list Role) (d : DB)
  : list User :=
  filter (fun u => user_companyId u = companyId ∧ user_isOnline u = true
                   ∧ user_role u ∈ roles ∧ user_status u = ACTIVE)
         (users d).

(** [prisma.user.findUnique({ where: { id, companyId, status: 'ACTIVE' } })] *)
Definition user_findUnique_active (id companyId : nat) (d : DB) : option User :=
  List.find (fun u => bool_decide (user_id u = id ∧ user_companyId u = companyId
                                   ∧ user_status u = ACTIVE))
            (users d).

(** [prisma.company.findUnique({ where: { id },
      include: { chatbots: { where: { isActive: true } } } })]:
    [None] is [null], otherwise the included chatbots. *)
Definition company_findUnique_chatbots (id : nat) (d : DB)
  : option (list Chatbot) :=
  if bool_decide (id ∈ companies d)
  then Some (filter (fun b => chatbot_companyId b = id ∧ chatbot_isActive b = true)
                    (chatbots d))
  else None.

(** [prisma.chatbot.findFirst({ where: { companyId, isActive: true } })] *)
Definition chatbot_findFirst (companyId : nat) (d : DB) : option Chatbot :=
  List.find (fun b => bool_decide (chatbot_companyId b = companyId
                                   ∧ chatbot_isActive b = true))
            (chatbots d).

(** The rows [{ conversationId, isActive: true }]. *)
Definition activeAssignments (conversationId : nat) (d : DB)
  : list ConversationAgent :=
  filter (fun a => ca_conversationId a = conversationId ∧ ca_isActive a = true)
         (conversationAgents d).

(** [prisma.conversationAgent.findFirst({ where: { conversationId,
      isActive: true } })] *)
Definition conversationAgent_findFirst (conversationId : nat) (d : DB)
  : option ConversationAgent :=
  head (activeAssignments conversationId d).

(** [prisma.conversationAgent.create({ data: { userId, conversationId,
      isActive: true } })] *)
Definition conversationAgent_create (userId conversationId : nat) (d : DB)
  : ConversationAgent * DB :=
  let row := {| ca_id := nextId d; ca_userId := userId;
                ca_conversationId := conversationId; ca_isActive := true |} in
  (row, bump (with_conversationAgents (conversationAgents d ++ [row]) d)).

(** [prisma.conversationAgent.updateMany({ where: { conversationId },
      data: { isActive: false } })] *)
Definition conversationAgent_deactivate (conversationId : nat) (d : DB) : DB :=
  with_conversationAgents
    (map (fun a => if bool_decide (ca_conversationId a = conversationId)
                   then {| ca_id := ca_id a; ca_userId := ca_userId a;
                           ca_conversationId := ca_conversationId a;
                           ca_isActive := false |}
                   else a)
         (conversationAgents d)) d.

(** [prisma.conversation.findFirst({ where: { contactId, companyId,
      status: { in: ['OPEN', 'PENDING'] } } })] *)
Definition conversation_findFirst (contactId companyId : nat) (d : DB)
  : option Conversation :=
  List.find (fun c => bool_decide (conv_contactId c = contactId
                                   ∧ conv_companyId c = companyId)
                      && active (conv_status c))
            (conversations d).

(** [prisma.conversation.findUnique({ where: { id, companyId } })] *)
Definition conversation_findUnique (id companyId : nat) (d : DB)
  : option Conversation :=
  List.find (fun c => bool_decide (conv_id c = id ∧ conv_companyId c = companyId))
            (conversations d).

(** [prisma.conversation.create({ data: { contactId, companyId, channel,
      status, metadata } })] *)
Definition conversation_create (contactId companyId : nat)
    (st : ConversationStatus) (channel : string)
    (channels : option (list string)) (d : DB) : Conversation * DB :=
  let row := {| conv_id := nextId d; conv_contactId := contactId;
                conv_companyId := companyId; conv_status := st;
                conv_channel := channel; conv_channels := channels |} in
  (row, bump (with_conversations (conversations d ++ [row]) d)).

Definition set_status (st : ConversationStatus) (c : Conversation)
  : Conversation :=
  {| conv_id := conv_id c; conv_contactId := conv_contactId c;
     conv_companyId := conv_companyId c; conv_status := st;
     conv_channel := conv_channel c; conv_channels := conv_channels c |}.

Definition set_channels (chs : list string) (c : Conversation) : Conversation :=
  {| conv_id := conv_id c; conv_contactId := conv_contactId c;
     conv_companyId := conv_companyId c; conv_status := conv_status c;
     conv_channel := conv_channel c; conv_channels := Some chs |}.

Definition hasConversation (id : nat) (d : DB) : bool :=
  existsb (fun c => bool_decide (conv_id c = id)) (conversations d).

(** [prisma.conversation.update({ where: { id }, data })]: rejects when
    no row has the id. *)
Definition conversation_update (id : nat) (f : Conversation -> Conversation)
    (d : DB) : Res unit * DB :=
  if hasConversation id d
  then (Ok tt,
        with_conversations
          (map (fun c => if bool_decide (conv_id c = id) then f c else c)
               (conversations d)) d)
  else (Throw RecordNotFound, d).

(** [prisma.message.findMany({ where: { conversationId },
      orderBy: { timestamp: 'desc' }, take: 10 })] *)
Definition message_findMany_recent (conversationId : nat) (d : DB)
  : list Message :=
  take 10 (rev (filter (fun m => msg_conversationId m = conversationId)
                       (messages d))).

(** [prisma.message.create({ data })] *)
Definition message_create (content : string) (inbound : bool)
    (conversationId : nat) (d : DB) : Message * DB :=
  let row := {| msg_id := nextId d; msg_content := content;
                msg_inbound := inbound;
                msg_conversationId := conversationId |} in
  (row, bump (with_messages (messages d ++ [row]) d)).

(** [prisma.contact.findUnique({ where: { phone } })] *)
Definition contact_findUnique (phone : string) (d : DB) : option Contact :=
  List.find (fun c => bool_decide (contact_phone c = phone)) (contacts d).

(** [prisma.contact.create({ data: { phone, name } })] *)
Definition contact_create (phone : string) (d : DB) : Contact * DB :=
  let row := {| contact_id := nextId d; contact_phone := phone |} in
  (row, bump (with_contacts (contacts d ++ [row]) d)).

(** [prisma.campaign.findUnique({ where: { id } })] *)
Definition campaign_findUnique (id : nat) (d : DB) : option Campaign :=
  List.find (fun c => bool_decide (camp_id c = id)) (campaigns d).

(** [prisma.campaign.update({ where: { id }, data })] *)
Definition campaign_update (id : nat) (f : Campaign -> Campaign) (d : DB)
  : Res unit * DB :=
  match campaign_findUnique id d with
  | Some _ =>
      (Ok tt,
       with_campaigns
         (map (fun c => if bool_decide (camp_id c = id) then f c else c)
              (campaigns d)) d)
  | None => (Throw RecordNotFound, d)
  end.

Definition set_campaign_status (st : CampaignStatus) (c : Campaign) : Campaign :=
  {| camp_id := camp_id c; camp_companyId := camp_companyId c;
     camp_content := camp_content c; camp_recipients := camp_recipients c;
     camp_status := st; camp_results := camp_results c |}.

Definition set_campaign_results (r : Results) (c : Campaign) : Campaign :=
  {| camp_id := camp_id c; camp_companyId := camp_companyId c;
     camp_content := camp_content c; camp_recipients := camp_recipients c;
     camp_status := camp_status c; camp_results := r |}.

End Store.

(* ===================================================================== *)
(** * The process: world, effects and the handler monad *)
(* ===================================================================== *)

Module Runtime.
Import Store.

(** [io.to(`company_${id}`).emit(...)] or an emit on the caller's socket. *)
Inductive Audience := Company (id : nat) | Caller.

(** An emitted event; [ev_subject] is the conversation or campaign id of
    the payload, [ev_agent] its [agentId] when it has one. *)
Record Event := {
  ev_to : Audience; ev_name : string; ev_subject : nat; ev_agent : option nat
}.

(** A message handed to the channel transport. *)
Record Sent := { sent_account : nat; sent_phone : string; sent_content : string }.

(** The parts of local time that [isBusinessHours] reads. *)
Record Clock := { weekday : string; hour : nat }.

(** What the completion service is given. *)
Record AIContext := {
  ctx_clientPhone : string; ctx_history : list string
}.

Record World := {
  db : DB;
  (** whether the coming store calls reject, in call order *)
  storeFaults : list bool;
  (** whether the coming channel sends reject, in call order *)
  channelFaults : list bool;
  (** the completion service: [None] when the call rejects *)
  completion : AIContext -> string -> option string;
  now : Clock;
  (** [io] of socket.js is set *)
  io : bool;
  emitted : list Event;
  logs : list string;
  outbox : list Sent;
  processingQueue : gmap nat bool;
  runningCampaigns : gmap nat bool
}.

Definition set_db (d : DB) (w : World) : World :=
  {| db := d; storeFaults := storeFaults w; channelFaults := channelFaults w;
     completion := completion w; now := now w; io := io w;
     emitted := emitted w; logs := logs w; outbox := outbox w;
     processingQueue := processingQueue w;
     runningCampaigns := runningCampaigns w |}.

Definition set_storeFaults (f : list bool) (w : World) : World :=
  {| db := db w; storeFaults := f; channelFaults := channelFaults w;
     completion := completion w; now := now w; io := io w;
     emitted := emitted w; logs := logs w; outbox := outbox w;
     processingQueue := processingQueue w;
     runningCampaigns := runningCampaigns w |}.

Definition set_channelFaults (f : list bool) (w : World) : World :=
  {| db := db w; storeFaults := storeFaults w; channelFaults := f;
     completion := completion w; now := now w; io := io w;
     emitted := emitted w; logs := logs w; outbox := outbox w;
     processingQueue := processingQueue w;
     runningCampaigns := runningCampaigns w |}.

Definition set_emitted (e : list Event) (w : World) : World :=
  {| db := db w; storeFaults := storeFaults w;
     channelFaults := channelFaults w;
     completion := completion w; now := now w; io := io w;
     emitted := e; logs := logs w; outbox := outbox w;
     processingQueue := processingQueue w;
     runningCampaigns := runningCampaigns w |}.

Definition set_logs (l : list string) (w : World) : World :=
  {| db := db w; storeFaults := storeFaults w;
     channelFaults := channelFaults w;
     completion := completion w; now := now w; io := io w;
     emitted := emitted w; logs := l; outbox := outbox w;
     processingQueue := processingQueue w;
     runningCampaigns := runningCampaigns w |}.

Definition set_outbox (o : list Sent) (w : World) : World :=
  {| db := db w; storeFaults := storeFaults w;
     channelFaults := channelFaults w;
     completion := completion w; now := now w; io := io w;
     emitted := emitted w; logs := logs w; outbox := o;
     processingQueue := processingQueue w;
     runningCampaigns := runningCampaigns w |}.

Definition set_processingQueue (q : gmap nat bool) (w : World) : World :=
  {| db := db w; storeFaults := storeFaults w;
     channelFaults := channelFaults w;
     completion := completion w; now := now w; io := io w;
     emitted := emitted w; logs := logs w; outbox := outbox w;
     processingQueue := q;
     runningCampaigns := runningCampaigns w |}.

Definition set_runningCampaigns (q : gmap nat bool) (w : World) : World :=
  {| db := db w; storeFaults := storeFaults w;
     channelFaults := channelFaults w;
     completion := completion w; now := now w; io := io w;
     emitted := emitted w; logs := logs w; outbox := outbox w;
     processingQueue := processingQueue w;
     runningCampaigns := q |}.

(** ** The monad of handlers *)

Definition M (A : Type) : Type := World -> Res A * World.

Definition ret {A} (a : A) : M A := fun w => (Ok a, w).

Definition throw {A} (e : Err) : M A := fun w => (Throw e, w).

Definition bind {A B} (m : M A) (k : A -> M B) : M B :=
  fun w => match m w with
           | (Ok a, w') => k a w'
           | (Throw e, w') => (Throw e, w')
           end.

(** [try { body } catch (error) { handler }] *)
Definition tryCatch {A} (body : M A) (handler : Err -> M A) : M A :=
  fun w => match body w with
           | (Ok a, w') => (Ok a, w')
           | (Throw e, w') => handler e w'
           end.

(** [try { body } finally { cleanup }]: the cleanup runs on every exit, and
    an exception of the cleanup replaces the outcome of the body. *)
Definition tryFinally {A} (body : M A) (cleanup : M unit) : M A :=
  fun w => let (r, w') := body w in
           match cleanup w' with
           | (Ok _, w'') => (r, w'')
           | (Throw e, w'') => (Throw e, w'')
           end.

Declare Scope handler_scope.
Delimit Scope handler_scope with handler.

Notation "'let!' x ':=' m 'in' k" := (bind m (fun x => k))
  (at level 10, x name, m at level 100, k at level 200) : handler_scope.
Notation "m '>>' k" := (bind m (fun _ => k))
  (at level 80, right associativity) : handler_scope.

Open Scope handler_scope.

Definition nextFault (l : list bool) : bool * list bool :=
  match l with
  | [] => (false, [])
  | b :: rest => (b, rest)
  end.

(** One [await prisma...] that reads. *)
Definition query {A} (q : DB -> A) : M A :=
  fun w => let (fault, rest) := nextFault (storeFaults w) in
           if fault then (Throw StoreError, set_storeFaults rest w)
           else (Ok (q (db w)), set_storeFaults rest w).

(** One [await prisma...] that writes and cannot be rejected by the data. *)
Definition mutate {A} (q : DB -> A * DB) : M A :=
  fun w => let (fault, rest) := nextFault (storeFaults w) in
           if fault then (Throw StoreError, set_storeFaults rest w)
           else let (a, d) := q (db w) in
                (Ok a, set_db d (set_storeFaults rest w)).

(** One [await prisma...update] that rejects on a missing row. *)
Definition update (q : DB -> Res unit * DB) : M unit :=
  fun w => let (fault, rest) := nextFault (storeFaults w) in
           if fault then (Throw StoreError, set_storeFaults rest w)
           else let (r, d) := q (db w) in
                (r, set_db d (set_storeFaults rest w)).

Definition emit (e : Event) : M unit :=
  fun w => (Ok tt, set_emitted (emitted w ++ [e]) w).

(** socket.js, [notifyCompany]: emits only once [io] is set. *)
Definition notifyCompany (companyId : nat) (event : string) (subject : nat)
    (agent : option nat) : M unit :=
  fun w => if io w
           then emit {| ev_to := Company companyId; ev_name := event;
                        ev_subject := subject; ev_agent := agent |} w
           else (Ok tt, w).

(** [logger.error], [logger.info], [logger.warn], [console.error]. *)
Definition logger (line : string) : M unit :=
  fun w => (Ok tt, set_logs (logs w ++ [line]) w).

(** whatsapp.js, [sendMessage]: resolves to [{ success: true, ... }] or logs
    and rethrows. *)
Definition sendMessage (account : nat) (phone content : string) : M unit :=
  fun w => let (fault, rest) := nextFault (channelFaults w) in
           if fault
           then (Throw ChannelError,
                 set_logs (logs w ++ ["Error sending message:"])
                          (set_channelFaults rest w))
           else (Ok tt,
                 set_outbox (outbox w ++ [{| sent_account := account;
                                             sent_phone := phone;
                                             sent_content := content |}])
                            (set_channelFaults rest w)).

(** helpers.js, [isBusinessHours]: Monday to Friday, 9h to 18h. *)
Definition isBusinessHours (c : Clock) : bool :=
  let isWeekday := negb (bool_decide (weekday c ∈ ["sábado"; "domingo"])) in
  let isBusinessHour := (9 <=? hour c)%nat && (hour c <? 18)%nat in
  isWeekday && isBusinessHour.

(** The store answers every coming call. *)
Definition healthy (w : World) : Prop := storeFaults w = [].

End Runtime.

(* ===================================================================== *)
(** * messageProcessor.js, class MessageProcessor *)
(* ===================================================================== *)

Module MessageProcessor.
Import Store Runtime.

(** The [conversation] object a caller passes: the row, and the [contact]
    relation when the caller's query included it ([None]: undefined). *)
Record ConversationObj := {
  conv :> Conversation;
  conv_contact : option Contact
}.

(** A user with the included relation [agents]: the user's assignment rows
    with [isActive: true], each with its [conversation] when that one is
    OPEN or PENDING.  The nested filter decides what is attached to a row,
    not which rows are listed. *)
Record Assignment := {
  asg_row : ConversationAgent;
  asg_conversation : option Conversation
}.

Record Agent := { agent_user :> User; agents : list Assignment }.

Definition loadAssignment (d : DB) (a : ConversationAgent) : Assignment :=
  {| asg_row := a;
     asg_conversation :=
       List.find (fun c => bool_decide (conv_id c = ca_conversationId a)
                           && active (conv_status c))
                 (conversations d) |}.

Definition loadAgent (d : DB) (u : User) : Agent :=
  {| agent_user := u;
     agents :=
       map (loadAssignment d)
           (filter (fun a => ca_userId a = user_id u ∧ ca_isActive a = true)
                   (conversationAgents d)) |}.

(** The assignments of a loaded agent whose conversation is OPEN or
    PENDING. *)
Definition openLoad (a : Agent) : nat :=
  length (filter (fun x => is_Some (asg_conversation x)) (agents a)).

(** Every active assignment of the store belongs to an OPEN or PENDING
    conversation, as the close handlers leave it. *)
Definition assignmentsLive (d : DB) : bool :=
  forallb (fun r => negb (ca_isActive r)
                    || existsb (fun c => bool_decide (conv_id c
                                                      = ca_conversationId r)
                                         && active (conv_status c))
                               (conversations d))
          (conversationAgents d).

(** The query of [findAvailableAgent]. *)
Definition user_findMany_available (companyId : nat) (d : DB) : list Agent :=
  map (loadAgent d) (user_findMany_online companyId [AGENT; MANAGER] d).

Definition transferKeywords : list string :=
  ["transferir"; "atendente"; "humano"; "supervisor"; "gerente";
   "reclamação"; "urgente"; "problema grave"].

Definition shouldTransferToAgent (response userMessage : string) : bool :=
  let responseText := JS.toLowerCase response in
  let userText := JS.toLowerCase userMessage in
  JS.some (fun keyword => JS.includes responseText keyword
                          || JS.includes userText keyword)
          transferKeywords.

Inductive Action := schedule | quote.

Definition extractActions (response : string) : option (list Action) :=
  let actions :=
    ((if JS.includes response "[AGENDAR]" then [schedule] else [])
     ++ (if JS.includes response "[COTACAO]" then [quote] else []))%list in
  if (0 <? length actions)%nat then Some actions else None.

Record AIResponse := {
  ai_message : string;
  ai_shouldTransferToAgent : bool;
  ai_actions : option (list Action)
}.

Definition isConversationAssigned (conversationId : nat) : M bool :=
  let! assignment := query (conversationAgent_findFirst conversationId) in
  ret (bool_decide (is_Some assignment)).

Definition shouldUseChatbot (conversation : ConversationObj) (message : Message)
  : M bool :=
  tryCatch
    (let! onlineAgents :=
       query (user_findMany_online (conv_companyId conversation)
                                   [AGENT; MANAGER; ADMIN]) in
     let! company :=
       query (company_findUnique_chatbots (conv_companyId conversation)) in
     match company with
     | None => throw TypeError
     | Some company_chatbots =>
         let hasActiveChatbot := (0 <? length company_chatbots)%nat in
         let! assigned := isConversationAssigned (conv_id conversation) in
         let isUnassigned := negb assigned in
         fun w =>
           ret (hasActiveChatbot
                && ((length onlineAgents =? 0)%nat
                    || negb (isBusinessHours (now w))
                    || isUnassigned)) w
     end)
    (fun _ => logger "Error checking chatbot conditions:" >> ret false).

Definition findAvailableAgent (companyId : nat) : M (option Agent) :=
  let! found := query (user_findMany_available companyId) in
  if (length found =? 0)%nat then ret None
  else match JS.reduce
               (fun prev current =>
                  if (length (agents prev) <? length (agents current))%nat
                  then prev else current)
               found with
       | Some a => ret (Some a)
       | None => throw TypeError
       end.

Definition assignToAgent (conversation : ConversationObj) : M unit :=
  tryCatch
    (let! availableAgent := findAvailableAgent (conv_companyId conversation) in
     match availableAgent with
     | Some a =>
         mutate (conversationAgent_create (user_id a) (conv_id conversation)) >>
         update (conversation_update (conv_id conversation) (set_status OPEN)) >>
         notifyCompany (conv_companyId conversation) "conversation:assigned"
                       (conv_id conversation) (Some (user_id a))
     | None =>
         update (conversation_update (conv_id conversation)
                                     (set_status PENDING)) >>
         notifyCompany (conv_companyId conversation) "conversation:pending"
                       (conv_id conversation) None
     end)
    (fun _ => logger "Error assigning to agent:").

(** [contact.name] on an undefined [contact] is a TypeError. *)
Definition buildAIContext (conversation : ConversationObj)
    (recentMessages : list Message) (chatbot : Chatbot) : M AIContext :=
  match conv_contact conversation with
  | None => throw TypeError
  | Some contact =>
      ret {| ctx_clientPhone := contact_phone contact;
             ctx_history :=
               map (fun m => ((if msg_inbound m then "Cliente: " else "Bot: ")
                              ++ msg_content m)%string)
                   (rev recentMessages) |}
  end.

Definition fallbackResponse : AIResponse :=
  {| ai_message := "Desculpe, estou com dificuldades técnicas. Vou transferir você para um de nossos atendentes.";
     ai_shouldTransferToAgent := true;
     ai_actions := None |}.

Definition generateAIResponse (userMessage : string) (context : AIContext)
  : M AIResponse :=
  tryCatch
    (fun w =>
       match completion w context userMessage with
       | None => (Throw CompletionError, w)
       | Some response =>
           ret {| ai_message := response;
                  ai_shouldTransferToAgent :=
                    shouldTransferToAgent response userMessage;
                  ai_actions := extractActions response |} w
       end)
    (fun _ => logger "Error generating AI response:" >> ret fallbackResponse).

Definition sendBotMessage (conversation : ConversationObj) (content : string)
    (whatsappAccountId : nat) : M unit :=
  tryCatch
    (let! message :=
       mutate (message_create content false (conv_id conversation)) in
     match conv_contact conversation with
     | None => throw TypeError
     | Some contact =>
         sendMessage whatsappAccountId (contact_phone contact) content >>
         notifyCompany (conv_companyId conversation) "message:new"
                       (conv_id conversation) None
     end)
    (fun _ => logger "Error sending bot message:").

Definition executeAction (a : Action) : M unit :=
  match a with
  | schedule => logger "Scheduling appointment"
  | quote => logger "Generating quote"
  end.

Fixpoint executeActions (actions : list Action) : M unit :=
  match actions with
  | [] => ret tt
  | a :: rest =>
      tryCatch (executeAction a) (fun _ => logger "Error executing action") >>
      executeActions rest
  end.

Definition processChatbotResponse (message : Message)
    (conversation : ConversationObj) (whatsappAccount : nat) : M unit :=
  tryCatch
    (let! recentMessages :=
       query (message_findMany_recent (conv_id conversation)) in
     let! chatbot := query (chatbot_findFirst (conv_companyId conversation)) in
     match chatbot with
     | None => assignToAgent conversation
     | Some bot =>
         let! context := buildAIContext conversation recentMessages bot in
         let! aiResponse := generateAIResponse (msg_content message) context in
         if ai_shouldTransferToAgent aiResponse
         then assignToAgent conversation
         else
           sendBotMessage conversation (ai_message aiResponse) whatsappAccount >>
           match ai_actions aiResponse with
           | Some actions => executeActions actions
           | None => ret tt
           end
     end)
    (fun _ => logger "Error processing chatbot response:" >>
              assignToAgent conversation).

(** [this.processingQueue.set(conversation.id, true)] and
    [this.processingQueue.delete(conversation.id)]. *)
Definition lock (conversationId : nat) : M unit :=
  fun w => (Ok tt,
            set_processingQueue (<[conversationId := true]> (processingQueue w))
                                w).

Definition unlock (conversationId : nat) : M unit :=
  fun w => (Ok tt,
            set_processingQueue (delete conversationId (processingQueue w)) w).

(** The method as it runs on the instance, [this] being the exported
    [MessageProcessor]; the call without receiver is in [Invocation]. *)
Definition processIncomingMessage (message : Message)
    (conversation : ConversationObj) (whatsappAccount : nat) : M unit :=
  tryFinally
    (tryCatch
       (fun w =>
          if bool_decide (is_Some (processingQueue w !! conv_id conversation))
          then ret tt w
          else
            (lock (conv_id conversation) >>
             let! shouldUseBot := shouldUseChatbot conversation message in
             if shouldUseBot : bool
             then processChatbotResponse message conversation whatsappAccount
             else assignToAgent conversation) w)
       (fun _ => logger "Error processing message:"))
    (unlock (conv_id conversation)).

End MessageProcessor.

(* ===================================================================== *)
(** * Manual assignment: the HTTP route and the socket event *)
(* ===================================================================== *)

Module Routes.
Import Store Runtime.

Record Response := { res_status : nat; res_body : string }.

(** [POST /conversations/:id/assign]; [agentId] is the optional field of
    the request body, [reqUser] the authenticated user. *)
Definition assign (reqUser : User) (agentId : option nat) (conversationId : nat)
  : M Response :=
  tryCatch
    (let! conversation :=
       query (conversation_findUnique conversationId (user_companyId reqUser)) in
     match conversation with
     | None => ret {| res_status := 404;
                      res_body := "Conversa não encontrada" |}
     | Some _ =>
         let! agent :=
           query (user_findUnique_active (default (user_id reqUser) agentId)
                                         (user_companyId reqUser)) in
         match agent with
         | None => ret {| res_status := 404;
                          res_body := "Agente não encontrado" |}
         | Some agent =>
             (* Desativar atribuições anteriores *)
             mutate (fun d => (tt, conversationAgent_deactivate conversationId d)) >>
             (* Criar nova atribuição *)
             mutate (conversationAgent_create (user_id agent) conversationId) >>
             (* Atualizar status da conversa *)
             update (conversation_update conversationId (set_status OPEN)) >>
             notifyCompany (user_companyId reqUser) "conversation:assigned"
                           conversationId (Some (user_id agent)) >>
             ret {| res_status := 200;
                    res_body := "Conversa atribuída com sucesso" |}
         end
     end)
    (fun _ => logger "Error assigning conversation:" >>
              ret {| res_status := 500;
                     res_body := "Erro ao atribuir conversa" |}).

End Routes.

Module Socket.
Import Store Runtime.

Definition emitCaller (event : string) (subject : nat) : M unit :=
  emit {| ev_to := Caller; ev_name := event; ev_subject := subject;
          ev_agent := None |}.

(** [prisma.conversation.findUnique({ where: { id, companyId },
      include: { agents: { where: { isActive: true } } } })] *)
Definition conversation_findUnique_agents (id companyId : nat) (d : DB)
  : option (Conversation * list ConversationAgent) :=
  match conversation_findUnique id companyId d with
  | Some c => Some (c, activeAssignments id d)
  | None => None
  end.

(** [socket.on('conversation:take', ...)] for the connected [user]. *)
Definition conversationTake (user : User) (conversationId : nat) : M unit :=
  tryCatch
    (let! conversation :=
       query (conversation_findUnique_agents conversationId
                                             (user_companyId user)) in
     match conversation with
     | None => emitCaller "error" conversationId
     | Some (_, conversation_agents) =>
         if (0 <? length conversation_agents)%nat
         then emitCaller "error" conversationId
         else
           mutate (conversationAgent_create (user_id user) conversationId) >>
           update (conversation_update conversationId (set_status OPEN)) >>
           emit {| ev_to := Company (user_companyId user);
                   ev_name := "conversation:assigned";
                   ev_subject := conversationId;
                   ev_agent := Some (user_id user) |} >>
           emitCaller "conversation:taken" conversationId
     end)
    (fun _ => logger "Error taking conversation:" >>
              emitCaller "error" conversationId).

End Socket.

(* ===================================================================== *)
(** * Find or create the active conversation *)
(* ===================================================================== *)

Module WhatsApp.
Import Store Runtime.

(** whatsapp.js, [handleIncomingMessage], the step "Buscar conversa ativa ou
    criar nova" for the resolved contact and the receiving account. *)
Definition findOrCreateConversation (contactId companyId : nat) : M Conversation :=
  let! conversation := query (conversation_findFirst contactId companyId) in
  match conversation with
  | Some c => ret c
  | None => mutate (conversation_create contactId companyId OPEN
                                        "WHATSAPP" None)
  end.

End WhatsApp.

Module Omnichannel.
Import Store Runtime.

(** omnichannelService.js, [findOrCreateUnifiedConversation].  The returned
    object is the one the query answered; pushing onto its own [channels]
    array shows in it, pushing onto the fresh [[]] does not. *)
Definition findOrCreateUnifiedConversation (contactId : nat) (channel : string)
    (companyId : nat) : M Conversation :=
  tryCatch
    (let! conversation := query (conversation_findFirst contactId companyId) in
     match conversation with
     | None =>
         mutate (conversation_create contactId companyId OPEN channel
                                     (Some [channel]))
     | Some c =>
         let channels := default [] (conv_channels c) in
         if bool_decide (channel ∈ channels)
         then ret c
         else
           let channels' := (channels ++ [channel])%list in
           update (conversation_update (conv_id c) (set_channels channels')) >>
           ret (match conv_channels c with
                | Some _ => set_channels channels' c
                | None => c
                end)
     end)
    (fun e => logger "Error finding/creating unified conversation:" >>
              throw e).

End Omnichannel.

(* ===================================================================== *)
(** * campaignService.js, class CampaignService *)
(* ===================================================================== *)

Module CampaignService.
Import Store Runtime.

(** Where [processCampaign] sleeps: after the message at an index of the
    recipient list, or before the batch that starts at an index. *)
Inductive Suspension := AfterMessage (index : nat) | BeforeBatch (index : nat).

(** What the other handlers of the process do during each sleep. *)
Definition Interleaving : Type := Suspension -> M unit.

Definition quiet : Interleaving := fun _ => ret tt.

(** [await delay(ms)]: the others run; their exceptions are their own. *)
Definition delay (others : Interleaving) (s : Suspension) : M unit :=
  fun w => (Ok tt, snd (others s w)).

Definition batchSize : nat := 10.

Definition sent1 (r : Results) : Results :=
  {| res_sent := S (res_sent r); res_delivered := S (res_delivered r);
     res_failed := res_failed r; res_errors := res_errors r |}.

Definition failed1 (phone : string) (r : Results) : Results :=
  {| res_sent := res_sent r; res_delivered := res_delivered r;
     res_failed := S (res_failed r);
     res_errors := res_errors r ++ [phone] |}.

(** The body of [for (const recipient of batch)].  [sendMessage] resolves
    with [success: true] or rejects, so the branch on a false [success] is
    never taken. *)
Definition sendToRecipient (others : Interleaving) (campaign : Campaign)
    (whatsappAccount : nat) (index : nat) (results : Results)
    (recipient : Recipient) : M Results :=
  tryCatch
    (let! found := query (contact_findUnique (rcp_phone recipient)) in
     let! contact :=
       match found with
       | Some c => ret c
       | None => mutate (contact_create (rcp_phone recipient))
       end in
     let! existing :=
       query (conversation_findFirst (contact_id contact)
                                     (camp_companyId campaign)) in
     let! conversation :=
       match existing with
       | Some c => ret c
       | None => mutate (conversation_create (contact_id contact)
                                             (camp_companyId campaign)
                                             OPEN "WHATSAPP" None)
       end in
     sendMessage whatsappAccount (rcp_phone recipient) (camp_content campaign) >>
     mutate (message_create (camp_content campaign) false
                            (conv_id conversation)) >>
     delay others (AfterMessage index) >>
     ret (sent1 results))
    (fun _ => logger "Error sending to recipient" >>
              ret (failed1 (rcp_phone recipient) results)).

Fixpoint sendBatch (others : Interleaving) (campaign : Campaign)
    (whatsappAccount : nat) (index : nat) (results : Results)
    (batch : list Recipient) : M Results :=
  match batch with
  | [] => ret results
  | recipient :: rest =>
      let! results' :=
        sendToRecipient others campaign whatsappAccount index results
                        recipient in
      sendBatch others campaign whatsappAccount (S index) results' rest
  end.

(** [for (let i = 0; i < recipients.length; i += batchSize)], entered at
    [i].  The index grows by [batchSize] on every turn, so
    [length recipients - i] turns are never used up. *)
Fixpoint batches (turns : nat) (others : Interleaving) (campaign : Campaign)
    (whatsappAccount : nat) (i : nat) (results : Results) : M Results :=
  match turns with
  | 0 => ret results
  | S turns' =>
      let recipients := camp_recipients campaign in
      if (i <? length recipients)%nat then
        fun w =>
          (* Verificar se a campanha foi cancelada *)
          if negb (bool_decide
                     (is_Some (runningCampaigns w !! camp_id campaign)))
          then ret results w
          else
            (let batch := JS.slice recipients i (i + batchSize) in
             let! results' :=
               sendBatch others campaign whatsappAccount i results batch in
             update (campaign_update (camp_id campaign)
                                     (set_campaign_results results')) >>
             notifyCompany (camp_companyId campaign) "campaign:progress"
                           (camp_id campaign) None >>
             (if (i + batchSize <? length recipients)%nat
              then delay others (BeforeBatch (i + batchSize))
              else ret tt) >>
             batches turns' others campaign whatsappAccount (i + batchSize)
                     results') w
      else ret results
  end.

Definition processCampaign (others : Interleaving) (campaign : Campaign)
    (whatsappAccount : nat) : M unit :=
  let campaignId := camp_id campaign in
  fun w0 =>
    tryFinally
      (tryCatch
         (logger "Starting campaign" >>
          notifyCompany (camp_companyId campaign) "campaign:started"
                        campaignId None >>
          let! results :=
            batches (length (camp_recipients campaign)) others campaign
                    whatsappAccount 0 (camp_results campaign) in
          (* Finalizar campanha *)
          update (campaign_update campaignId
                    (fun c => set_campaign_results results
                                (set_campaign_status SENT c))) >>
          notifyCompany (camp_companyId campaign) "campaign:completed"
                        campaignId None >>
          logger "Campaign completed")
         (fun _ =>
            logger "Error processing campaign" >>
            update (campaign_update campaignId (set_campaign_status FAILED)) >>
            notifyCompany (camp_companyId campaign) "campaign:failed"
                          campaignId None))
      (fun w => (Ok tt,
                 set_runningCampaigns (delete campaignId (runningCampaigns w))
                                      w))
      (set_runningCampaigns (<[campaignId := true]> (runningCampaigns w0)) w0).

Definition cancelCampaign (campaignId : nat) : M string :=
  tryCatch
    (let! campaign := query (campaign_findUnique campaignId) in
     match campaign with
     | None => throw (Rejected "Campanha não encontrada")
     | Some c =>
         if bool_decide (camp_status c ≠ SENDING)
         then throw (Rejected "Apenas campanhas em envio podem ser canceladas")
         else
           (* Remover da lista de campanhas em execução *)
           (fun w => (Ok tt,
                      set_runningCampaigns
                        (delete campaignId (runningCampaigns w)) w)) >>
           (* Atualizar status *)
           update (campaign_update campaignId (set_campaign_status CANCELLED)) >>
           ret "Campanha cancelada com sucesso"
     end)
    (fun e => logger "Error cancelling campaign:" >> throw e).

End CampaignService.

(* ===================================================================== *)
(** * Sequences of inbound events *)
(* ===================================================================== *)

Module Inbound.
Import Store Runtime.

(** An inbound event of a contact reaches the store through the WhatsApp
    handler or through the omnichannel service. *)
Inductive Arrival := ViaWhatsApp | ViaOmnichannel (channel : string).

Definition findOrCreate (e : Arrival) (contactId companyId : nat)
  : M Conversation :=
  match e with
  | ViaWhatsApp => WhatsApp.findOrCreateConversation contactId companyId
  | ViaOmnichannel channel =>
      Omnichannel.findOrCreateUnifiedConversation contactId channel companyId
  end.

(** The handlers run one after the other, each to its end before the next
    starts; the trace keeps what each one answered and the world it left.
    Handlers that overlap are in [Overlap] below. *)
Fixpoint trace (events : list Arrival) (contactId companyId : nat) (w : World)
  : list (Res Conversation * World) :=
  match events with
  | [] => []
  | e :: rest =>
      let (r, w') := findOrCreate e contactId companyId w in
      (r, w') :: trace rest contactId companyId w'
  end.

(** The OPEN or PENDING conversations of a (contact, company) pair. *)
Definition activeFor (d : DB) (contactId companyId : nat) : list Conversation :=
  filter (fun c => conv_contactId c = contactId /\ conv_companyId c = companyId
                   /\ (conv_status c = OPEN \/ conv_status c = PENDING))
         (conversations d).

Definition singleActive (d : DB) (contactId companyId : nat) : Prop :=
  length (activeFor d contactId companyId) <= 1.

(** What one handler run keeps for the pair: still at most one active
    conversation; the conversation it answers is that one; and the one that
    was active before still is. *)
Definition stepOK (contactId companyId : nat) (w : World)
    (r : Res Conversation) (w' : World) : Prop :=
  singleActive (db w') contactId companyId
  /\ (forall c, r = Ok c ->
                map conv_id (activeFor (db w') contactId companyId)
                = [conv_id c])
  /\ (forall i, map conv_id (activeFor (db w) contactId companyId) = [i] ->
                map conv_id (activeFor (db w') contactId companyId) = [i]).

End Inbound.

(* ===================================================================== *)
(** * The routing rule: what the code computes, what the specification says *)
(* ===================================================================== *)

(** The rule that [shouldUseChatbot] computes, as a proposition over the
    store and the clock.  The hours are those of helpers.js,
    [isBusinessHours]: Monday to Friday, 9h to 18h, whatever the company
    has configured. *)
Module Decision.
Import Store Runtime.

Definition hasActiveChatbot (d : DB) (companyId : nat) : Prop :=
  companyId ∈ companies d
  /\ exists b, b ∈ chatbots d /\ chatbot_companyId b = companyId
               /\ chatbot_isActive b = true.

Definition noAgentOnline (d : DB) (companyId : nat) : Prop :=
  forall u, u ∈ users d -> user_companyId u = companyId ->
            user_isOnline u = true -> user_status u = ACTIVE ->
            user_role u <> AGENT /\ user_role u <> MANAGER
            /\ user_role u <> ADMIN.

Definition outsideFixedHours (c : Clock) : Prop :=
  weekday c = "sábado" \/ weekday c = "domingo"
  \/ (hour c < 9)%nat \/ (18 <= hour c)%nat.

Definition isUnassigned (d : DB) (conversationId : nat) : Prop :=
  forall a, a ∈ conversationAgents d ->
            ca_conversationId a = conversationId -> ca_isActive a = false.

Definition useChatbot (d : DB) (c : Clock) (conversation : Conversation)
  : Prop :=
  hasActiveChatbot d (conv_companyId conversation)
  /\ (noAgentOnline d (conv_companyId conversation)
      \/ outsideFixedHours c
      \/ isUnassigned d (conv_id conversation)).


End Decision.

(** The rule in the words of the specification: the hours are the
    configured ones.  The configuration is [settings.businessHours] as
    validation.js accepts it for a company (updateCompany) and as the
    chatbot template of chatbots.js fills it: a switch and, per day of the
    week, the opening interval; a day without entry has no hours
    ([start: null]).  Hours are whole hours, as in the clock. *)
Module Spec.
Import Store Runtime.

Record BusinessHours := {
  bh_enabled : bool;
  bh_schedule : list (string * (nat * nat))
}.

(** The key of the schedule for a day as the clock names it. *)
Definition dayKey (weekday : string) : string :=
  if bool_decide (weekday = "segunda-feira") then "monday"
  else if bool_decide (weekday = "terça-feira") then "tuesday"
  else if bool_decide (weekday = "quarta-feira") then "wednesday"
  else if bool_decide (weekday = "quinta-feira") then "thursday"
  else if bool_decide (weekday = "sexta-feira") then "friday"
  else if bool_decide (weekday = "sábado") then "saturday"
  else "sunday".

Definition hoursOn (configured : BusinessHours) (day : string)
  : option (nat * nat) :=
  option_map snd
    (List.find (fun entry => bool_decide (fst entry = day))
               (bh_schedule configured)).

Definition outsideBusinessHours (configured : BusinessHours) (c : Clock)
  : Prop :=
  bh_enabled configured = true
  /\ match hoursOn configured (dayKey (weekday c)) with
     | Some (start, close) => (hour c < start)%nat \/ (close <= hour c)%nat
     | None => True
     end.

Definition useChatbot (configured : BusinessHours) (d : DB) (c : Clock)
    (conversation : Conversation) : Prop :=
  Decision.hasActiveChatbot d (conv_companyId conversation)
  /\ (Decision.noAgentOnline d (conv_companyId conversation)
      \/ outsideBusinessHours configured c
      \/ Decision.isUnassigned d (conv_id conversation)).

End Spec.

(* ===================================================================== *)
(** * Concrete worlds *)
(* ===================================================================== *)

Module Scenario.
Import Store Runtime MessageProcessor.

Definition user (id : nat) (role : Role) : User :=
  {| user_id := id; user_companyId := 1; user_isOnline := true;
     user_role := role; user_status := ACTIVE |}.

Definition conversation (id : nat) (st : ConversationStatus) : Conversation :=
  {| conv_id := id; conv_contactId := 7; conv_companyId := 1;
     conv_status := st; conv_channel := "WHATSAPP"; conv_channels := None |}.

Definition assignment (id userId conversationId : nat) : ConversationAgent :=
  {| ca_id := id; ca_userId := userId; ca_conversationId := conversationId;
     ca_isActive := true |}.

Definition world (d : DB) : World :=
  {| db := d; storeFaults := []; channelFaults := [];
     completion := fun _ _ => Some "Claro, posso ajudar.";
     now := {| weekday := "terça-feira"; hour := 10 |};
     io := true; emitted := []; logs := []; outbox := [];
     processingQueue := ∅; runningCampaigns := ∅ |}.

(** One company without a chatbot, one agent online, and the conversation
    that the first message of contact 7 opened. *)
Definition desk : DB :=
  {| users := [user 1 AGENT]; companies := [1]; chatbots := [];
     contacts := [{| contact_id := 7; contact_phone := "5511999990007" |}];
     conversations := [conversation 20 OPEN];
     conversationAgents := []; messages := []; campaigns := [];
     nextId := 100 |}.

Definition thread : ConversationObj :=
  {| conv := conversation 20 OPEN;
     conv_contact := Some {| contact_id := 7;
                             contact_phone := "5511999990007" |} |}.

Definition hello : Message :=
  {| msg_id := 30; msg_content := "Bom dia"; msg_inbound := true;
     msg_conversationId := 20 |}.

Definition askHuman : Message :=
  {| msg_id := 31; msg_content := "quero falar com um atendente humano";
     msg_inbound := true; msg_conversationId := 20 |}.

(** The same world while a first message of the conversation is still
    being routed. *)
Definition inFlight : World :=
  set_processingQueue {[20 := true]} (world desk).


(** The same company with an active chatbot. *)
Definition deskWithBot : DB :=
  {| users := users desk; companies := companies desk;
     chatbots := [{| chatbot_id := 40; chatbot_companyId := 1;
                     chatbot_isActive := true |}];
     contacts := contacts desk; conversations := conversations desk;
     conversationAgents := []; messages := []; campaigns := [];
     nextId := 100 |}.

(** Three agents online, in id order, with 3, 2 and 2 active assignments. *)
Definition team : DB :=
  {| users := [user 1 AGENT; user 2 AGENT; user 3 MANAGER];
     companies := [1]; chatbots := []; contacts := [];
     conversations :=
       [conversation 10 OPEN; conversation 11 OPEN; conversation 12 OPEN;
        conversation 13 OPEN; conversation 14 OPEN; conversation 15 OPEN;
        conversation 16 OPEN; conversation 20 PENDING];
     conversationAgents :=
       [assignment 50 1 10; assignment 51 1 11; assignment 52 1 12;
        assignment 53 2 13; assignment 54 2 14;
        assignment 55 3 15; assignment 56 3 16];
     messages := []; campaigns := []; nextId := 100 |}.

(** A store with no conversation of contact 7 yet. *)
Definition fresh : DB :=
  {| users := [user 1 AGENT]; companies := [1]; chatbots := [];
     contacts := [{| contact_id := 7; contact_phone := "5511999990007" |}];
     conversations := []; conversationAgents := []; messages := [];
     campaigns := []; nextId := 100 |}.

(** A campaign of 25 recipients that [startCampaign] has set to SENDING. *)
Definition recipient (n : nat) : Recipient :=
  {| rcp_phone := "55119000000" ++ String (ascii_of_nat (65 + n)) "" |}.

Definition campaign : Campaign :=
  {| camp_id := 60; camp_companyId := 1; camp_content := "Promoção";
     camp_recipients := map recipient (seq 0 25); camp_status := SENDING;
     camp_results := {| res_sent := 0; res_delivered := 0; res_failed := 0;
                        res_errors := [] |} |}.

Definition broadcast : DB :=
  {| users := []; companies := [1]; chatbots := []; contacts := [];
     conversations := []; conversationAgents := []; messages := [];
     campaigns := [campaign]; nextId := 100 |}.

(** The cancellation arrives while [processCampaign] sleeps between the
    first and the second batch. *)
Definition cancelAfterFirstBatch : CampaignService.Interleaving :=
  fun s =>
    match s with
    | CampaignService.BeforeBatch 10 =>
        CampaignService.cancelCampaign 60 >> ret tt
    | _ => ret tt
    end.

End Scenario.

(* ===================================================================== *)
(** * What a handler leaves alone *)
(* ===================================================================== *)

Module Frame.
Import Store Runtime.

(** A relation between the world before and after a handler is respected
    by the handler when it holds on every run, whatever the run answers. *)
Definition respects {A} (R : World -> World -> Prop) (m : M A) : Prop :=
  forall w, R w (snd (m w)).

(** Relations that do not look at what leaves the process nor at the
    schedules of rejected calls. *)
Record Stable (R : World -> World -> Prop) : Prop := {
  st_refl : forall w, R w w;
  st_trans : forall a b c, R a b -> R b c -> R a c;
  st_storeFaults : forall w f, R w (set_storeFaults f w);
  st_channelFaults : forall w f, R w (set_channelFaults f w);
  st_logs : forall w l, R w (set_logs l w);
  st_emitted : forall w e, R w (set_emitted e w);
  st_outbox : forall w o, R w (set_outbox o w)
}.

(** Routing a message never touches the users, companies, chatbots,
    contacts and campaigns of the store nor the campaign registry; it
    creates and deletes no conversation; it only appends active assignment
    rows and message rows. *)
Definition routingFrame (w w' : World) : Prop :=
  users (db w') = users (db w)
  /\ companies (db w') = companies (db w)
  /\ chatbots (db w') = chatbots (db w)
  /\ contacts (db w') = contacts (db w)
  /\ campaigns (db w') = campaigns (db w)
  /\ runningCampaigns w' = runningCampaigns w
  /\ map conv_id (conversations (db w')) = map conv_id (conversations (db w))
  /\ (exists added,
         conversationAgents (db w') = conversationAgents (db w) ++ added
         /\ Forall (fun a => ca_isActive a = true) added)
  /\ (exists added, messages (db w') = messages (db w) ++ added).

(** The entries of [processingQueue] stay as they are. *)
Definition queueFrame (w w' : World) : Prop :=
  processingQueue w' = processingQueue w.

End Frame.

(* ===================================================================== *)
(** * Closing and reopening a conversation *)
(* ===================================================================== *)

Module Lifecycle.
Import Store Runtime Routes.

(** [POST /conversations/:id/close] *)
Definition close (reqUser : User) (conversationId : nat) : M Response :=
  tryCatch
    (let! conversation :=
       query (conversation_findUnique conversationId (user_companyId reqUser)) in
     match conversation with
     | None => ret {| res_status := 404;
                      res_body := "Conversa não encontrada" |}
     | Some _ =>
         update (conversation_update conversationId (set_status CLOSED)) >>
         (* Desativar agentes *)
         mutate (fun d => (tt, conversationAgent_deactivate conversationId d)) >>
         notifyCompany (user_companyId reqUser) "conversation:closed"
                       conversationId (Some (user_id reqUser)) >>
         ret {| res_status := 200;
                res_body := "Conversa fechada com sucesso" |}
     end)
    (fun _ => logger "Error closing conversation:" >>
              ret {| res_status := 500;
                     res_body := "Erro ao fechar conversa" |}).

(** [POST /conversations/:id/reopen] *)
Definition reopen (reqUser : User) (conversationId : nat) : M Response :=
  tryCatch
    (let! conversation :=
       query (conversation_findUnique conversationId (user_companyId reqUser)) in
     match conversation with
     | None => ret {| res_status := 404;
                      res_body := "Conversa não encontrada" |}
     | Some _ =>
         update (conversation_update conversationId (set_status PENDING)) >>
         notifyCompany (user_companyId reqUser) "conversation:reopened"
                       conversationId (Some (user_id reqUser)) >>
         ret {| res_status := 200;
                res_body := "Conversa reaberta com sucesso" |}
     end)
    (fun _ => logger "Error reopening conversation:" >>
              ret {| res_status := 500;
                     res_body := "Erro ao reabrir conversa" |}).

(** [prisma.conversation.update({ where: { id, companyId }, data })]:
    rejects when no row has the id within the company. *)
Definition conversation_update_within (id companyId : nat)
    (f : Conversation -> Conversation) (d : DB) : Res unit * DB :=
  match conversation_findUnique id companyId d with
  | Some _ =>
      (Ok tt,
       with_conversations
         (map (fun c => if bool_decide (conv_id c = id
                                        /\ conv_companyId c = companyId)
                        then f c else c)
              (conversations d)) d)
  | None => (Throw RecordNotFound, d)
  end.

(** [socket.on('conversation:close', ...)] for the connected [user]. *)
Definition conversationClose (user : User) (conversationId : nat) : M unit :=
  tryCatch
    (update (conversation_update_within conversationId (user_companyId user)
                                        (set_status CLOSED)) >>
     (* Desativar agentes da conversa *)
     mutate (fun d => (tt, conversationAgent_deactivate conversationId d)) >>
     emit {| ev_to := Company (user_companyId user);
             ev_name := "conversation:closed";
             ev_subject := conversationId;
             ev_agent := Some (user_id user) |})
    (fun _ => logger "Error closing conversation:" >>
              Socket.emitCaller "error" conversationId).

End Lifecycle.

(* ===================================================================== *)
(** * Counters of a campaign *)
(* ===================================================================== *)

Module Accounting.
Import Store.

(** The counters [r'] are the counters [r] after [n] more recipients: each
    one was counted once, as sent and delivered or as failed with one
    error line. *)
Definition counted (n : nat) (r r' : Results) : Prop :=
  res_sent r' + res_failed r' = res_sent r + res_failed r + n
  /\ res_sent r <= res_sent r'
  /\ res_delivered r' + res_sent r = res_delivered r + res_sent r'
  /\ length (res_errors r') + res_failed r
     = length (res_errors r) + res_failed r'.

End Accounting.

(* ===================================================================== *)
(** * Presence over the life of the process *)
(* ===================================================================== *)

Module Connections.
Import Presence.

(** socket.js keeps one [presenceManager] for the process.  The connection
    handler calls [addUser(user.id, socket.id)] with the id of the
    authenticated user and the id the transport gave the new socket, which no
    live socket has; the disconnect handler calls [removeUser(socket.id)]. *)
Inductive reachable : PresenceManager -> Prop :=
| reach_empty : reachable empty
| reach_connect (p : PresenceManager) (userId socketId : string) :
    reachable p ->
    truthy userId = true ->
    socketUsers p !! socketId = None ->
    reachable (addUser userId socketId p)
| reach_disconnect (p : PresenceManager) (socketId : string) :
    reachable p ->
    reachable (snd (removeUser socketId p)).

(** The two maps agree: a socket is in the set of a user exactly when it is
    registered to that user, no user is kept with an empty set, and no
    registered user id is falsy. *)
Definition consistent (p : PresenceManager) : Prop :=
  (forall u s, (exists S, userSockets p !! u = Some S /\ s ∈ S)
               <-> socketUsers p !! s = Some u)
  /\ (forall u S, userSockets p !! u = Some S -> S <> ∅)
  /\ (forall s u, socketUsers p !! s = Some u -> truthy u = true).

End Connections.

(* ===================================================================== *)
(** * helpers.js: Brazilian phone numbers *)
(* ===================================================================== *)

Module Helpers.

Definition isDigit (c : ascii) : bool :=
  let n := nat_of_ascii c in (48 <=? n)%nat && (n <=? 57)%nat.

(** [s.replace(/\D/g, '')].  No unit of a character outside ASCII is a
    digit, in UTF-16 as in UTF-8, so the digits that are left are the
    same. *)
Fixpoint stripNonDigits (s : string) : string :=
  match s with
  | EmptyString => EmptyString
  | String c rest =>
      if isDigit c then String c (stripNonDigits rest) else stripNonDigits rest
  end.

Fixpoint allDigits (s : string) : bool :=
  match s with
  | EmptyString => true
  | String c rest => isDigit c && allDigits rest
  end.

Definition formatPhone (phone : string) : string :=
  (* Remove todos os caracteres não numéricos *)
  let cleaned := stripNonDigits phone in
  (* Se começa com 55 (código do Brasil), remove *)
  if String.prefix "55" cleaned && (11 <? String.length cleaned)%nat
  then String.substring 2 (String.length cleaned - 2) cleaned
  (* Se não tem código de área, adiciona 11 *)
  else if (String.length cleaned =? 9)%nat
  then "11" +:+ cleaned
  else cleaned.

Definition validAreaCodes : list string :=
  ["11"; "12"; "13"; "14"; "15"; "16"; "17"; "18"; "19";
   "21"; "22"; "24";
   "27"; "28";
   "31"; "32"; "33"; "34"; "35"; "37"; "38";
   "41"; "42"; "43"; "44"; "45"; "46";
   "47"; "48"; "49";
   "51"; "53"; "54"; "55";
   "61";
   "62"; "64";
   "65"; "66";
   "67";
   "68";
   "69";
   "71"; "73"; "74"; "75"; "77";
   "79";
   "81"; "87";
   "82";
   "83";
   "84";
   "85"; "88";
   "86"; "89";
   "91"; "93"; "94";
   "92"; "97";
   "95";
   "96";
   "98"; "99"].

Definition isValidBrazilianPhone (phone : string) : bool :=
  let cleaned := formatPhone phone in
  (* /^\d{10,11}$/ *)
  if negb (allDigits cleaned && (10 <=? String.length cleaned)%nat
           && (String.length cleaned <=? 11)%nat)
  then false
  else if (String.length cleaned =? 11)%nat
          && negb (bool_decide (String.get 2 cleaned = Some "9"%char))
  then false
  else
    let areaCode := String.substring 0 2 cleaned in
    bool_decide (areaCode ∈ validAreaCodes).

End Helpers.

(* ===================================================================== *)
(** * campaignService.js, createCampaign *)
(* ===================================================================== *)

Module CampaignIntake.
Import Store Runtime Helpers.

(** [prisma.campaign.create({ data })] with the counters at zero. *)
Definition campaign_create (companyId : nat) (content : string)
    (recipients : list Recipient) (st : CampaignStatus) (d : DB)
  : Campaign * DB :=
  let row := {| camp_id := nextId d; camp_companyId := companyId;
                camp_content := content; camp_recipients := recipients;
                camp_status := st;
                camp_results := {| res_sent := 0; res_delivered := 0;
                                   res_failed := 0; res_errors := [] |} |} in
  (row, bump (with_campaigns (campaigns d ++ [row]) d)).

(** The loop "Validar e formatar telefones": [validRecipients] and
    [invalidPhones], each in the order of [recipients]. *)
Fixpoint validate (recipients : list Recipient)
  : list Recipient * list string :=
  match recipients with
  | [] => ([], [])
  | recipient :: rest =>
      let (validRecipients, invalidPhones) := validate rest in
      let formattedPhone := formatPhone (rcp_phone recipient) in
      if isValidBrazilianPhone formattedPhone
      then ({| rcp_phone := formattedPhone |} :: validRecipients, invalidPhones)
      else (validRecipients, rcp_phone recipient :: invalidPhones)
  end.

(** [startCampaign] is the method the service calls for a campaign that is
    not scheduled; it is passed in, and the statements about [createCampaign]
    hold whatever it does. *)
Definition createCampaign (startCampaign : nat -> M string)
    (companyId : nat) (content : string) (recipients : list Recipient)
    (scheduledAt : option string) : M Campaign :=
  let scheduled :=
    match scheduledAt with
    | Some s => Presence.truthy s
    | None => false
    end in
  tryCatch
    (let (validRecipients, invalidPhones) := validate recipients in
     if (0 <? length invalidPhones)%nat
     then throw (Rejected ("Telefones inválidos encontrados: "
                           +:+ String.concat ", " invalidPhones))
     else
       (* Criar campanha no banco *)
       let! campaign :=
         mutate (campaign_create companyId content validRecipients
                   (if scheduled then SCHEDULED else DRAFT)) in
       (* Se não foi agendada, iniciar envio imediatamente *)
       (if scheduled then ret tt
        else startCampaign (camp_id campaign) >> ret tt) >>
       ret campaign)
    (fun error => logger "Error creating campaign:" >> throw error).

End CampaignIntake.

(* ===================================================================== *)
(** * omnichannelService.js, determinePreferredChannel *)
(* ===================================================================== *)

Module Channels.
Import Store.

(** A conversation row with [metadata?.lastChannel]. *)
Record UnifiedConversation := {
  unified :> Conversation;
  lastChannel : option string
}.

Definition priority : list string :=
  ["WHATSAPP"; "TELEGRAM"; "INSTAGRAM"; "FACEBOOK"; "SMS"; "EMAIL"; "WEBCHAT"].

(** [conversation.metadata?.channels || [conversation.channel]]: an array,
    also an empty one, is truthy. *)
Definition channelsOf (conversation : UnifiedConversation) : list string :=
  default [conv_channel conversation] (conv_channels conversation).

Definition determinePreferredChannel (conversation : UnifiedConversation)
  : string :=
  let channels := channelsOf conversation in
  let byPriority :=
    (* Ordem de prioridade padrão *)
    match List.find (fun channel => bool_decide (channel ∈ channels)) priority with
    | Some channel => channel
    | None =>
        (* channels[0] || 'WHATSAPP' *)
        match channels with
        | first :: _ => if Presence.truthy first then first else "WHATSAPP"
        | [] => "WHATSAPP"
        end
    end in
  (* Preferir o último canal usado *)
  match lastChannel conversation with
  | Some last =>
      if Presence.truthy last && bool_decide (last ∈ channels)
      then last else byPriority
  | None => byPriority
  end.

End Channels.

(* ===================================================================== *)
(** * The receiver of [processIncomingMessage] *)
(* ===================================================================== *)

Module Invocation.
Import Store Runtime MessageProcessor.

(** messageProcessor.js exports one object, [new MessageProcessor()].  A
    call [messageProcessor.processIncomingMessage(...)] runs the method with
    [this] bound to that instance.  whatsapp.js takes the method off the
    instance ([const { processIncomingMessage } = require('./messageProcessor')])
    and calls it bare in [handleIncomingMessage]: a class body is strict
    code, so [this] is [undefined] in that call. *)
Inductive Receiver := instance | undefined.

(** An access through [this]: a TypeError when [this] is [undefined]. *)
Definition through {A} (this : Receiver) (m : M A) : M A :=
  match this with
  | instance => m
  | undefined => throw TypeError
  end.

(** [this.processingQueue.has(conversation.id)] *)
Definition has (conversationId : nat) : M bool :=
  fun w => (Ok (bool_decide (is_Some (processingQueue w !! conversationId))), w).

(** The method of messageProcessor.js with its receiver. *)
Definition processIncomingMessageOn (this : Receiver) (message : Message)
    (conversation : ConversationObj) (whatsappAccount : nat) : M unit :=
  tryFinally
    (tryCatch
       (let! inFlight := through this (has (conv_id conversation)) in
        if inFlight : bool
        then ret tt
        else
          through this (lock (conv_id conversation)) >>
          let! shouldUseBot :=
            through this (shouldUseChatbot conversation message) in
          if shouldUseBot : bool
          then through this (processChatbotResponse message conversation
                                                    whatsappAccount)
          else through this (assignToAgent conversation))
       (fun _ => logger "Error processing message:"))
    (through this (unlock (conv_id conversation))).

End Invocation.

(* ===================================================================== *)
(** * Inbound handlers that overlap *)
(* ===================================================================== *)

Module Overlap.
Import Store Runtime Inbound.

(** A handler that awaits a store call is suspended until the answer is
    back, and the other handlers of the process run meanwhile: the source
    opens no transaction around [findFirst] and [create].  [others] is what
    they do between the answer of [findFirst] and the next call of this
    handler; their exceptions are their own. *)
Definition suspended (others : M unit) : M unit :=
  fun w => (Ok tt, snd (others w)).

(** whatsapp.js, [handleIncomingMessage], "Buscar conversa ativa ou criar
    nova". *)
Definition findOrCreateConversation (others : M unit)
    (contactId companyId : nat) : M Conversation :=
  let! conversation := query (conversation_findFirst contactId companyId) in
  suspended others >>
  match conversation with
  | Some c => ret c
  | None => mutate (conversation_create contactId companyId OPEN
                                        "WHATSAPP" None)
  end.

(** omnichannelService.js, [findOrCreateUnifiedConversation]. *)
Definition findOrCreateUnifiedConversation (others : M unit)
    (contactId : nat) (channel : string) (companyId : nat) : M Conversation :=
  tryCatch
    (let! conversation := query (conversation_findFirst contactId companyId) in
     suspended others >>
     match conversation with
     | None =>
         mutate (conversation_create contactId companyId OPEN channel
                                     (Some [channel]))
     | Some c =>
         let channels := default [] (conv_channels c) in
         if bool_decide (channel ∈ channels)
         then ret c
         else
           let channels' := (channels ++ [channel])%list in
           update (conversation_update (conv_id c) (set_channels channels')) >>
           ret (match conv_channels c with
                | Some _ => set_channels channels' c
                | None => c
                end)
     end)
    (fun e => logger "Error finding/creating unified conversation:" >>
              throw e).

Definition findOrCreate (e : Arrival) (others : M unit)
    (contactId companyId : nat) : M Conversation :=
  match e with
  | ViaWhatsApp => findOrCreateConversation others contactId companyId
  | ViaOmnichannel channel =>
      findOrCreateUnifiedConversation others contactId channel companyId
  end.

(** The whole run of another handler for the same pair, as what happens
    meanwhile. *)
Definition meanwhile (e : Arrival) (contactId companyId : nat) : M unit :=
  Inbound.findOrCreate e contactId companyId >> ret tt.

End Overlap.

(* ===================================================================== *)
(** * Further concrete situations *)
(* ===================================================================== *)

Module Cases.
Import Store Runtime MessageProcessor Scenario.

(** The company with a chatbot whose completion offers a transfer. *)
Definition escalating : World :=
  {| db := deskWithBot; storeFaults := []; channelFaults := [];
     completion := fun _ _ => Some "Vou transferir você para um atendente.";
     now := {| weekday := "terça-feira"; hour := 10 |};
     io := true; emitted := []; logs := []; outbox := [];
     processingQueue := ∅; runningCampaigns := ∅ |}.

(** The conversation as the WhatsApp handler loads it: with its agents,
    without its contact. *)
Definition threadWithoutContact : ConversationObj :=
  {| conv := conversation 20 OPEN; conv_contact := None |}.

(** The company with a chatbot while the channel rejects the next send. *)
Definition channelDown : World := set_channelFaults [true] (world deskWithBot).

(** A manager of another company. *)
Definition outsider : User :=
  {| user_id := 9; user_companyId := 2; user_isOnline := true;
     user_role := MANAGER; user_status := ACTIVE |}.

(** Contact 7 came back: conversation 19 was closed, conversation 20 is
    open. *)
Definition returning : DB :=
  {| users := [user 1 AGENT]; companies := [1]; chatbots := [];
     contacts := [{| contact_id := 7; contact_phone := "5511999990007" |}];
     conversations := [conversation 19 CLOSED; conversation 20 OPEN];
     conversationAgents := []; messages := []; campaigns := [];
     nextId := 100 |}.

Definition unifiedThread : Channels.UnifiedConversation :=
  {| Channels.unified := conversation 20 OPEN; Channels.lastChannel := None |}.

(** Recipients as an operator types them. *)
Definition mailing : list Recipient :=
  [{| rcp_phone := "+55 (11) 91234-5678" |};
   {| rcp_phone := "(21) 3333-4444" |}].

Definition mailingWithTypo : list Recipient :=
  [{| rcp_phone := "+55 (11) 91234-5678" |}; {| rcp_phone := "1234-567" |}].

(** Two agents online; nobody has conversation 20 yet. *)
Definition pairDesk : DB :=
  {| users := [user 1 AGENT; user 2 AGENT]; companies := [1]; chatbots := [];
     contacts := [{| contact_id := 7; contact_phone := "5511999990007" |}];
     conversations := [conversation 20 OPEN];
     conversationAgents := []; messages := []; campaigns := [];
     nextId := 100 |}.

(** The same two agents; agent 1 holds conversation 20. *)
Definition takenDesk : DB :=
  {| users := [user 1 AGENT; user 2 AGENT]; companies := [1]; chatbots := [];
     contacts := [{| contact_id := 7; contact_phone := "5511999990007" |}];
     conversations := [conversation 20 OPEN];
     conversationAgents := [assignment 50 1 20]; messages := [];
     campaigns := []; nextId := 100 |}.

(** The store rejects the fourth call, the third call. *)
Definition fourthCallFails : World :=
  set_storeFaults [false; false; false; true] (world takenDesk).

Definition thirdCallFails : World :=
  set_storeFaults [false; false; true] (world desk).



Definition neverStarts : nat -> M string := fun _ => throw TypeError.

End Cases.

(* ===================================================================== *)
(** * The handler monad on a store that answers *)
(* ===================================================================== *)

Section HealthyStore.
Import Store Runtime.

Lemma query_healthy {A} (q : DB -> A) (w : World) :
  healthy w -> query q w = (Ok (q (db w)), w).
Proof.
  unfold healthy, query. destruct w; simpl. intros ->. reflexivity.
Qed.

Lemma mutate_healthy {A} (q : DB -> A * DB) (w : World) :
  healthy w ->
  mutate q w = (Ok (fst (q (db w))), set_db (snd (q (db w))) w).
Proof.
  unfold healthy, mutate. destruct w; simpl. intros ->. simpl.
  destruct (q db0); reflexivity.
Qed.

Lemma update_healthy (q : DB -> Res unit * DB) (w : World) :
  healthy w ->
  update q w = (fst (q (db w)), set_db (snd (q (db w))) w).
Proof.
  unfold healthy, update. destruct w; simpl. intros ->. simpl.
  destruct (q db0); reflexivity.
Qed.

End HealthyStore.

(* ===================================================================== *)
(** * Presence: several connections of one agent *)
(* ===================================================================== *)

Section PresenceFacts.
Import Presence.

Lemma addUser_userSockets (userId socketId : string) (p : PresenceManager) :
  userSockets (addUser userId socketId p) !! userId
  = Some (default ∅ (userSockets p !! userId) ∪ {[socketId]}).
Proof.
  unfold addUser; simpl.
  destruct (userSockets p !! userId) as [s|] eqn:E; simpl.
  - rewrite lookup_alter_eq, E. reflexivity.
  - rewrite lookup_alter_eq, lookup_insert_eq. reflexivity.
Qed.

Lemma addUser_socketUsers (userId socketId : string) (p : PresenceManager) :
  socketUsers (addUser userId socketId p) = <[socketId := userId]> (socketUsers p).
Proof. reflexivity. Qed.

Lemma removeUser_known (userId socketId : string) (sockets : gset string)
    (p : PresenceManager) :
  socketUsers p !! socketId = Some userId ->
  truthy userId = true ->
  userSockets p !! userId = Some sockets ->
  fst (removeUser socketId p) = Some userId
  /\ userSockets (snd (removeUser socketId p)) !! userId
     = (if decide (size (sockets ∖ {[socketId]}) = 0) then None
        else Some (sockets ∖ {[socketId]}))
  /\ socketUsers (snd (removeUser socketId p)) = delete socketId (socketUsers p).
Proof.
  intros Hs Ht Hu. unfold removeUser. rewrite Hs, Ht, Hu. simpl.
  split; [reflexivity|]. split; [|reflexivity].
  destruct (decide (size (sockets ∖ {[socketId]}) = 0)).
  - apply lookup_delete_eq.
  - apply lookup_insert_eq.
Qed.

Lemma offline_sockets (userId : string) (p : PresenceManager) :
  isUserOnline userId p = false ->
  default ∅ (userSockets p !! userId) = ∅.
Proof.
  unfold isUserOnline. destruct (userSockets p !! userId) as [s|]; simpl.
  - intros H. apply bool_decide_eq_false in H.
    apply leibniz_equiv, size_empty_inv. lia.
  - reflexivity.
Qed.

(** C9.  An agent that was offline and opens two distinct connections is
    online after the second connect, still online after the first
    connection closes, and offline only once the second one closes too. *)
Theorem presence_two_connections (agentA conn1 conn2 : string)
    (p : PresenceManager) :
  truthy agentA = true ->
  conn1 <> conn2 ->
  isUserOnline agentA p = false ->
  let p2 := addUser agentA conn2 (addUser agentA conn1 p) in
  let p3 := snd (removeUser conn1 p2) in
  let p4 := snd (removeUser conn2 p3) in
  isUserOnline agentA (addUser agentA conn1 p) = true
  /\ isUserOnline agentA p2 = true
  /\ fst (removeUser conn1 p2) = Some agentA
  /\ isUserOnline agentA p3 = true
  /\ fst (removeUser conn2 p3) = Some agentA
  /\ isUserOnline agentA p4 = false.
Proof.
  intros Ht Hne Hoff p2 p3 p4.
  pose proof (offline_sockets _ _ Hoff) as H0.
  pose proof (addUser_userSockets agentA conn1 p) as H1. rewrite H0 in H1.
  assert (H2 : userSockets p2 !! agentA = Some (∅ ∪ {[conn1]} ∪ {[conn2]})).
  { unfold p2. rewrite addUser_userSockets, H1. reflexivity. }
  assert (Hs1 : socketUsers p2 !! conn1 = Some agentA).
  { unfold p2. rewrite !addUser_socketUsers.
    rewrite lookup_insert_ne by congruence. apply lookup_insert_eq. }
  destruct (removeUser_known _ _ _ _ Hs1 Ht H2) as (Hr1 & Hu3 & Hs3).
  fold p3 in Hu3, Hs3.
  assert (Es : (∅ ∪ {[conn1]} ∪ {[conn2]}) ∖ {[conn1]} = ({[conn2]} : gset string))
    by set_solver.
  rewrite Es, size_singleton in Hu3. cbn [decide] in Hu3.
  destruct (decide (1 = 0)) as [?|_]; [lia|].
  assert (Hs2 : socketUsers p3 !! conn2 = Some agentA).
  { rewrite Hs3, lookup_delete_ne by congruence.
    unfold p2. rewrite addUser_socketUsers. apply lookup_insert_eq. }
  destruct (removeUser_known _ _ _ _ Hs2 Ht Hu3) as (Hr2 & Hu4 & _).
  fold p4 in Hu4.
  assert (Es' : ({[conn2]} : gset string) ∖ {[conn2]} = ∅) by set_solver.
  rewrite Es', size_empty in Hu4.
  destruct (decide (0 = 0)) as [_|?]; [|lia].
  repeat split.
  - unfold isUserOnline. rewrite H1. apply bool_decide_eq_true.
    rewrite (left_id_L ∅ (∪)), size_singleton. lia.
  - unfold isUserOnline. rewrite H2. apply bool_decide_eq_true.
    rewrite size_union by set_solver. rewrite size_singleton. lia.
  - exact Hr1.
  - unfold isUserOnline. rewrite Hu3. apply bool_decide_eq_true.
    rewrite size_singleton. lia.
  - exact Hr2.
  - unfold isUserOnline. rewrite Hu4. reflexivity.
Qed.

End PresenceFacts.

Lemma presence_two_connections_witness :
  let p := Presence.empty in
  let p2 := Presence.addUser "agentA" "conn2" (Presence.addUser "agentA" "conn1" p) in
  let p3 := snd (Presence.removeUser "conn1" p2) in
  let p4 := snd (Presence.removeUser "conn2" p3) in
  Presence.isUserOnline "agentA" (Presence.addUser "agentA" "conn1" p) = true
  /\ Presence.isUserOnline "agentA" p2 = true
  /\ fst (Presence.removeUser "conn1" p2) = Some "agentA"
  /\ Presence.isUserOnline "agentA" p3 = true
  /\ fst (Presence.removeUser "conn2" p3) = Some "agentA"
  /\ Presence.isUserOnline "agentA" p4 = false.
Proof.
  apply (presence_two_connections "agentA" "conn1" "conn2" Presence.empty).
  - reflexivity.
  - discriminate.
  - reflexivity.
Defined.


(* ===================================================================== *)
(** * The routing decision *)
(* ===================================================================== *)

Section RoutingDecision.
Import Store Runtime MessageProcessor.










End RoutingDecision.

(* ===================================================================== *)
(** * Routing when the store rejects, and re-entrant routing *)
(* ===================================================================== *)

Section RoutingFailures.
Import Store Runtime MessageProcessor.

Lemma shouldUseChatbot_lookup_fails (conversation : ConversationObj)
    (message : Message) (rest : list bool) (w : World) :
  shouldUseChatbot conversation message (set_storeFaults (true :: rest) w)
  = (Ok false,
     set_logs (logs w ++ ["Error checking chatbot conditions:"])
              (set_storeFaults rest w)).
Proof. reflexivity. Qed.

Lemma assignToAgent_lookup_fails (conversation : ConversationObj)
    (rest : list bool) (w : World) :
  assignToAgent conversation (set_storeFaults (true :: rest) w)
  = (Ok tt,
     set_logs (logs w ++ ["Error assigning to agent:"])
              (set_storeFaults rest w)).
Proof. reflexivity. Qed.


(** The method on the instance, with both lookups rejected: two lines are
    logged, the entry of [processingQueue] is set and removed, and neither
    the store nor any audience learns of the message. *)
Lemma routing_with_store_down (message : Message)
    (conversation : ConversationObj) (whatsappAccount : nat)
    (rest : list bool) (w : World) :
  processingQueue w !! conv_id conversation = None ->
  processIncomingMessage message conversation whatsappAccount
                         (set_storeFaults (true :: true :: rest) w)
  = (Ok tt,
     set_processingQueue
       (delete (conv_id conversation)
               (<[conv_id conversation := true]> (processingQueue w)))
       (set_logs (logs w ++ ["Error checking chatbot conditions:";
                             "Error assigning to agent:"])
                 (set_storeFaults rest w))).
Proof.
  intros Hq. unfold processIncomingMessage, tryFinally, tryCatch at 1.
  cbn [processingQueue set_storeFaults]. rewrite Hq.
  rewrite (bool_decide_eq_false_2 (is_Some None)) by (intros [? ?]; discriminate).
  unfold bind at 1. unfold lock at 1. unfold bind at 1.
  match goal with
  | |- context [shouldUseChatbot conversation message ?w0] =>
      change w0 with (set_storeFaults (true :: true :: rest)
                        (set_processingQueue
                           (<[conv_id conversation := true]> (processingQueue w))
                           w))
  end.
  rewrite (shouldUseChatbot_lookup_fails conversation message (true :: rest)).
  cbv beta iota.
  match goal with
  | |- context [assignToAgent conversation ?w0] =>
      change w0 with (set_storeFaults (true :: rest)
                        (set_logs (logs w ++ ["Error checking chatbot conditions:"])
                           (set_processingQueue
                              (<[conv_id conversation := true]>
                                 (processingQueue w)) w)))
  end.
  rewrite (assignToAgent_lookup_fails conversation rest).
  unfold unlock. cbn. rewrite <- app_assoc. reflexivity.
Qed.

(** The method on the instance, for a conversation whose id is in
    [processingQueue]: the call returns at once, asks the store nothing,
    changes no row, hands nothing to the channel, emits nothing and logs
    nothing. *)
Lemma in_flight_message_is_dropped (message : Message)
    (conversation : ConversationObj) (whatsappAccount : nat) (w : World) :
  is_Some (processingQueue w !! conv_id conversation) ->
  fst (processIncomingMessage message conversation whatsappAccount w) = Ok tt
  /\ let w' := snd (processIncomingMessage message conversation
                                            whatsappAccount w) in
     db w' = db w /\ storeFaults w' = storeFaults w
     /\ channelFaults w' = channelFaults w /\ outbox w' = outbox w
     /\ emitted w' = emitted w /\ logs w' = logs w.
Proof.
  intros Hin. unfold processIncomingMessage, tryFinally, tryCatch.
  rewrite (bool_decide_eq_true_2 _ Hin). simpl. repeat split.
Qed.

(** With the instance as receiver, the method is the one of the class. *)
Lemma processIncomingMessageOn_instance (message : Message)
    (conversation : ConversationObj) (whatsappAccount : nat) (w : World) :
  Invocation.processIncomingMessageOn Invocation.instance message conversation
                                      whatsappAccount w
  = processIncomingMessage message conversation whatsappAccount w.
Proof.
  unfold Invocation.processIncomingMessageOn, processIncomingMessage,
    Invocation.through, Invocation.has, tryFinally, tryCatch.
  unfold bind at 1.
  destruct (bool_decide (is_Some (processingQueue w !! conv_id conversation)));
    reflexivity.
Qed.

(** Without receiver, the first access to [this.processingQueue] throws
    inside [try], the handler logs, and [finally] throws again. *)
Lemma processIncomingMessageOn_undefined (message : Message)
    (conversation : ConversationObj) (whatsappAccount : nat) (w : World) :
  Invocation.processIncomingMessageOn Invocation.undefined message conversation
                                      whatsappAccount w
  = (Throw TypeError, set_logs (logs w ++ ["Error processing message:"]) w).
Proof. reflexivity. Qed.

End RoutingFailures.

(* ===================================================================== *)
(** * Choosing the agent *)
(* ===================================================================== *)

Section LeastLoaded.
Import Store Runtime MessageProcessor.

(** The callback of the [reduce] in [findAvailableAgent]. *)
Local Abbreviation fewer :=
  (fun prev current : Agent =>
     if (length (agents prev) <? length (agents current))%nat
     then prev else current).

Lemma fold_fewer_split (l : list Agent) (x a : Agent) :
  fold_left fewer l x = a ->
  exists pre post,
    x :: l = pre ++ a :: post
    /\ (forall b, b ∈ pre -> length (agents a) <= length (agents b))
    /\ (forall b, b ∈ post -> length (agents a) < length (agents b)).
Proof.
  revert x. induction l as [|y l IH]; intros x Hf; simpl in Hf.
  - subst a. exists [], []. repeat split; intros b Hb; inversion Hb.
  - destruct (length (agents x) <? length (agents y))%nat eqn:Hlt.
    + apply Nat.ltb_lt in Hlt.
      destruct (IH x Hf) as (pre & post & Hsplit & Hpre & Hpost).
      destruct pre as [|x' pre]; simpl in Hsplit.
      * injection Hsplit as -> ->. exists [], (y :: post).
        repeat split; [intros b Hb; inversion Hb|].
        intros b Hb. apply elem_of_cons in Hb as [->|Hb]; auto.
      * injection Hsplit as <- ->. exists (x :: y :: pre), post.
        repeat split; [|exact Hpost].
        intros b Hb. apply elem_of_cons in Hb as [->|Hb].
        { apply Hpre. left. }
        apply elem_of_cons in Hb as [->|Hb].
        { specialize (Hpre x ltac:(left)). lia. }
        apply Hpre. right. exact Hb.
    + apply Nat.ltb_ge in Hlt.
      destruct (IH y Hf) as (pre & post & Hsplit & Hpre & Hpost).
      exists (x :: pre), post. rewrite Hsplit. repeat split; [|exact Hpost].
      intros b Hb. apply elem_of_cons in Hb as [->|Hb]; [|auto].
      destruct pre as [|y' pre]; simpl in Hsplit.
      * injection Hsplit as -> _. exact Hlt.
      * injection Hsplit as <- _. specialize (Hpre y ltac:(left)). lia.
Qed.

Lemma available_agent_eligible (companyId : nat) (d : DB) (a : Agent) :
  a ∈ user_findMany_available companyId d ->
  agent_user a ∈ users d
  /\ user_companyId a = companyId /\ user_isOnline a = true
  /\ user_status a = ACTIVE
  /\ (user_role a = AGENT \/ user_role a = MANAGER)
  /\ length (agents a)
     = length (filter (fun r => ca_userId r = user_id a /\ ca_isActive r = true)
                      (conversationAgents d)).
Proof.
  unfold user_findMany_available, user_findMany_online.
  intros Ha. apply list_elem_of_fmap in Ha as (u & -> & Hu).
  apply list_elem_of_filter in Hu as [(Hc & Ho & Hr & Hs) Hu].
  simpl. rewrite length_map.
  repeat split; try assumption.
  set_solver.
Qed.

Lemma live_assignment_loaded (d : DB) (r : ConversationAgent) :
  assignmentsLive d = true ->
  r ∈ conversationAgents d -> ca_isActive r = true ->
  is_Some (asg_conversation (loadAssignment d r)).
Proof.
  unfold assignmentsLive. intros Hlive Hr Hact.
  rewrite forallb_forall in Hlive.
  specialize (Hlive r (proj1 (list_elem_of_In _ _) Hr)).
  rewrite Hact in Hlive. simpl in Hlive.
  apply existsb_exists in Hlive as (c & Hc & Hp).
  unfold loadAssignment. simpl.
  destruct (find _ (conversations d)) as [c'|] eqn:Hfind; [eexists; reflexivity|].
  pose proof (find_none _ _ Hfind c Hc) as Hn. simpl in Hn.
  rewrite Hn in Hp. discriminate.
Qed.

Lemma filter_all {A} (Q : A -> Prop) `{forall x, Decision (Q x)}
    (l : list A) :
  Forall Q l -> filter Q l = l.
Proof.
  induction 1 as [|x l Hx Hl IH]; [reflexivity|].
  rewrite filter_cons. destruct (decide (Q x)); [|contradiction].
  rewrite IH. reflexivity.
Qed.

Lemma openLoad_is_load (companyId : nat) (d : DB) (a : Agent) :
  assignmentsLive d = true ->
  a ∈ user_findMany_available companyId d ->
  openLoad a = length (agents a).
Proof.
  unfold user_findMany_available. intros Hlive Ha.
  apply list_elem_of_fmap in Ha as (u & -> & _).
  unfold openLoad, loadAgent. simpl. f_equal.
  apply filter_all, Forall_forall. intros x Hx.
  apply list_elem_of_fmap in Hx as (r & -> & Hr).
  apply list_elem_of_filter in Hr as [[_ Hact] Hr].
  exact (live_assignment_loaded d r Hlive Hr Hact).
Qed.

(** C5 (amended).  On a store that answers, [findAvailableAgent] answers
    nobody when no online ACTIVE user of the company has role AGENT or
    MANAGER; otherwise it answers one of them whose number of active
    assignments is the least, and among those tied for the least the one
    that comes last in the answer of the query.  While every active
    assignment belongs to an OPEN or PENDING conversation, that number is
    the number of the agent's OPEN or PENDING conversations. *)
Theorem findAvailableAgent_least_loaded (companyId : nat) (w : World) :
  healthy w ->
  let found := user_findMany_available companyId (db w) in
  match fst (findAvailableAgent companyId w) with
  | Ok None => found = []
  | Ok (Some a) =>
      (exists pre post,
          found = pre ++ a :: post
          /\ (forall b, b ∈ pre -> length (agents a) <= length (agents b))
          /\ (forall b, b ∈ post -> length (agents a) < length (agents b)))
      /\ agent_user a ∈ users (db w)
      /\ user_companyId a = companyId /\ user_isOnline a = true
      /\ user_status a = ACTIVE
      /\ (user_role a = AGENT \/ user_role a = MANAGER)
      /\ length (agents a)
         = length (filter (fun r => ca_userId r = user_id a
                                    /\ ca_isActive r = true)
                          (conversationAgents (db w)))
      /\ (assignmentsLive (db w) = true ->
          forall b, b ∈ found -> length (agents b) = openLoad b)
  | Throw _ => False
  end.
Proof.
  intros Hh found. unfold findAvailableAgent, bind.
  rewrite (query_healthy _ w Hh). fold found.
  destruct found as [|x l] eqn:Hfound; [reflexivity|].
  simpl.
  destruct (fold_fewer_split l x _ eq_refl) as (pre & post & Hs & Hpre & Hpost).
  split; [exists pre, post; auto|].
  assert (Hin : fold_left fewer l x ∈ user_findMany_available companyId (db w)).
  { fold found. rewrite Hfound, Hs. apply elem_of_app. right. left. }
  destruct (available_agent_eligible companyId (db w) _ Hin)
    as (H1 & H2 & H3 & H4 & H5 & H6).
  repeat (split; [assumption|]).
  intros Hlive b Hb. symmetry.
  apply (openLoad_is_load companyId (db w) b Hlive).
  fold found. rewrite Hfound. exact Hb.
Qed.

End LeastLoaded.

(* ===================================================================== *)
(** * Escalation by keyword *)
(* ===================================================================== *)

Section Escalation.
Import Store Runtime MessageProcessor.

Lemma tryCatch_ok {A} (m : M A) (h : Err -> M A) (w : World) (a : A) :
  fst (m w) = Ok a -> tryCatch m h w = m w.
Proof.
  unfold tryCatch. destruct (m w) as [[a'|e] w']; simpl; [reflexivity|].
  discriminate.
Qed.

Lemma assignToAgent_returns (conversation : ConversationObj) (w : World) :
  fst (assignToAgent conversation w) = Ok tt.
Proof.
  unfold assignToAgent, tryCatch.
  destruct (bind _ _ w) as [[[]|e] w']; reflexivity.
Qed.

Lemma status_after_update (id : nat) (st : ConversationStatus)
    (l : list Conversation) (r : Conversation) :
  r ∈ map (fun c => if bool_decide (conv_id c = id) then set_status st c else c)
          l ->
  conv_id r = id -> conv_status r = st.
Proof.
  intros Hr Hid. apply list_elem_of_fmap in Hr as (c & -> & _).
  case_bool_decide as Hc; [reflexivity|]. contradiction.
Qed.

Lemma findAvailableAgent_healthy (companyId : nat) (w : World) :
  healthy w ->
  findAvailableAgent companyId w
  = (Ok (JS.reduce
           (fun prev current : Agent =>
              if (length (agents prev) <? length (agents current))%nat
              then prev else current)
           (user_findMany_available companyId (db w))), w).
Proof.
  intros Hh. unfold findAvailableAgent, bind. rewrite (query_healthy _ w Hh).
  destruct (user_findMany_available companyId (db w)); reflexivity.
Qed.






End Escalation.


(* ===================================================================== *)
(** * Find or create *)
(* ===================================================================== *)

Section FindOrCreate.
Import Store Runtime Inbound.

Lemma active_iff (st : ConversationStatus) :
  active st = true <-> st = OPEN \/ st = PENDING.
Proof.
  unfold active. rewrite bool_decide_eq_true, !elem_of_cons, elem_of_nil.
  tauto.
Qed.

Lemma findFirst_head (contactId companyId : nat) (d : DB) :
  conversation_findFirst contactId companyId d
  = head (activeFor d contactId companyId).
Proof.
  unfold conversation_findFirst, activeFor.
  induction (conversations d) as [|c l IH]; [reflexivity|].
  simpl find. rewrite filter_cons.
  destruct (decide _) as [Hp|Hn].
  - destruct Hp as (H1 & H2 & H3).
    rewrite bool_decide_eq_true_2 by tauto.
    rewrite (proj2 (active_iff _) H3). reflexivity.
  - rewrite IH.
    destruct (bool_decide _ && active _) eqn:E; [|reflexivity].
    apply andb_true_iff in E as [E1 E2].
    apply bool_decide_eq_true in E1. apply active_iff in E2. tauto.
Qed.

Lemma activeFor_create (contactId companyId : nat) (channel : string)
    (channels : option (list string)) (d : DB) :
  activeFor (snd (conversation_create contactId companyId OPEN channel
                                      channels d))
            contactId companyId
  = activeFor d contactId companyId
    ++ [fst (conversation_create contactId companyId OPEN channel channels d)].
Proof.
  unfold activeFor, conversation_create. simpl.
  rewrite filter_app. f_equal.
  rewrite filter_cons, filter_nil.
  destruct (decide _) as [_|Hn]; [reflexivity|].
  exfalso. apply Hn. simpl. tauto.
Qed.

Lemma activeFor_set_channels (contactId companyId id : nat)
    (chs : list string) (d : DB) :
  map conv_id
      (activeFor (snd (conversation_update id (set_channels chs) d))
                 contactId companyId)
  = map conv_id (activeFor d contactId companyId).
Proof.
  unfold conversation_update.
  destruct (hasConversation id d); [|reflexivity].
  unfold activeFor. simpl.
  induction (conversations d) as [|c l IH]; [reflexivity|].
  simpl map. rewrite !filter_cons.
  case_bool_decide; simpl in *;
    destruct (decide _) as [Hp|Hn]; simpl; rewrite ?IH; reflexivity.
Qed.

Variables contactId companyId : nat.

Local Abbreviation ids w := (map conv_id (activeFor (db w) contactId companyId)).

Local Abbreviation stepOK := (Inbound.stepOK contactId companyId).

Lemma stepOK_same_db (w w' : World) (e : Err) :
  singleActive (db w) contactId companyId ->
  db w' = db w -> stepOK w (Throw e) w'.
Proof.
  intros Hs Hdb. unfold Inbound.stepOK. rewrite Hdb.
  split; [exact Hs|]. split; [discriminate | auto].
Qed.

Lemma stepOK_found (w w' : World) (c : Conversation) (tl : list Conversation) :
  singleActive (db w) contactId companyId ->
  activeFor (db w) contactId companyId = c :: tl ->
  db w' = db w -> stepOK w (Ok c) w'.
Proof.
  intros Hs Hact Hdb. unfold Inbound.stepOK. rewrite Hdb.
  split; [exact Hs|].
  unfold singleActive in Hs. rewrite Hact in *. simpl in Hs.
  destruct tl; [|simpl in Hs; lia].
  split; [|auto]. intros c' [= <-]. reflexivity.
Qed.

Lemma stepOK_created (w w' : World) (channel : string)
    (channels : option (list string)) :
  activeFor (db w) contactId companyId = [] ->
  db w' = snd (conversation_create contactId companyId OPEN channel channels
                                   (db w)) ->
  stepOK w (Ok (fst (conversation_create contactId companyId OPEN channel
                                         channels (db w)))) w'.
Proof.
  intros Hact Hdb. unfold Inbound.stepOK, singleActive.
  rewrite Hdb, activeFor_create, Hact. simpl.
  split; [lia|]. split; [|discriminate]. intros c [= <-]. reflexivity.
Qed.

Lemma whatsapp_step (w w' : World) (r : Res Conversation) :
  singleActive (db w) contactId companyId ->
  WhatsApp.findOrCreateConversation contactId companyId w = (r, w') ->
  stepOK w r w'.
Proof.
  intros Hs. unfold WhatsApp.findOrCreateConversation, bind, query.
  destruct (nextFault (storeFaults w)) as [[|] rest].
  { intros [= <- <-]. apply stepOK_same_db; auto. }
  rewrite findFirst_head.
  destruct (activeFor (db w) contactId companyId) as [|c tl] eqn:Hact; simpl.
  - unfold mutate. simpl storeFaults.
    destruct (nextFault rest) as [[|] rest'].
    { intros [= <- <-]. apply stepOK_same_db; auto. }
    simpl db.
    destruct (conversation_create contactId companyId OPEN "WHATSAPP" None
                                  (db w)) as [row d'] eqn:Hcr.
    intros [= <- <-].
    change row with (fst (row, d')). rewrite <- Hcr.
    apply stepOK_created; [exact Hact|]. rewrite Hcr. reflexivity.
  - unfold ret. intros [= <- <-]. eapply stepOK_found; eauto.
Qed.

Lemma omnichannel_step (channel : string) (w w' : World)
    (r : Res Conversation) :
  singleActive (db w) contactId companyId ->
  Omnichannel.findOrCreateUnifiedConversation contactId channel companyId w
  = (r, w') ->
  stepOK w r w'.
Proof.
  intros Hs.
  unfold Omnichannel.findOrCreateUnifiedConversation, tryCatch, bind, query.
  destruct (nextFault (storeFaults w)) as [[|] rest].
  { simpl. intros [= <- <-]. apply stepOK_same_db; auto. }
  rewrite findFirst_head.
  destruct (activeFor (db w) contactId companyId) as [|c tl] eqn:Hact; simpl.
  - unfold mutate. simpl storeFaults.
    destruct (nextFault rest) as [[|] rest'].
    { simpl. intros [= <- <-]. apply stepOK_same_db; auto. }
    simpl db.
    destruct (conversation_create contactId companyId OPEN channel
                                  (Some [channel]) (db w)) as [row d'] eqn:Hcr.
    intros [= <- <-].
    change row with (fst (row, d')). rewrite <- Hcr.
    apply stepOK_created; [exact Hact|]. rewrite Hcr. reflexivity.
  - case_bool_decide as Hch.
    { unfold ret. intros [= <- <-]. eapply stepOK_found; eauto. }
    unfold update. simpl storeFaults.
    destruct (nextFault rest) as [[|] rest'].
    { simpl. intros [= <- <-]. apply stepOK_same_db; auto. }
    simpl db.
    pose proof (activeFor_set_channels contactId companyId (conv_id c)
                  (default [] (conv_channels c) ++ [channel]) (db w)) as Hids.
    destruct (conversation_update (conv_id c) _ (db w)) as [[u|e] d'];
      simpl in Hids; simpl; intros [= <- <-].
    + assert (Hc : ids w = [conv_id c]).
      { unfold singleActive in Hs. rewrite Hact in *. simpl in Hs.
        destruct tl; [reflexivity | simpl in Hs; lia]. }
      unfold Inbound.stepOK, singleActive. simpl db.
      rewrite <- (length_map conv_id), Hids, Hc. simpl.
      split; [lia|]. split; [|auto].
      intros c' [= <-]. destruct (conv_channels c); reflexivity.
    + unfold Inbound.stepOK, singleActive. simpl db.
      rewrite <- (length_map conv_id), Hids, length_map.
      split; [exact Hs|]. split; [discriminate | auto].
Qed.

Lemma findOrCreate_step (e : Arrival) (w w' : World) (r : Res Conversation) :
  singleActive (db w) contactId companyId ->
  findOrCreate e contactId companyId w = (r, w') ->
  stepOK w r w'.
Proof.
  destruct e as [|channel]; simpl.
  - apply whatsapp_step.
  - apply omnichannel_step.
Qed.

Lemma trace_keeps_single (events : list Arrival) (w : World) :
  singleActive (db w) contactId companyId ->
  forall r wi, (r, wi) ∈ trace events contactId companyId w ->
               singleActive (db wi) contactId companyId.
Proof.
  revert w. induction events as [|e rest IH]; intros w Hs r wi Hin; simpl in Hin.
  - inversion Hin.
  - destruct (findOrCreate e contactId companyId w) as [r0 w0] eqn:Hrun.
    destruct (findOrCreate_step e w w0 r0 Hs Hrun) as (Hs0 & _ & _).
    apply elem_of_cons in Hin as [[= -> ->]|Hin]; [exact Hs0|].
    exact (IH w0 Hs0 r wi Hin).
Qed.

Lemma trace_answers_the_active (events : list Arrival) (w : World) (i : nat) :
  singleActive (db w) contactId companyId ->
  ids w = [i] ->
  forall c wi, (Ok c, wi) ∈ trace events contactId companyId w ->
               conv_id c = i.
Proof.
  revert w. induction events as [|e rest IH]; intros w Hs Hi c wi Hin;
    simpl in Hin.
  - inversion Hin.
  - destruct (findOrCreate e contactId companyId w) as [r0 w0] eqn:Hrun.
    destruct (findOrCreate_step e w w0 r0 Hs Hrun) as (Hs0 & Hans & Hkeep).
    specialize (Hkeep i Hi).
    apply elem_of_cons in Hin as [[= <- <-]|Hin].
    + specialize (Hans c eq_refl). rewrite Hans in Hkeep.
      injection Hkeep as ->. reflexivity.
    + exact (IH w0 Hs0 Hkeep c wi Hin).
Qed.

(** Handler runs for one (contact, company) pair, each one ended before the
    next starts and with no close in between, all answer the same
    conversation id (whenever the store lets them answer), and after each
    of them at most one conversation of the pair is OPEN or PENDING. *)
Theorem single_active_conversation (events : list Arrival) (w : World) :
  singleActive (db w) contactId companyId ->
  (forall r wi, (r, wi) ∈ trace events contactId companyId w ->
                singleActive (db wi) contactId companyId)
  /\ (forall c1 w1 c2 w2,
         (Ok c1, w1) ∈ trace events contactId companyId w ->
         (Ok c2, w2) ∈ trace events contactId companyId w ->
         conv_id c1 = conv_id c2).
Proof.
  intros Hs. split; [apply trace_keeps_single; exact Hs|].
  revert w Hs. induction events as [|e rest IH]; intros w Hs c1 w1 c2 w2 H1 H2;
    simpl in H1, H2.
  - inversion H1.
  - destruct (findOrCreate e contactId companyId w) as [r0 w0] eqn:Hrun.
    destruct (findOrCreate_step e w w0 r0 Hs Hrun) as (Hs0 & Hans & _).
    apply elem_of_cons in H1 as [[= <- <-]|H1];
      apply elem_of_cons in H2 as [E2|H2].
    + injection E2 as <- _. reflexivity.
    + symmetry.
      exact (trace_answers_the_active rest w1 _ Hs0 (Hans c1 eq_refl) c2 w2 H2).
    + injection E2 as <- <-.
      exact (trace_answers_the_active rest w2 _ Hs0 (Hans c2 eq_refl) c1 w1 H1).
    + exact (IH w0 Hs0 c1 w1 c2 w2 H1 H2).
Qed.

Lemma hasConversation_elem (c : Conversation) (d : DB) :
  c ∈ conversations d -> hasConversation (conv_id c) d = true.
Proof.
  intros Hc. unfold hasConversation. apply existsb_exists. exists c.
  split; [apply list_elem_of_In; exact Hc | apply bool_decide_eq_true_2; reflexivity].
Qed.

Lemma update_keeps_ids (id : nat) (f : Conversation -> Conversation)
    (l : list Conversation) :
  (forall c, conv_id (f c) = conv_id c) ->
  map conv_id (map (fun c => if bool_decide (conv_id c = id) then f c else c) l)
  = map conv_id l.
Proof.
  intros Hf. rewrite map_map. apply map_ext. intros c.
  case_bool_decide; [apply Hf | reflexivity].
Qed.

(** C3 (amended).  On a store that answers, find-or-create answers the
    first OPEN or PENDING conversation of the (contact, company) pair when
    there is one, and creates no row; when there is none it appends one new
    conversation of the pair, whose status is OPEN. *)
Theorem find_or_create_answer (e : Arrival) (w : World) :
  healthy w ->
  match activeFor (db w) contactId companyId with
  | c :: _ =>
      exists c' w',
        findOrCreate e contactId companyId w = (Ok c', w')
        /\ conv_id c' = conv_id c /\ conv_status c' = conv_status c
        /\ map conv_id (conversations (db w'))
           = map conv_id (conversations (db w))
  | [] =>
      exists c' w',
        findOrCreate e contactId companyId w = (Ok c', w')
        /\ conv_status c' = OPEN
        /\ conv_contactId c' = contactId /\ conv_companyId c' = companyId
        /\ conversations (db w') = conversations (db w) ++ [c']
  end.
Proof.
  intros Hh.
  destruct (activeFor (db w) contactId companyId) as [|c tl] eqn:Hact.
  - destruct e as [|channel]; simpl.
    + unfold WhatsApp.findOrCreateConversation, bind.
      rewrite (query_healthy _ w Hh), findFirst_head, Hact. unfold head; cbv beta iota.
      rewrite (mutate_healthy _ w Hh). eexists _, _.
      split; [reflexivity|]. simpl. auto.
    + unfold Omnichannel.findOrCreateUnifiedConversation, tryCatch, bind.
      rewrite (query_healthy _ w Hh), findFirst_head, Hact. unfold head; cbv beta iota.
      rewrite (mutate_healthy _ w Hh). eexists _, _.
      split; [reflexivity|]. simpl. auto.
  - assert (Hin : c ∈ conversations (db w)).
    { assert (Hc : c ∈ activeFor (db w) contactId companyId)
        by (rewrite Hact; left).
      apply list_elem_of_filter in Hc. tauto. }
    destruct e as [|channel]; simpl.
    + unfold WhatsApp.findOrCreateConversation, bind.
      rewrite (query_healthy _ w Hh), findFirst_head, Hact. unfold head; cbv beta iota.
      eexists _, _. split; [reflexivity|]. auto.
    + unfold Omnichannel.findOrCreateUnifiedConversation, tryCatch, bind.
      rewrite (query_healthy _ w Hh), findFirst_head, Hact. unfold head; cbv beta iota.
      case_bool_decide as Hch.
      { eexists _, _. split; [reflexivity|]. auto. }
      rewrite (update_healthy _ w Hh). unfold conversation_update.
      rewrite (hasConversation_elem c (db w) Hin). simpl fst. simpl snd.
      cbv iota. unfold ret. eexists _, _. split; [reflexivity|].
      split; [destruct (conv_channels c); reflexivity|].
      split; [destruct (conv_channels c); reflexivity|].
      simpl. apply update_keeps_ids. reflexivity.
Qed.

End FindOrCreate.

(* ===================================================================== *)
(** * Find or create, when two handlers overlap *)
(* ===================================================================== *)

Section OverlappingHandlers.
Import Store Runtime Inbound.

(** While nothing else runs, the handler is the one of [Inbound]. *)
Lemma overlap_alone (e : Arrival) (contactId companyId : nat) (w : World) :
  Overlap.findOrCreate e (ret tt) contactId companyId w
  = findOrCreate e contactId companyId w.
Proof.
  destruct e as [|channel]; simpl.
  - unfold Overlap.findOrCreateConversation, WhatsApp.findOrCreateConversation,
      Overlap.suspended, bind.
    destruct (query _ w) as [[c|e] w']; reflexivity.
  - unfold Overlap.findOrCreateUnifiedConversation,
      Omnichannel.findOrCreateUnifiedConversation, Overlap.suspended,
      tryCatch, bind.
    destruct (query _ w) as [[c|e] w']; reflexivity.
Qed.

Lemma first_of_the_pair (e : Arrival) (contactId companyId : nat) (w : World) :
  healthy w ->
  activeFor (db w) contactId companyId = [] ->
  exists channel channels,
    findOrCreate e contactId companyId w
    = (Ok (fst (conversation_create contactId companyId OPEN channel channels
                                    (db w))),
       set_db (snd (conversation_create contactId companyId OPEN channel
                                        channels (db w))) w).
Proof.
  intros Hh Hact. destruct e as [|channel]; simpl.
  - exists "WHATSAPP", None.
    unfold WhatsApp.findOrCreateConversation, bind.
    rewrite (query_healthy _ w Hh), findFirst_head, Hact. unfold head.
    cbv beta iota. rewrite (mutate_healthy _ w Hh). reflexivity.
  - exists channel, (Some [channel]).
    unfold Omnichannel.findOrCreateUnifiedConversation, tryCatch, bind.
    rewrite (query_healthy _ w Hh), findFirst_head, Hact. unfold head.
    cbv beta iota. rewrite (mutate_healthy _ w Hh). reflexivity.
Qed.

(** C4.  Two inbound events of a (contact, company) pair that has no active
    conversation, on a store that answers, the handler of the second
    running while the handler of the first is suspended between its
    [findFirst] and its [create]: both handlers create a conversation, they
    answer two different ids, and the pair ends with two OPEN
    conversations. *)
Theorem overlapping_handlers_open_two_conversations (e1 e2 : Arrival)
    (contactId companyId : nat) (w : World) :
  healthy w ->
  activeFor (db w) contactId companyId = [] ->
  exists c1 c2 w2 w',
    findOrCreate e2 contactId companyId w = (Ok c2, w2)
    /\ Overlap.findOrCreate e1 (Overlap.meanwhile e2 contactId companyId)
                            contactId companyId w = (Ok c1, w')
    /\ conv_id c2 = nextId (db w) /\ conv_id c1 = S (nextId (db w))
    /\ conv_status c1 = OPEN /\ conv_status c2 = OPEN
    /\ activeFor (db w') contactId companyId = [c2; c1]
    /\ ~ singleActive (db w') contactId companyId.
Proof.
  intros Hh Hact.
  destruct (first_of_the_pair e2 contactId companyId w Hh Hact)
    as (ch2 & chs2 & Hrun2).
  set (d2 := snd (conversation_create contactId companyId OPEN ch2 chs2 (db w)))
    in *.
  set (c2 := fst (conversation_create contactId companyId OPEN ch2 chs2 (db w)))
    in *.
  assert (Hmean : Overlap.suspended
                    (Overlap.meanwhile e2 contactId companyId) w
                  = (Ok tt, set_db d2 w)).
  { unfold Overlap.suspended, Overlap.meanwhile, bind. rewrite Hrun2.
    reflexivity. }
  assert (Hh2 : healthy (set_db d2 w)) by exact Hh.
  assert (Hact2 : activeFor d2 contactId companyId = [c2]).
  { unfold d2. rewrite activeFor_create, Hact. reflexivity. }
  assert (Hrun1 : exists ch1 chs1,
            Overlap.findOrCreate e1 (Overlap.meanwhile e2 contactId companyId)
                                 contactId companyId w
            = (Ok (fst (conversation_create contactId companyId OPEN ch1 chs1
                                            d2)),
               set_db (snd (conversation_create contactId companyId OPEN ch1
                                                chs1 d2)) (set_db d2 w))).
  { destruct e1 as [|channel]; simpl.
    - exists "WHATSAPP", None.
      unfold Overlap.findOrCreateConversation. unfold bind at 1.
      rewrite (query_healthy _ w Hh), findFirst_head, Hact. unfold head.
      unfold bind at 1. rewrite Hmean.
      rewrite (mutate_healthy _ _ Hh2). reflexivity.
    - exists channel, (Some [channel]).
      unfold Overlap.findOrCreateUnifiedConversation, tryCatch.
      unfold bind at 1.
      rewrite (query_healthy _ w Hh), findFirst_head, Hact. unfold head.
      unfold bind at 1. rewrite Hmean.
      rewrite (mutate_healthy _ _ Hh2). reflexivity. }
  destruct Hrun1 as (ch1 & chs1 & Hrun1).
  eexists _, c2, _, _. split; [exact Hrun2|]. split; [exact Hrun1|].
  split; [reflexivity|]. split; [reflexivity|].
  split; [reflexivity|]. split; [reflexivity|].
  assert (Hboth : activeFor
                    (db (set_db (snd (conversation_create contactId companyId
                                        OPEN ch1 chs1 d2)) (set_db d2 w)))
                    contactId companyId
                  = [c2; fst (conversation_create contactId companyId OPEN ch1
                                                  chs1 d2)]).
  { cbn [db set_db]. rewrite activeFor_create, Hact2. reflexivity. }
  split; [exact Hboth|].
  unfold singleActive. rewrite Hboth. simpl. lia.
Qed.

End OverlappingHandlers.




(* ===================================================================== *)
(** * Active assignments of a conversation *)
(* ===================================================================== *)

Section Assignments.
Import Store Runtime MessageProcessor.

#[local] Arguments activeAssignments : simpl never.

Lemma db_set_db (d : DB) (w : World) : db (set_db d w) = d.
Proof. reflexivity. Qed.

Lemma deactivate_leaves_none (conversationId : nat) (d : DB) :
  activeAssignments conversationId
                    (conversationAgent_deactivate conversationId d) = [].
Proof.
  unfold activeAssignments, conversationAgent_deactivate. simpl.
  induction (conversationAgents d) as [|a l IH]; [reflexivity|].
  simpl map. rewrite filter_cons, IH.
  destruct (decide _) as [[Hc Hact]|_]; [|reflexivity].
  case_bool_decide; simpl in *; [discriminate | contradiction].
Qed.

Lemma create_adds_one (userId conversationId : nat) (d : DB) :
  activeAssignments conversationId
                    (snd (conversationAgent_create userId conversationId d))
  = activeAssignments conversationId d
    ++ [fst (conversationAgent_create userId conversationId d)].
Proof.
  unfold activeAssignments, conversationAgent_create. simpl.
  rewrite filter_app, filter_cons, filter_nil.
  destruct (decide _) as [_|Hn]; [reflexivity|].
  exfalso. apply Hn. simpl. tauto.
Qed.

Lemma update_keeps_assignments (id conversationId : nat)
    (f : Conversation -> Conversation) (d : DB) :
  activeAssignments conversationId (snd (conversation_update id f d))
  = activeAssignments conversationId d.
Proof.
  unfold conversation_update. destruct (hasConversation id d); reflexivity.
Qed.

(** The HTTP route deactivates before it creates: one active assignment
    is left. *)
Lemma assign_route_leaves_one (reqUser agent : User) (agentId : option nat)
    (conversationId : nat) (c : Conversation) (w : World) :
  healthy w ->
  conversation_findUnique conversationId (user_companyId reqUser) (db w)
    = Some c ->
  user_findUnique_active (default (user_id reqUser) agentId)
                         (user_companyId reqUser) (db w) = Some agent ->
  length (activeAssignments conversationId
            (db (snd (Routes.assign reqUser agentId conversationId w)))) = 1.
Proof.
  intros Hh Hc Ha. unfold Routes.assign, tryCatch, bind.
  rewrite (query_healthy _ w Hh), Hc, (query_healthy _ w Hh), Ha.
  rewrite (mutate_healthy _ w Hh). simpl fst. simpl snd.
  set (w1 := set_db _ w). assert (Hh1 : healthy w1) by exact Hh.
  rewrite (mutate_healthy _ w1 Hh1). simpl fst. cbv iota.
  set (w2 := set_db _ w1). assert (Hh2 : healthy w2) by exact Hh.
  rewrite (update_healthy _ w2 Hh2).
  assert (H2 : length (activeAssignments conversationId (db w2)) = 1).
  { unfold w2. rewrite db_set_db, create_adds_one. unfold w1.
    rewrite db_set_db. simpl snd. rewrite deactivate_leaves_none.
    reflexivity. }
  pose proof (update_keeps_assignments conversationId conversationId
                (set_status OPEN) (db w2)) as Hu.
  destruct (conversation_update conversationId (set_status OPEN) (db w2))
    as [[u|e] d3]; simpl in Hu; simpl fst; simpl snd; cbv iota.
  - unfold notifyCompany. simpl io.
    destruct (io w); simpl; rewrite Hu; exact H2.
  - simpl. rewrite Hu. exact H2.
Qed.

(** The socket event refuses a conversation that has an active assignment:
    it never makes a second one. *)
Lemma take_keeps_single (user : User) (conversationId : nat) (w : World) :
  healthy w ->
  length (activeAssignments conversationId (db w)) <= 1 ->
  length (activeAssignments conversationId
            (db (snd (Socket.conversationTake user conversationId w)))) <= 1.
Proof.
  intros Hh Hone. unfold Socket.conversationTake, tryCatch, bind.
  rewrite (query_healthy _ w Hh). unfold Socket.conversation_findUnique_agents.
  destruct (conversation_findUnique conversationId (user_companyId user) (db w))
    as [c|]; [|exact Hone].
  destruct (activeAssignments conversationId (db w)) as [|a l] eqn:Hact;
    [|simpl; rewrite Hact; exact Hone].
  change ((0 <? length (@nil ConversationAgent))%nat) with false.
  cbv beta iota.
  rewrite (mutate_healthy _ w Hh). simpl fst. cbv iota.
  set (w1 := set_db _ w). assert (Hh1 : healthy w1) by exact Hh.
  rewrite (update_healthy _ w1 Hh1).
  assert (H1 : length (activeAssignments conversationId (db w1)) <= 1).
  { unfold w1. rewrite db_set_db, create_adds_one, Hact. reflexivity. }
  pose proof (update_keeps_assignments conversationId conversationId
                (set_status OPEN) (db w1)) as Hu.
  destruct (conversation_update conversationId (set_status OPEN) (db w1))
    as [[u|e] d2]; simpl in Hu; simpl; rewrite Hu; exact H1.
Qed.

(** Automatic routing creates without deactivating: every assignment it
    makes is one more active row of the conversation. *)
Lemma assignToAgent_adds_one (conversation : ConversationObj) (a : Agent)
    (w : World) :
  healthy w ->
  fst (findAvailableAgent (conv_companyId conversation) w) = Ok (Some a) ->
  length (activeAssignments (conv_id conversation)
            (db (snd (assignToAgent conversation w))))
  = S (length (activeAssignments (conv_id conversation) (db w))).
Proof.
  intros Hh Hfind. unfold assignToAgent, tryCatch, bind.
  rewrite (findAvailableAgent_healthy _ w Hh) in *. simpl in Hfind.
  injection Hfind as ->.
  rewrite (mutate_healthy _ w Hh). simpl fst. cbv iota.
  set (w1 := set_db _ w). assert (Hh1 : healthy w1) by exact Hh.
  rewrite (update_healthy _ w1 Hh1).
  assert (H1 : length (activeAssignments (conv_id conversation) (db w1))
               = S (length (activeAssignments (conv_id conversation) (db w)))).
  { unfold w1. rewrite db_set_db, create_adds_one, length_app. simpl. lia. }
  pose proof (update_keeps_assignments (conv_id conversation)
                (conv_id conversation) (set_status OPEN) (db w1)) as Hu.
  destruct (conversation_update (conv_id conversation) (set_status OPEN)
                                (db w1))
    as [[u|e] d2]; simpl in Hu; simpl fst; simpl snd; cbv iota.
  - unfold notifyCompany. simpl io.
    destruct (io w); simpl; rewrite Hu; exact H1.
  - simpl. rewrite Hu. exact H1.
Qed.

End Assignments.

(* ===================================================================== *)
(** * Campaigns: the batch loop and its cancellation *)
(* ===================================================================== *)

Section Campaigns.
Import Store Runtime CampaignService.

(** Once the id has left the registry the loop sends nothing more. *)
Lemma batches_stop_when_cancelled (turns : nat) (others : Interleaving)
    (campaign : Campaign) (whatsappAccount i : nat) (results : Results)
    (w : World) :
  runningCampaigns w !! camp_id campaign = None ->
  batches turns others campaign whatsappAccount i results w = (Ok results, w).
Proof.
  intros Hgone. destruct turns as [|turns]; [reflexivity|]. simpl.
  destruct (i <? length (camp_recipients campaign))%nat; [|reflexivity].
  rewrite Hgone.
  rewrite (bool_decide_eq_false_2 (is_Some None)) by (intros [? ?]; discriminate).
  reflexivity.
Qed.

(** The loop never runs out of turns: any two numbers of turns that cover
    the recipients still ahead give the same run. *)
Lemma batches_turns_enough (others : Interleaving) (campaign : Campaign)
    (whatsappAccount : nat) (turns turns' i : nat) (results : Results)
    (w : World) :
  length (camp_recipients campaign) - i <= turns ->
  length (camp_recipients campaign) - i <= turns' ->
  batches turns others campaign whatsappAccount i results w
  = batches turns' others campaign whatsappAccount i results w.
Proof.
  revert turns' i results w.
  induction turns as [|turns IH]; intros turns' i results w Ht Ht'.
  - destruct turns' as [|turns']; [reflexivity|]. simpl.
    destruct (Nat.ltb_spec i (length (camp_recipients campaign)));
      [lia | reflexivity].
  - destruct turns' as [|turns']; simpl;
      destruct (Nat.ltb_spec i (length (camp_recipients campaign)));
      try reflexivity; try lia.
    destruct (negb _); [reflexivity|].
    unfold bind. unfold batchSize in *.
    destruct (sendBatch _ _ _ _ _ _ w) as [[results'|e] w1]; [|reflexivity].
    destruct (update _ w1) as [[u|e] w2]; [|reflexivity].
    destruct (notifyCompany _ _ _ _ w2) as [[u'|e] w3]; [|reflexivity].
    match goal with
    | |- context [(if ?c then _ else _) w3] =>
        destruct ((if c then delay others (BeforeBatch (i + 10))
                   else ret tt) w3) as [[u''|e] w4]
    end; [|reflexivity].
    apply IH; lia.
Qed.

Lemma find_after_update (id : nat) (f : Campaign -> Campaign)
    (l : list Campaign) :
  (forall c, camp_id (f c) = camp_id c) ->
  find (fun c => bool_decide (camp_id c = id))
       (map (fun c => if bool_decide (camp_id c = id) then f c else c) l)
  = option_map f (find (fun c => bool_decide (camp_id c = id)) l).
Proof.
  intros Hf. induction l as [|c l IH]; [reflexivity|]. simpl.
  destruct (decide (camp_id c = id)) as [Hc|Hc].
  - rewrite (bool_decide_eq_true_2 _ Hc).
    rewrite bool_decide_eq_true_2 by (rewrite Hf; exact Hc). reflexivity.
  - rewrite !(bool_decide_eq_false_2 _ Hc). exact IH.
Qed.

(** What [cancelCampaign] itself does to a campaign that is SENDING: the id
    leaves the registry and CANCELLED is written. *)
Lemma cancelCampaign_effect (campaignId : nat) (c : Campaign) (w : World) :
  healthy w ->
  campaign_findUnique campaignId (db w) = Some c ->
  camp_status c = SENDING ->
  let w' := snd (cancelCampaign campaignId w) in
  fst (cancelCampaign campaignId w) = Ok "Campanha cancelada com sucesso"
  /\ runningCampaigns w' !! campaignId = None
  /\ option_map camp_status (campaign_findUnique campaignId (db w'))
     = Some CANCELLED.
Proof.
  intros Hh Hc Hs. unfold cancelCampaign, tryCatch, bind.
  rewrite (query_healthy _ w Hh), Hc.
  rewrite bool_decide_eq_false_2 by (rewrite Hs; intros Hn; apply Hn; reflexivity).
  set (w1 := set_runningCampaigns _ w).
  assert (Hh1 : healthy w1) by exact Hh.
  rewrite (update_healthy _ w1 Hh1). unfold campaign_update.
  change (db w1) with (db w). rewrite Hc. cbn [fst snd]. cbv beta iota.
  split; [reflexivity|]. split; [apply lookup_delete_eq|].
  unfold ret. cbn [snd]. rewrite db_set_db.
  unfold campaign_findUnique in *. cbn [campaigns with_campaigns].
  rewrite find_after_update by reflexivity. rewrite Hc. reflexivity.
Qed.

End Campaigns.

(* ===================================================================== *)
(** * The claims on concrete worlds *)
(* ===================================================================== *)

Section Examples.
Import Store Runtime MessageProcessor Inbound Scenario Cases.

(** C1.  Agents 1 and 2 are online.  Agent 1 takes conversation 20 over the
    socket; then [assignToAgent] runs for the conversation.  It picks
    agent 2, who has fewer active assignments, and creates the assignment
    without deactivating the one of agent 1: the conversation has two
    active assignments, of two agents, where the claim allows one. *)
Theorem routing_makes_second_active_assignment :
  let w1 := snd (Socket.conversationTake (user 1 AGENT) 20 (world pairDesk)) in
  let w2 := snd (assignToAgent thread w1) in
  activeAssignments 20 (db w1) = [assignment 100 1 20]
  /\ activeAssignments 20 (db w2) = [assignment 100 1 20; assignment 101 2 20].
Proof. vm_compute. split; reflexivity. Qed.

(** C6.  A campaign of 25 recipients is cancelled during the sleep after
    its first batch.  The id leaves the registry and only the 10 messages
    of the first batch are sent, but the write after the loop replaces
    CANCELLED: the campaign ends SENT. *)
Theorem cancelled_campaign_ends_sent :
  let w' := snd (CampaignService.processCampaign cancelAfterFirstBatch
                   campaign 9 (world broadcast)) in
  runningCampaigns w' !! 60 = None
  /\ length (outbox w') = 10
  /\ option_map camp_results (campaign_findUnique 60 (db w'))
     = Some {| res_sent := 10; res_delivered := 10; res_failed := 0;
               res_errors := [] |}
  /\ option_map camp_status (campaign_findUnique 60 (db w')) = Some SENT.
Proof. vm_compute. repeat split. Qed.


(** Counterexample of C3: the first message of a contact creates its
    conversation as OPEN, on both paths. *)
Lemma new_conversation_is_open :
  activeFor (db (world fresh)) 7 1 = []
  /\ (exists c w', findOrCreate ViaWhatsApp 7 1 (world fresh) = (Ok c, w')
                   /\ conv_status c = OPEN /\ conv_status c <> PENDING)
  /\ (exists c w', findOrCreate (ViaOmnichannel "TELEGRAM") 7 1 (world fresh)
                   = (Ok c, w')
                   /\ conv_status c = OPEN /\ conv_status c <> PENDING).
Proof.
  split; [reflexivity|].
  split; eexists _, _; (split; [reflexivity|]); split;
    [reflexivity | discriminate | reflexivity | discriminate].
Qed.

(** Witness of C3. *)
Lemma find_or_create_answer_witness :
  healthy (world fresh)
  /\ match activeFor (db (world fresh)) 7 1 with
     | c :: _ =>
         exists c' w',
           findOrCreate ViaWhatsApp 7 1 (world fresh) = (Ok c', w')
           /\ conv_id c' = conv_id c /\ conv_status c' = conv_status c
           /\ map conv_id (conversations (db w'))
              = map conv_id (conversations (db (world fresh)))
     | [] =>
         exists c' w',
           findOrCreate ViaWhatsApp 7 1 (world fresh) = (Ok c', w')
           /\ conv_status c' = OPEN
           /\ conv_contactId c' = 7 /\ conv_companyId c' = 1
           /\ conversations (db w')
              = conversations (db (world fresh)) ++ [c']
     end.
Proof.
  split; [reflexivity|].
  apply (find_or_create_answer 7 1 ViaWhatsApp (world fresh)). reflexivity.
Defined.

(** Three messages of a new contact, over two channels, one after the other. *)
Lemma single_active_conversation_witness :
  let events := [ViaWhatsApp; ViaOmnichannel "TELEGRAM"; ViaWhatsApp] in
  singleActive (db (world fresh)) 7 1
  /\ (forall r wi, (r, wi) ∈ trace events 7 1 (world fresh) ->
                   singleActive (db wi) 7 1)
  /\ (forall c1 w1 c2 w2,
         (Ok c1, w1) ∈ trace events 7 1 (world fresh) ->
         (Ok c2, w2) ∈ trace events 7 1 (world fresh) ->
         conv_id c1 = conv_id c2).
Proof.
  assert (H : singleActive (db (world fresh)) 7 1)
    by (unfold singleActive; simpl; lia).
  split; [exact H|].
  apply (single_active_conversation 7 1 _ (world fresh)). exact H.
Defined.

(** Witness of C4: the first two messages of contact 7, one over WhatsApp
    and one over Telegram, with overlapping handlers. *)
Lemma overlapping_handlers_open_two_conversations_witness :
  healthy (world fresh)
  /\ activeFor (db (world fresh)) 7 1 = []
  /\ exists c1 c2 w2 w',
       findOrCreate (ViaOmnichannel "TELEGRAM") 7 1 (world fresh) = (Ok c2, w2)
       /\ Overlap.findOrCreate ViaWhatsApp
            (Overlap.meanwhile (ViaOmnichannel "TELEGRAM") 7 1) 7 1
            (world fresh) = (Ok c1, w')
       /\ conv_id c2 = nextId (db (world fresh))
       /\ conv_id c1 = S (nextId (db (world fresh)))
       /\ conv_status c1 = OPEN /\ conv_status c2 = OPEN
       /\ activeFor (db w') 7 1 = [c2; c1]
       /\ ~ singleActive (db w') 7 1.
Proof.
  split; [reflexivity|]. split; [reflexivity|].
  apply (overlapping_handlers_open_two_conversations
           ViaWhatsApp (ViaOmnichannel "TELEGRAM") 7 1 (world fresh));
    reflexivity.
Defined.

(** Counterexample of C5: agents 1, 2 and 3 hold 3, 2 and 2 active
    assignments; agent 3 is chosen, not agent 2. *)
Lemma tie_goes_to_the_last :
  map (fun b : Agent => (user_id b, length (agents b)))
      (user_findMany_available 1 (db (world team)))
  = [(1, 3); (2, 2); (3, 2)]
  /\ exists a w', findAvailableAgent 1 (world team) = (Ok (Some a), w')
                  /\ user_id a = 3 /\ user_id a <> 2.
Proof.
  split; [reflexivity|].
  eexists _, _. split; [reflexivity|]. split; [reflexivity | discriminate].
Qed.

(** Witness of C5. *)
Lemma findAvailableAgent_least_loaded_witness :
  healthy (world team)
  /\ assignmentsLive (db (world team)) = true
  /\ let found := user_findMany_available 1 (db (world team)) in
     match fst (findAvailableAgent 1 (world team)) with
     | Ok None => found = []
     | Ok (Some a) =>
         (exists pre post,
             found = pre ++ a :: post
             /\ (forall b, b ∈ pre -> length (agents a) <= length (agents b))
             /\ (forall b, b ∈ post -> length (agents a) < length (agents b)))
         /\ agent_user a ∈ users (db (world team))
         /\ user_companyId a = 1 /\ user_isOnline a = true
         /\ user_status a = ACTIVE
         /\ (user_role a = AGENT \/ user_role a = MANAGER)
         /\ length (agents a)
            = length (filter (fun r => ca_userId r = user_id a
                                       /\ ca_isActive r = true)
                             (conversationAgents (db (world team))))
         /\ (assignmentsLive (db (world team)) = true ->
             forall b, b ∈ found -> length (agents b) = openLoad b)
     | Throw _ => False
     end.
Proof.
  split; [reflexivity|]. split; [reflexivity|].
  apply (findAvailableAgent_least_loaded 1 (world team)). reflexivity.
Defined.



(** C10.  A first call on the instance is in flight for conversation 20:
    its entry is in [processingQueue].  A second call on the instance
    returns at once and touches neither store nor channel, but its
    [finally] block deletes the entry of the first call; so a third call is
    not dropped: it is routed, and assigns an agent, while the first call
    is still in flight. *)
Theorem dropped_call_releases_the_lock :
  let second := Invocation.processIncomingMessageOn Invocation.instance
                  hello thread 9 inFlight in
  let third := Invocation.processIncomingMessageOn Invocation.instance
                 askHuman thread 9 (snd second) in
  processingQueue inFlight !! 20 = Some true
  /\ fst second = Ok tt
  /\ db (snd second) = db inFlight
  /\ emitted (snd second) = [] /\ outbox (snd second) = []
  /\ logs (snd second) = []
  /\ processingQueue (snd second) !! 20 = None
  /\ activeAssignments 20 (db (snd third)) = [assignment 100 1 20]
  /\ map ev_name (emitted (snd third)) = ["conversation:assigned"].
Proof. vm_compute. repeat split. Qed.

End Examples.

(* ===================================================================== *)
(** * Frames of the routing handlers *)
(* ===================================================================== *)

Section Frames.
Import Store Runtime MessageProcessor Frame.

Context (R : World -> World -> Prop) (HR : Stable R).

Lemma respects_ret {A} (a : A) : respects R (ret a).
Proof. intros w. apply (st_refl R HR). Qed.

Lemma respects_throw {A} (e : Err) : respects R (@throw A e).
Proof. intros w. apply (st_refl R HR). Qed.

Lemma respects_bind {A B} (m : M A) (k : A -> M B) :
  respects R m -> (forall a, respects R (k a)) -> respects R (bind m k).
Proof.
  intros Hm Hk w. unfold bind. specialize (Hm w).
  destruct (m w) as [[a|e] w1]; simpl in *; [|exact Hm].
  exact (st_trans R HR _ _ _ Hm (Hk a w1)).
Qed.

Lemma respects_tryCatch {A} (m : M A) (h : Err -> M A) :
  respects R m -> (forall e, respects R (h e)) -> respects R (tryCatch m h).
Proof.
  intros Hm Hh w. unfold tryCatch. specialize (Hm w).
  destruct (m w) as [[a|e] w1]; simpl in *; [exact Hm|].
  exact (st_trans R HR _ _ _ Hm (Hh e w1)).
Qed.

Lemma respects_tryFinally {A} (m : M A) (c : M unit) :
  respects R m -> respects R c -> respects R (tryFinally m c).
Proof.
  intros Hm Hc w. unfold tryFinally. specialize (Hm w).
  destruct (m w) as [r w1]. simpl in Hm. specialize (Hc w1).
  destruct (c w1) as [[u|e] w2]; simpl in *;
    exact (st_trans R HR _ _ _ Hm Hc).
Qed.

(** A handler that first looks at the world. *)
Lemma respects_read {A} (f : World -> M A) :
  (forall w0, respects R (f w0)) -> respects R (fun w => f w w).
Proof. intros Hf w. exact (Hf w w). Qed.

Lemma respects_query {A} (q : DB -> A) : respects R (query q).
Proof.
  intros w. unfold query. destruct (nextFault (storeFaults w)) as [[|] rest];
    simpl; apply (st_storeFaults R HR).
Qed.

Lemma respects_mutate {A} (q : DB -> A * DB) :
  (forall w, R w (set_db (snd (q (db w))) w)) -> respects R (mutate q).
Proof.
  intros Hq w. unfold mutate.
  destruct (nextFault (storeFaults w)) as [[|] rest]; simpl;
    [apply (st_storeFaults R HR)|].
  specialize (Hq (set_storeFaults rest w)). simpl in Hq.
  destruct (q (db w)) as [a d]. simpl in *.
  exact (st_trans R HR _ _ _ (st_storeFaults R HR w rest) Hq).
Qed.

Lemma respects_update (q : DB -> Res unit * DB) :
  (forall w, R w (set_db (snd (q (db w))) w)) -> respects R (update q).
Proof.
  intros Hq w. unfold update.
  destruct (nextFault (storeFaults w)) as [[|] rest]; simpl;
    [apply (st_storeFaults R HR)|].
  specialize (Hq (set_storeFaults rest w)). simpl in Hq.
  destruct (q (db w)) as [a d]. simpl in *.
  exact (st_trans R HR _ _ _ (st_storeFaults R HR w rest) Hq).
Qed.

Lemma respects_logger (line : string) : respects R (logger line).
Proof. intros w. apply (st_logs R HR). Qed.

Lemma respects_emit (e : Event) : respects R (emit e).
Proof. intros w. apply (st_emitted R HR). Qed.

Lemma respects_notifyCompany (companyId : nat) (event : string)
    (subject : nat) (agent : option nat) :
  respects R (notifyCompany companyId event subject agent).
Proof.
  intros w. unfold notifyCompany. destruct (io w);
    [apply (st_emitted R HR) | apply (st_refl R HR)].
Qed.

Lemma respects_sendMessage (account : nat) (phone content : string) :
  respects R (sendMessage account phone content).
Proof.
  intros w. unfold sendMessage.
  destruct (nextFault (channelFaults w)) as [[|] rest]; simpl.
  - exact (st_trans R HR _ _ _ (st_channelFaults R HR w rest)
             (st_logs R HR _ _)).
  - exact (st_trans R HR _ _ _ (st_channelFaults R HR w rest)
             (st_outbox R HR _ _)).
Qed.

End Frames.

Section RoutingFrames.
Import Store Runtime MessageProcessor Frame.

Context (R : World -> World -> Prop) (HR : Stable R).

(** The three writes of routing. *)
Hypothesis Hassign :
  forall userId conversationId w,
    R w (set_db (snd (conversationAgent_create userId conversationId (db w))) w).
Hypothesis Hstatus :
  forall id st w,
    R w (set_db (snd (conversation_update id (set_status st) (db w))) w).
Hypothesis Hmessage :
  forall content inbound conversationId w,
    R w (set_db (snd (message_create content inbound conversationId (db w))) w).

Ltac frame :=
  repeat
    (intros;
     match goal with
     | |- respects _ (bind _ _) => apply (respects_bind R HR)
     | |- respects _ (tryCatch _ _) => apply (respects_tryCatch R HR)
     | |- respects _ (tryFinally _ _) => apply (respects_tryFinally R HR)
     | |- respects _ (ret _) => apply (respects_ret R HR)
     | |- respects _ (throw _) => apply (respects_throw R HR)
     | |- respects _ (query _) => apply (respects_query R HR)
     | |- respects _ (logger _) => apply (respects_logger R HR)
     | |- respects _ (emit _) => apply (respects_emit R HR)
     | |- respects _ (notifyCompany _ _ _ _) =>
         apply (respects_notifyCompany R HR)
     | |- respects _ (sendMessage _ _ _) => apply (respects_sendMessage R HR)
     | |- respects _ (mutate (conversationAgent_create _ _)) =>
         apply (respects_mutate R HR); intros; apply Hassign
     | |- respects _ (mutate (message_create _ _ _)) =>
         apply (respects_mutate R HR); intros; apply Hmessage
     | |- respects _ (update (conversation_update _ (set_status _))) =>
         apply (respects_update R HR); intros; apply Hstatus
     | |- respects _ (match ?x with _ => _ end) => destruct x
     end).

Lemma respects_shouldUseChatbot (conversation : ConversationObj)
    (message : Message) :
  respects R (shouldUseChatbot conversation message).
Proof.
  unfold shouldUseChatbot, isConversationAssigned. frame.
  intros assigned w. apply (st_refl R HR).
Qed.

Lemma respects_findAvailableAgent (companyId : nat) :
  respects R (findAvailableAgent companyId).
Proof. unfold findAvailableAgent. frame. Qed.

Lemma respects_assignToAgent (conversation : ConversationObj) :
  respects R (assignToAgent conversation).
Proof.
  unfold assignToAgent. frame. apply respects_findAvailableAgent.
Qed.

Lemma respects_generateAIResponse (userMessage : string)
    (context : AIContext) :
  respects R (generateAIResponse userMessage context).
Proof.
  unfold generateAIResponse. frame.
  intros w. cbv beta.
  destruct (completion w context userMessage); apply (st_refl R HR).
Qed.

Lemma respects_sendBotMessage (conversation : ConversationObj)
    (content : string) (whatsappAccountId : nat) :
  respects R (sendBotMessage conversation content whatsappAccountId).
Proof. unfold sendBotMessage. frame. Qed.

Lemma respects_executeActions (actions : list Action) :
  respects R (executeActions actions).
Proof.
  induction actions as [|a rest IH]; simpl; frame.
  - unfold executeAction. frame.
  - intros _. exact IH.
Qed.

Lemma respects_processChatbotResponse (message : Message)
    (conversation : ConversationObj) (whatsappAccount : nat) :
  respects R (processChatbotResponse message conversation whatsappAccount).
Proof.
  unfold processChatbotResponse, buildAIContext. frame; intros;
    try apply respects_assignToAgent;
    try apply respects_generateAIResponse;
    try apply respects_sendBotMessage;
    try apply respects_executeActions.
Qed.

End RoutingFrames.

Section RoutingNeverDoes.
Import Store Runtime MessageProcessor Frame.

Lemma routingFrame_refl (w : World) : routingFrame w w.
Proof.
  unfold routingFrame. repeat (split; [reflexivity|]).
  split; [exists []; rewrite app_nil_r; split; [reflexivity | constructor]|].
  exists []. rewrite app_nil_r. reflexivity.
Qed.

Lemma routingFrame_trans (a b c : World) :
  routingFrame a b -> routingFrame b c -> routingFrame a c.
Proof.
  unfold routingFrame.
  intros (U1 & C1 & B1 & T1 & P1 & G1 & I1 & (x1 & A1 & F1) & (m1 & M1))
         (U2 & C2 & B2 & T2 & P2 & G2 & I2 & (x2 & A2 & F2) & (m2 & M2)).
  repeat (split; [congruence|]). split.
  - exists (x1 ++ x2). rewrite A2, A1, app_assoc.
    split; [reflexivity | apply Forall_app; split; assumption].
  - exists (m1 ++ m2). rewrite M2, M1, app_assoc. reflexivity.
Qed.

Lemma routingFrame_queue (w : World) (q : gmap nat bool) :
  routingFrame w (set_processingQueue q w).
Proof. apply (routingFrame_refl (set_processingQueue q w)). Qed.

Lemma routingFrame_stable : Stable routingFrame.
Proof.
  split.
  - exact routingFrame_refl.
  - exact routingFrame_trans.
  - intros w f. apply (routingFrame_refl (set_storeFaults f w)).
  - intros w f. apply (routingFrame_refl (set_channelFaults f w)).
  - intros w l. apply (routingFrame_refl (set_logs l w)).
  - intros w e. apply (routingFrame_refl (set_emitted e w)).
  - intros w o. apply (routingFrame_refl (set_outbox o w)).
Qed.

Lemma routingFrame_assign (userId conversationId : nat) (w : World) :
  routingFrame w
    (set_db (snd (conversationAgent_create userId conversationId (db w))) w).
Proof.
  unfold routingFrame. simpl. repeat (split; [reflexivity|]). split.
  - eexists. split; [reflexivity|]. repeat constructor.
  - exists []. rewrite app_nil_r. reflexivity.
Qed.

Lemma routingFrame_status (id : nat) (st : ConversationStatus) (w : World) :
  routingFrame w
    (set_db (snd (conversation_update id (set_status st) (db w))) w).
Proof.
  unfold conversation_update.
  destruct (hasConversation id (db w)); [|apply (routingFrame_refl w)].
  unfold routingFrame. simpl. repeat (split; [reflexivity|]).
  split; [|split].
  - rewrite map_map. apply map_ext. intros c. case_bool_decide; reflexivity.
  - exists []. rewrite app_nil_r. split; [reflexivity | constructor].
  - exists []. rewrite app_nil_r. reflexivity.
Qed.

Lemma routingFrame_message (content : string) (inbound : bool)
    (conversationId : nat) (w : World) :
  routingFrame w
    (set_db (snd (message_create content inbound conversationId (db w))) w).
Proof.
  unfold routingFrame. simpl. repeat (split; [reflexivity|]). split.
  - exists []. rewrite app_nil_r. split; [reflexivity | constructor].
  - eexists. reflexivity.
Qed.

Lemma queueFrame_stable : Stable queueFrame.
Proof. split; unfold queueFrame; intros; simpl; congruence. Qed.

(** X1.  Whatever the store, the channel and the completion service do, routing
    a message leaves users, companies, chatbots, contacts, campaigns and the
    campaign registry as they were, creates and deletes no conversation,
    and only appends rows to the assignments, all of them active: it never
    deactivates one. *)
Theorem routing_never_deactivates (message : Message)
    (conversation : ConversationObj) (whatsappAccount : nat) (w : World) :
  routingFrame w
    (snd (processIncomingMessage message conversation whatsappAccount w)).
Proof.
  revert w. unfold processIncomingMessage.
  pose proof routingFrame_stable as HS.
  apply (respects_tryFinally _ HS);
    [apply (respects_tryCatch _ HS)|].
  - intros w. cbv beta. destruct (bool_decide _); [apply routingFrame_refl|].
    revert w. apply (respects_bind _ HS).
    { intros w. apply routingFrame_queue. }
    intros _. apply (respects_bind _ HS).
    { apply (respects_shouldUseChatbot _ HS). }
    intros [|].
    + apply (respects_processChatbotResponse _ HS).
      * exact routingFrame_assign.
      * exact routingFrame_status.
      * exact routingFrame_message.
    + apply (respects_assignToAgent _ HS).
      * exact routingFrame_assign.
      * exact routingFrame_status.
  - intros e. apply (respects_logger _ HS).
  - intros w. apply routingFrame_queue.
Qed.

(** The method on the instance returns normally, and when it has returned
    the conversation is not in [processingQueue] while every other entry is
    as before. *)
Lemma instance_call_unlocks (message : Message)
    (conversation : ConversationObj) (whatsappAccount : nat) (w : World) :
  fst (processIncomingMessage message conversation whatsappAccount w) = Ok tt
  /\ processingQueue
       (snd (processIncomingMessage message conversation whatsappAccount w))
     = delete (conv_id conversation) (processingQueue w).
Proof.
  pose proof queueFrame_stable as HS.
  assert (Hdb : forall d w0, queueFrame w0 (set_db d w0)) by reflexivity.
  unfold processIncomingMessage, tryFinally, tryCatch.
  case_bool_decide as Hin.
  - simpl. split; reflexivity.
  - set (body := bind (shouldUseChatbot conversation message) _).
    assert (Hbody : respects queueFrame body).
    { apply (respects_bind _ HS);
        [ apply (respects_shouldUseChatbot _ HS)
        | intros [|];
          [ apply (respects_processChatbotResponse _ HS); intros; apply Hdb
          | apply (respects_assignToAgent _ HS); intros; apply Hdb ] ]. }
    set (wl := set_processingQueue
                 (<[conv_id conversation := true]> (processingQueue w)) w).
    change (bind (lock (conv_id conversation)) (fun _ => body) w)
      with (body wl).
    specialize (Hbody wl). unfold queueFrame in Hbody.
    destruct (body wl) as [[[]|e] w2]; simpl in Hbody; simpl;
      rewrite Hbody; (split; [reflexivity|]); unfold wl; simpl;
      apply delete_insert_eq.
Qed.

(** X2.  What a call of [processIncomingMessage] comes to depends on its
    receiver.  On the instance it always returns normally and leaves
    [processingQueue] without the conversation and otherwise as before:
    neither a rejected store call, nor a rejected send, nor a failing
    completion leaves a conversation locked.  Without receiver, as
    whatsapp.js calls the method it took off the instance, nothing is
    routed: the call rejects with a TypeError, and all it leaves is the log
    line of its [catch]. *)
Theorem routing_returns_only_on_the_instance (this : Invocation.Receiver)
    (message : Message) (conversation : ConversationObj)
    (whatsappAccount : nat) (w : World) :
  match this with
  | Invocation.instance =>
      fst (Invocation.processIncomingMessageOn this message conversation
                                               whatsappAccount w) = Ok tt
      /\ processingQueue
           (snd (Invocation.processIncomingMessageOn this message conversation
                                                     whatsappAccount w))
         = delete (conv_id conversation) (processingQueue w)
  | Invocation.undefined =>
      Invocation.processIncomingMessageOn this message conversation
                                          whatsappAccount w
      = (Throw TypeError,
         set_logs (logs w ++ ["Error processing message:"]) w)
  end.
Proof.
  destruct this.
  - rewrite processIncomingMessageOn_instance. apply instance_call_unlocks.
  - apply processIncomingMessageOn_undefined.
Qed.

End RoutingNeverDoes.

(* ===================================================================== *)
(** * The chatbot pipeline *)
(* ===================================================================== *)

Section ChatbotPipeline.
Import Store Runtime MessageProcessor Scenario.

(** [assignToAgent] hands nothing to the channel and persists no message,
    whatever the store does. *)
Lemma assignToAgent_sends_nothing (conversation : ConversationObj)
    (w : World) :
  outbox (snd (assignToAgent conversation w)) = outbox w
  /\ messages (db (snd (assignToAgent conversation w))) = messages (db w).
Proof.
  unfold assignToAgent, tryCatch, bind, findAvailableAgent, bind, query,
    mutate, update, notifyCompany, conversation_update, logger, ret, throw.
  destruct (nextFault (storeFaults w)) as [[|] r1]; simpl; [auto|].
  destruct (length (user_findMany_available _ _) =? 0)%nat; simpl.
  - destruct (nextFault r1) as [[|] r2]; simpl; [auto|].
    destruct (hasConversation _ _); simpl; [|auto].
    destruct (io w); simpl; auto.
  - destruct (JS.reduce _ _) as [a|]; simpl; [|auto].
    destruct (nextFault r1) as [[|] r2]; simpl; [auto|].
    destruct (nextFault r2) as [[|] r3]; simpl; [auto|].
    destruct (hasConversation _ _); simpl; [|auto].
    destruct (io w); simpl; auto.
Qed.

(** X3.  A generated reply that mentions an escalation keyword is never sent:
    on a store that answers, the pipeline persists no bot message, hands
    nothing to the channel and goes on to human assignment. *)
Theorem reply_with_keyword_is_discarded (message : Message)
    (conversation : ConversationObj) (whatsappAccount : nat)
    (response keyword : string) (w : World) :
  healthy w ->
  (forall context, completion w context (msg_content message) = Some response) ->
  keyword ∈ transferKeywords ->
  JS.includes (JS.toLowerCase response) keyword = true ->
  exists w1,
    processChatbotResponse message conversation whatsappAccount w
    = assignToAgent conversation w1
    /\ db w1 = db w /\ outbox w1 = outbox w
    /\ outbox (snd (processChatbotResponse message conversation
                                           whatsappAccount w)) = outbox w
    /\ messages (db (snd (processChatbotResponse message conversation
                                                 whatsappAccount w)))
       = messages (db w).
Proof.
  intros Hh Hai Hk Hi.
  assert (Hflag : shouldTransferToAgent response (msg_content message) = true).
  { unfold shouldTransferToAgent, JS.some. apply existsb_exists.
    exists keyword. split; [apply list_elem_of_In; exact Hk|].
    rewrite Hi. reflexivity. }
  assert (Hrun : exists w1,
             processChatbotResponse message conversation whatsappAccount w
             = assignToAgent conversation w1
             /\ db w1 = db w /\ outbox w1 = outbox w).
  { pose proof (assignToAgent_returns conversation) as Hret.
    unfold processChatbotResponse.
    unfold tryCatch at 1. unfold bind at 1. rewrite (query_healthy _ w Hh).
    unfold bind at 1. rewrite (query_healthy _ w Hh).
    destruct (chatbot_findFirst (conv_companyId conversation) (db w)) as [bot|].
    - unfold bind at 1. unfold buildAIContext.
      destruct (conv_contact conversation) as [contact|].
      + unfold ret at 1. unfold bind at 1.
        unfold generateAIResponse, tryCatch. rewrite Hai. unfold ret at 1.
        cbn [ai_shouldTransferToAgent]. rewrite Hflag.
        exists w. split; [|auto]. specialize (Hret w).
        destruct (assignToAgent conversation w) as [[u|e] w'']; simpl in Hret;
          [reflexivity | discriminate].
      + unfold throw, bind, logger. eexists. split; [reflexivity|].
        simpl. auto.
    - exists w. split; [|auto]. specialize (Hret w).
      destruct (assignToAgent conversation w) as [[u|e] w'']; simpl in Hret;
        [reflexivity | discriminate]. }
  destruct Hrun as (w1 & Hrun & Hdb & Hout).
  exists w1. repeat (split; [assumption|]). rewrite Hrun.
  destruct (assignToAgent_sends_nothing conversation w1) as [Ho Hm].
  rewrite Ho, Hm, Hout, Hdb. auto.
Qed.

(** X4.  The caller that loads the conversation without its contact, as the
    WhatsApp handler does, never gets a bot reply: on a store that answers
    and with an active chatbot, building the context fails and the
    pipeline goes on to human assignment with nothing sent. *)
Theorem chatbot_needs_the_contact (message : Message)
    (conversation : ConversationObj) (whatsappAccount : nat) (bot : Chatbot)
    (w : World) :
  healthy w ->
  conv_contact conversation = None ->
  chatbot_findFirst (conv_companyId conversation) (db w) = Some bot ->
  processChatbotResponse message conversation whatsappAccount w
  = assignToAgent conversation
      (set_logs (logs w ++ ["Error processing chatbot response:"]) w)
  /\ outbox (snd (processChatbotResponse message conversation
                                         whatsappAccount w)) = outbox w
  /\ messages (db (snd (processChatbotResponse message conversation
                                               whatsappAccount w)))
     = messages (db w).
Proof.
  intros Hh Hc Hbot.
  assert (Hrun : processChatbotResponse message conversation whatsappAccount w
                 = assignToAgent conversation
                     (set_logs (logs w ++ ["Error processing chatbot response:"])
                               w)).
  { unfold processChatbotResponse.
    unfold tryCatch at 1. unfold bind at 1. rewrite (query_healthy _ w Hh).
    unfold bind at 1. rewrite (query_healthy _ w Hh), Hbot.
    unfold bind at 1. unfold buildAIContext. rewrite Hc. reflexivity. }
  split; [exact Hrun|]. rewrite Hrun.
  destruct (assignToAgent_sends_nothing conversation
              (set_logs (logs w ++ ["Error processing chatbot response:"]) w))
    as [Ho Hm].
  rewrite Ho, Hm. auto.
Qed.

Lemma executeActions_only_logs (actions : list Action) (w : World) :
  fst (executeActions actions w) = Ok tt
  /\ db (snd (executeActions actions w)) = db w
  /\ outbox (snd (executeActions actions w)) = outbox w
  /\ emitted (snd (executeActions actions w)) = emitted w.
Proof.
  revert w. induction actions as [|a rest IH]; intros w; [simpl; auto|].
  simpl. unfold bind, tryCatch, executeAction, logger.
  destruct a; simpl;
    match goal with
    | |- context [executeActions rest ?w0] =>
        destruct (IH w0) as (H1 & H2 & H3 & H4)
    end; auto.
Qed.

Lemma executeActions_keeps_logs (actions : list Action) (w : World)
    (line : string) :
  line ∈ logs w -> line ∈ logs (snd (executeActions actions w)).
Proof.
  revert w. induction actions as [|a rest IH]; intros w H; [exact H|].
  simpl. unfold bind, tryCatch, executeAction, logger.
  destruct a; simpl; apply IH; simpl; apply elem_of_app; left; exact H.
Qed.

(** X5.  A reply without any escalation keyword, to a message without one, is
    the bot's answer: on a store and a channel that answer, the pipeline
    persists it as an outbound message of the conversation, hands it to
    the channel for the contact's phone and announces it, and it neither
    assigns an agent nor changes a conversation. *)
Theorem bot_reply_is_persisted_and_sent (message : Message)
    (conversation : ConversationObj) (whatsappAccount : nat) (bot : Chatbot)
    (contact : Contact) (response : string) (w : World) :
  healthy w ->
  channelFaults w = [] ->
  chatbot_findFirst (conv_companyId conversation) (db w) = Some bot ->
  conv_contact conversation = Some contact ->
  (forall context, completion w context (msg_content message) = Some response) ->
  shouldTransferToAgent response (msg_content message) = false ->
  let w' := snd (processChatbotResponse message conversation
                                        whatsappAccount w) in
  messages (db w')
  = messages (db w)
    ++ [{| msg_id := nextId (db w); msg_content := response;
           msg_inbound := false;
           msg_conversationId := conv_id conversation |}]
  /\ outbox w'
     = outbox w ++ [{| sent_account := whatsappAccount;
                       sent_phone := contact_phone contact;
                       sent_content := response |}]
  /\ emitted w'
     = emitted w
       ++ (if io w
           then [{| ev_to := Company (conv_companyId conversation);
                    ev_name := "message:new";
                    ev_subject := conv_id conversation; ev_agent := None |}]
           else [])
  /\ conversationAgents (db w') = conversationAgents (db w)
  /\ conversations (db w') = conversations (db w).
Proof.
  intros Hh Hch Hbot Hc Hai Hflag.
  remember (processChatbotResponse message conversation whatsappAccount w)
    as run eqn:Hrun.
  unfold processChatbotResponse in Hrun.
  unfold tryCatch at 1 in Hrun. unfold bind at 1 in Hrun.
  rewrite (query_healthy _ w Hh) in Hrun.
  unfold bind at 1 in Hrun. rewrite (query_healthy _ w Hh), Hbot in Hrun.
  unfold bind at 1 in Hrun. unfold buildAIContext in Hrun.
  rewrite Hc in Hrun. unfold ret at 1 in Hrun.
  unfold bind at 1 in Hrun. unfold generateAIResponse, tryCatch in Hrun.
  rewrite Hai in Hrun. unfold ret at 1 in Hrun.
  cbn [ai_shouldTransferToAgent ai_message ai_actions] in Hrun.
  rewrite Hflag in Hrun.
  unfold bind at 1 in Hrun. unfold sendBotMessage, tryCatch in Hrun.
  unfold bind at 1 in Hrun. rewrite (mutate_healthy _ w Hh), Hc in Hrun.
  cbn [fst snd message_create] in Hrun.
  unfold bind at 1 in Hrun. unfold sendMessage in Hrun.
  cbn [channelFaults set_db] in Hrun. rewrite Hch in Hrun.
  cbn [nextFault] in Hrun. unfold notifyCompany in Hrun.
  cbn [io set_outbox set_channelFaults set_db] in Hrun.
  destruct (io w) eqn:Hio; cbn [emit] in Hrun;
    (destruct (extractActions response) as [acts|];
     [ match type of Hrun with
       | context [executeActions acts ?w0] =>
           destruct (executeActions_only_logs acts w0) as (Hr & Hd & Ho & He);
           destruct (executeActions acts w0) as [[u|e] w2]; simpl in Hr;
           [|discriminate]
       end;
       subst run; cbn [snd] in *; rewrite Hd, Ho, He; simpl;
       rewrite ?app_nil_r; auto
     | subst run; simpl; rewrite ?app_nil_r; auto ]).
Qed.

(** X6.  When the channel rejects the send of the bot's answer, nothing makes up
    for it: on a store that answers, the answer stays persisted as an
    outbound message, nothing reaches the channel, nobody is notified, and
    the pipeline does not fall back to human assignment; the failure is only
    logged. *)
Theorem failed_send_is_swallowed (message : Message)
    (conversation : ConversationObj) (whatsappAccount : nat) (bot : Chatbot)
    (contact : Contact) (response : string) (rest : list bool) (w : World) :
  healthy w ->
  channelFaults w = true :: rest ->
  chatbot_findFirst (conv_companyId conversation) (db w) = Some bot ->
  conv_contact conversation = Some contact ->
  (forall context, completion w context (msg_content message) = Some response) ->
  shouldTransferToAgent response (msg_content message) = false ->
  let w' := snd (processChatbotResponse message conversation
                                        whatsappAccount w) in
  fst (processChatbotResponse message conversation whatsappAccount w) = Ok tt
  /\ messages (db w')
     = messages (db w)
       ++ [{| msg_id := nextId (db w); msg_content := response;
              msg_inbound := false;
              msg_conversationId := conv_id conversation |}]
  /\ outbox w' = outbox w
  /\ emitted w' = emitted w
  /\ conversationAgents (db w') = conversationAgents (db w)
  /\ conversations (db w') = conversations (db w)
  /\ "Error sending bot message:" ∈ logs w'.
Proof.
  intros Hh Hch Hbot Hc Hai Hflag.
  remember (processChatbotResponse message conversation whatsappAccount w)
    as run eqn:Hrun.
  unfold processChatbotResponse in Hrun.
  unfold tryCatch at 1 in Hrun. unfold bind at 1 in Hrun.
  rewrite (query_healthy _ w Hh) in Hrun.
  unfold bind at 1 in Hrun. rewrite (query_healthy _ w Hh), Hbot in Hrun.
  unfold bind at 1 in Hrun. unfold buildAIContext in Hrun.
  rewrite Hc in Hrun. unfold ret at 1 in Hrun.
  unfold bind at 1 in Hrun. unfold generateAIResponse, tryCatch in Hrun.
  rewrite Hai in Hrun. unfold ret at 1 in Hrun.
  cbn [ai_shouldTransferToAgent ai_message ai_actions] in Hrun.
  rewrite Hflag in Hrun.
  unfold bind at 1 in Hrun. unfold sendBotMessage, tryCatch in Hrun.
  unfold bind at 1 in Hrun. rewrite (mutate_healthy _ w Hh), Hc in Hrun.
  cbn [fst snd message_create] in Hrun.
  unfold bind at 1 in Hrun. unfold sendMessage in Hrun.
  cbn [channelFaults set_db] in Hrun. rewrite Hch in Hrun.
  cbn [nextFault] in Hrun. unfold logger at 1 in Hrun.
  destruct (extractActions response) as [acts|].
  - match type of Hrun with
    | context [executeActions acts ?w0] =>
        destruct (executeActions_only_logs acts w0) as (Hr & Hd & Ho & He);
        pose proof (executeActions_keeps_logs acts w0) as Hl;
        destruct (executeActions acts w0) as [[u|e] w2]; simpl in Hr;
        [|discriminate]
    end.
    subst run. cbn [fst snd] in *. rewrite Hd, Ho, He.
    split; [destruct u; reflexivity|].
    repeat (split; [reflexivity|]).
    apply Hl. cbn. apply elem_of_app. right. apply list_elem_of_singleton.
    reflexivity.
  - subst run. cbn.
    repeat (split; [reflexivity|]).
    apply elem_of_app. right. apply list_elem_of_singleton. reflexivity.
Qed.

End ChatbotPipeline.


(* ===================================================================== *)
(** * Closing, reopening and assigning by hand *)
(* ===================================================================== *)

Section LifecycleFacts.
Import Store Runtime Routes Lifecycle Inbound.

#[local] Arguments activeAssignments : simpl never.

Lemma findUnique_other_company (id companyId : nat) (d : DB) :
  (forall c, c ∈ conversations d -> conv_id c = id ->
             conv_companyId c <> companyId) ->
  conversation_findUnique id companyId d = None.
Proof.
  intros Hother. unfold conversation_findUnique.
  destruct (find _ (conversations d)) as [c|] eqn:Hf; [|reflexivity].
  apply find_some in Hf as [Hin Hp]. apply bool_decide_eq_true in Hp as [Hi Hc].
  destruct (Hother c (proj2 (list_elem_of_In _ _) Hin) Hi Hc).
Qed.

Lemma deactivate_keeps_others (closed other : nat) (d : DB) :
  other <> closed ->
  activeAssignments other (conversationAgent_deactivate closed d)
  = activeAssignments other d.
Proof.
  intros Hne. unfold activeAssignments, conversationAgent_deactivate. simpl.
  induction (conversationAgents d) as [|a l IH]; [reflexivity|].
  simpl map. rewrite !filter_cons, IH.
  case_bool_decide as Hc; [|reflexivity].
  destruct (decide _) as [[Hc' _]|_]; simpl in *; [congruence|].
  destruct (decide _) as [[Hc' _]|_]; [congruence | reflexivity].
Qed.

(** X7.  A conversation of another company cannot be closed, reopened or
    assigned over HTTP: the answer is 404 and the world stays as it was. *)
Theorem routes_keep_to_the_company (reqUser : User) (agentId : option nat)
    (conversationId : nat) (w : World) :
  healthy w ->
  (forall c, c ∈ conversations (db w) -> conv_id c = conversationId ->
             conv_companyId c <> user_companyId reqUser) ->
  close reqUser conversationId w
  = (Ok {| res_status := 404; res_body := "Conversa não encontrada" |}, w)
  /\ reopen reqUser conversationId w
     = (Ok {| res_status := 404; res_body := "Conversa não encontrada" |}, w)
  /\ assign reqUser agentId conversationId w
     = (Ok {| res_status := 404; res_body := "Conversa não encontrada" |}, w).
Proof.
  intros Hh Hother.
  pose proof (findUnique_other_company _ _ _ Hother) as Hnone.
  unfold close, reopen, assign, tryCatch, bind.
  rewrite (query_healthy _ w Hh), Hnone. auto.
Qed.

(** X8.  Closing over HTTP: on a store that answers, a conversation of the
    requester's company ends CLOSED with no active assignment, and the
    assignments of the other conversations are as before. *)
Theorem close_deactivates_all (reqUser : User) (conversationId : nat)
    (c : Conversation) (w : World) :
  healthy w ->
  conversation_findUnique conversationId (user_companyId reqUser) (db w)
    = Some c ->
  let w' := snd (close reqUser conversationId w) in
  fst (close reqUser conversationId w)
  = Ok {| res_status := 200; res_body := "Conversa fechada com sucesso" |}
  /\ activeAssignments conversationId (db w') = []
  /\ (forall r, r ∈ conversations (db w') -> conv_id r = conversationId ->
                conv_status r = CLOSED)
  /\ (forall other, other <> conversationId ->
                    activeAssignments other (db w')
                    = activeAssignments other (db w)).
Proof.
  intros Hh Hc.
  assert (Hhas : hasConversation conversationId (db w) = true).
  { unfold conversation_findUnique in Hc. apply find_some in Hc as [Hin Hp].
    apply bool_decide_eq_true in Hp as [Hi _]. subst conversationId.
    apply hasConversation_elem, list_elem_of_In, Hin. }
  remember (close reqUser conversationId w) as run eqn:Hrun.
  unfold close, tryCatch, bind in Hrun.
  rewrite (query_healthy _ w Hh), Hc in Hrun.
  rewrite (update_healthy _ w Hh) in Hrun.
  unfold conversation_update in Hrun. rewrite Hhas in Hrun.
  cbn [fst snd] in Hrun.
  set (w1 := set_db _ w) in Hrun. assert (Hh1 : healthy w1) by exact Hh.
  rewrite (mutate_healthy _ w1 Hh1) in Hrun. cbn [fst snd] in Hrun.
  unfold notifyCompany in Hrun. cbn [io set_db] in Hrun.
  subst run. change (io w1) with (io w). destruct (io w); simpl;
    (split; [reflexivity|]); (split; [apply deactivate_leaves_none|]);
    (split; [intros r; apply status_after_update
            | intros other Hne; rewrite (deactivate_keeps_others _ _ _ Hne);
              reflexivity]).
Qed.

Lemma findUnique_of_row (c : Conversation) (d : DB) :
  c ∈ conversations d ->
  exists c', conversation_findUnique (conv_id c) (conv_companyId c) d = Some c'.
Proof.
  intros Hin. unfold conversation_findUnique.
  destruct (find _ (conversations d)) as [c'|] eqn:Hf; [eauto|].
  pose proof (find_none _ _ Hf c (proj1 (list_elem_of_In _ _) Hin)) as Hn.
  simpl in Hn. apply bool_decide_eq_false in Hn. tauto.
Qed.

Lemma findUnique_has (id companyId : nat) (c : Conversation) (d : DB) :
  conversation_findUnique id companyId d = Some c ->
  hasConversation id d = true.
Proof.
  unfold conversation_findUnique. intros Hc. apply find_some in Hc as [Hin Hp].
  apply bool_decide_eq_true in Hp as [Hi _]. subst id.
  apply hasConversation_elem, list_elem_of_In, Hin.
Qed.

(** The store after a close or a reopen that found its conversation. *)
Lemma close_run (reqUser : User) (conversationId : nat) (c : Conversation)
    (w : World) :
  healthy w ->
  conversation_findUnique conversationId (user_companyId reqUser) (db w)
    = Some c ->
  healthy (snd (close reqUser conversationId w))
  /\ db (snd (close reqUser conversationId w))
     = conversationAgent_deactivate conversationId
         (with_conversations
            (map (fun r => if bool_decide (conv_id r = conversationId)
                           then set_status CLOSED r else r)
                 (conversations (db w))) (db w)).
Proof.
  intros Hh Hc. pose proof (findUnique_has _ _ _ _ Hc) as Hhas.
  unfold close, tryCatch, bind.
  rewrite (query_healthy _ w Hh), Hc, (update_healthy _ w Hh).
  unfold conversation_update. rewrite Hhas. cbn [fst snd].
  set (w1 := set_db _ w). assert (Hh1 : healthy w1) by exact Hh.
  rewrite (mutate_healthy _ w1 Hh1). cbn [fst snd].
  unfold notifyCompany. change (io (set_db _ w1)) with (io w).
  destruct (io w); simpl; split; solve [exact Hh | reflexivity].
Qed.

Lemma reopen_run (reqUser : User) (conversationId : nat) (c : Conversation)
    (w : World) :
  healthy w ->
  conversation_findUnique conversationId (user_companyId reqUser) (db w)
    = Some c ->
  healthy (snd (reopen reqUser conversationId w))
  /\ db (snd (reopen reqUser conversationId w))
     = with_conversations
         (map (fun r => if bool_decide (conv_id r = conversationId)
                        then set_status PENDING r else r)
              (conversations (db w))) (db w).
Proof.
  intros Hh Hc. pose proof (findUnique_has _ _ _ _ Hc) as Hhas.
  unfold reopen, tryCatch, bind.
  rewrite (query_healthy _ w Hh), Hc, (update_healthy _ w Hh).
  unfold conversation_update. rewrite Hhas. cbn [fst snd].
  unfold notifyCompany. change (io (set_db _ w)) with (io w).
  destruct (io w); simpl; split; solve [exact Hh | reflexivity].
Qed.

Lemma activeFor_elem (d : DB) (contactId companyId : nat) (c : Conversation) :
  c ∈ activeFor d contactId companyId
  <-> c ∈ conversations d /\ conv_contactId c = contactId
      /\ conv_companyId c = companyId
      /\ (conv_status c = OPEN \/ conv_status c = PENDING).
Proof. unfold activeFor. rewrite list_elem_of_filter. tauto. Qed.

(** X9.  After the only active conversation of a (contact, company) pair was
    closed, the next inbound message of the contact opens a new
    conversation: it has another id, it is OPEN, and it is then the only
    active one of the pair. *)
Theorem closed_conversation_gets_a_successor (reqUser : User) (e : Arrival)
    (contactId companyId : nat) (c : Conversation) (w : World) :
  healthy w ->
  activeFor (db w) contactId companyId = [c] ->
  user_companyId reqUser = companyId ->
  (forall r, r ∈ conversations (db w) -> conv_id r < nextId (db w)) ->
  exists c2 w2,
    findOrCreate e contactId companyId (snd (close reqUser (conv_id c) w))
    = (Ok c2, w2)
    /\ conv_id c2 <> conv_id c /\ conv_status c2 = OPEN
    /\ activeFor (db w2) contactId companyId = [c2].
Proof.
  intros Hh Hact Hco Hids.
  assert (Hc : c ∈ activeFor (db w) contactId companyId)
    by (rewrite Hact; left).
  apply activeFor_elem in Hc as (Hin & Hct & Hcc & Hst).
  destruct (findUnique_of_row c (db w) Hin) as [c' Hfind].
  rewrite Hcc, <- Hco in Hfind.
  destruct (close_run reqUser (conv_id c) c' w Hh Hfind) as [Hh1 Hdb1].
  set (w1 := snd (close reqUser (conv_id c) w)) in *.
  assert (Hnone : activeFor (db w1) contactId companyId = []).
  { apply elem_of_nil_inv. intros r Hr.
    apply activeFor_elem in Hr as (Hr & Hrt & Hrc & Hrs).
    rewrite Hdb1 in Hr. simpl in Hr.
    apply list_elem_of_fmap in Hr as (r0 & -> & Hr0).
    case_bool_decide as Hid.
    - simpl in Hrs. destruct Hrs; discriminate.
    - assert (Hr0' : r0 ∈ activeFor (db w) contactId companyId)
        by (apply activeFor_elem; auto).
      rewrite Hact in Hr0'. apply list_elem_of_singleton in Hr0'. congruence. }
  assert (Hnext : nextId (db w1) = nextId (db w)) by (rewrite Hdb1; reflexivity).
  assert (Hnew : forall channel channels,
             let c2 := fst (conversation_create contactId companyId OPEN
                                                channel channels (db w1)) in
             conv_id c2 <> conv_id c /\ conv_status c2 = OPEN
             /\ activeFor (snd (conversation_create contactId companyId OPEN
                                                    channel channels (db w1)))
                          contactId companyId = [c2]).
  { intros channel channels c2. split; [|split; [reflexivity|]].
    - unfold c2. simpl. rewrite Hnext. specialize (Hids c Hin). lia.
    - rewrite activeFor_create, Hnone. reflexivity. }
  destruct e as [|channel]; simpl.
  - unfold WhatsApp.findOrCreateConversation, bind.
    rewrite (query_healthy _ w1 Hh1), findFirst_head, Hnone.
    unfold head; cbv beta iota. rewrite (mutate_healthy _ w1 Hh1).
    eexists _, _. split; [reflexivity|]. apply Hnew.
  - unfold Omnichannel.findOrCreateUnifiedConversation, tryCatch, bind.
    rewrite (query_healthy _ w1 Hh1), findFirst_head, Hnone.
    unfold head; cbv beta iota. rewrite (mutate_healthy _ w1 Hh1).
    eexists _, _. split; [reflexivity|]. apply Hnew.
Qed.

(** X10.  Reopening does not look at the other conversations of the pair: when
    a closed conversation is reopened while another one is active, both
    are active afterwards, and the reopened one is PENDING. *)
Theorem reopen_makes_a_second_active (reqUser : User)
    (contactId companyId : nat) (old current : Conversation) (w : World) :
  healthy w ->
  current ∈ activeFor (db w) contactId companyId ->
  old ∈ conversations (db w) ->
  conv_contactId old = contactId -> conv_companyId old = companyId ->
  conv_id old <> conv_id current ->
  user_companyId reqUser = companyId ->
  let w' := snd (reopen reqUser (conv_id old) w) in
  set_status PENDING old ∈ activeFor (db w') contactId companyId
  /\ current ∈ activeFor (db w') contactId companyId
  /\ ~ singleActive (db w') contactId companyId.
Proof.
  intros Hh Hcur Hold Hct Hcc Hne Hco w'.
  destruct (findUnique_of_row old (db w) Hold) as [c' Hfind].
  rewrite Hcc, <- Hco in Hfind.
  destruct (reopen_run reqUser (conv_id old) c' w Hh Hfind) as [_ Hdb].
  fold w' in Hdb.
  apply activeFor_elem in Hcur as (Hcin & Hc1 & Hc2 & Hc3).
  assert (H1 : set_status PENDING old ∈ activeFor (db w') contactId companyId).
  { apply activeFor_elem. rewrite Hdb. simpl.
    split; [|auto]. apply list_elem_of_fmap. exists old.
    split; [|exact Hold]. rewrite bool_decide_eq_true_2; reflexivity. }
  assert (H2 : current ∈ activeFor (db w') contactId companyId).
  { apply activeFor_elem. rewrite Hdb. simpl.
    split; [|auto]. apply list_elem_of_fmap. exists current.
    split; [|exact Hcin]. rewrite bool_decide_eq_false_2; [reflexivity|].
    congruence. }
  split; [exact H1|]. split; [exact H2|].
  unfold singleActive. intros Hlen.
  destruct (activeFor (db w') contactId companyId) as [|x [|y l]];
    [inversion H1 | | simpl in Hlen; lia].
  apply list_elem_of_singleton in H1. apply list_elem_of_singleton in H2.
  subst x. apply Hne. rewrite H2. reflexivity.
Qed.

End LifecycleFacts.


Section ManualAssignment.
Import Store Runtime Routes Socket Lifecycle.

#[local] Arguments activeAssignments : simpl never.

(** X11.  Assigning over HTTP replaces the assignee: on a store that answers,
    for a conversation of the requester's company and an ACTIVE user of
    that company, the new assignment is the only active one of the
    conversation, the conversation is OPEN, and the assignments of the
    other conversations are as before. *)
Theorem assign_replaces_the_assignee (reqUser agent : User)
    (agentId : option nat) (conversationId : nat) (c : Conversation)
    (w : World) :
  healthy w ->
  conversation_findUnique conversationId (user_companyId reqUser) (db w)
    = Some c ->
  user_findUnique_active (default (user_id reqUser) agentId)
                         (user_companyId reqUser) (db w) = Some agent ->
  let w' := snd (assign reqUser agentId conversationId w) in
  fst (assign reqUser agentId conversationId w)
  = Ok {| res_status := 200; res_body := "Conversa atribuída com sucesso" |}
  /\ activeAssignments conversationId (db w')
     = [{| ca_id := nextId (db w); ca_userId := user_id agent;
           ca_conversationId := conversationId; ca_isActive := true |}]
  /\ (forall r, r ∈ conversations (db w') -> conv_id r = conversationId ->
                conv_status r = OPEN)
  /\ (forall other, other <> conversationId ->
                    activeAssignments other (db w')
                    = activeAssignments other (db w)).
Proof.
  intros Hh Hc Ha.
  pose proof (findUnique_has _ _ _ _ Hc) as Hhas.
  remember (assign reqUser agentId conversationId w) as run eqn:Hrun.
  unfold assign, tryCatch, bind in Hrun.
  rewrite (query_healthy _ w Hh), Hc, (query_healthy _ w Hh), Ha in Hrun.
  rewrite (mutate_healthy _ w Hh) in Hrun. cbn [fst snd] in Hrun.
  set (w1 := set_db _ w) in Hrun. assert (Hh1 : healthy w1) by exact Hh.
  rewrite (mutate_healthy _ w1 Hh1) in Hrun. cbn [fst snd] in Hrun.
  set (w2 := set_db _ w1) in Hrun. assert (Hh2 : healthy w2) by exact Hh.
  rewrite (update_healthy _ w2 Hh2) in Hrun.
  unfold conversation_update in Hrun.
  assert (Hhas2 : hasConversation conversationId (db w2) = true) by exact Hhas.
  rewrite Hhas2 in Hrun. cbn [fst snd] in Hrun.
  unfold notifyCompany in Hrun. subst run.
  change (io (set_db _ w2)) with (io w).
  assert (Hact : activeAssignments conversationId (db w2)
                 = [{| ca_id := nextId (db w); ca_userId := user_id agent;
                       ca_conversationId := conversationId;
                       ca_isActive := true |}]).
  { unfold w2. rewrite db_set_db, create_adds_one. unfold w1.
    rewrite db_set_db. cbn [snd]. rewrite deactivate_leaves_none.
    reflexivity. }
  assert (Hothers : forall other, other <> conversationId ->
             activeAssignments other (db w2) = activeAssignments other (db w)).
  { intros other Hne. unfold w2. rewrite db_set_db.
    unfold activeAssignments, conversationAgent_create. cbn [snd].
    cbn [conversationAgents with_conversationAgents bump].
    rewrite filter_app, filter_cons, filter_nil.
    destruct (decide _) as [[Hx _]|_]; [simpl in Hx; congruence|].
    rewrite app_nil_r. unfold w1. rewrite db_set_db. cbn [snd].
    apply (deactivate_keeps_others _ _ _ Hne). }
  destruct (io w); simpl;
    (split; [reflexivity|]); (split; [exact Hact|]);
    (split; [intros r; apply status_after_update | exact Hothers]).
Qed.

(** X12.  Taking a conversation over the socket: on a store that answers, a
    conversation of the user's company without an active assignment gets
    the user as its only active assignee and is OPEN; one that has an
    active assignment is refused, the caller is told and nothing changes
    in the store. *)
Theorem take_assigns_or_refuses (user : User) (conversationId : nat)
    (c : Conversation) (w : World) :
  healthy w ->
  conversation_findUnique conversationId (user_companyId user) (db w)
    = Some c ->
  let w' := snd (conversationTake user conversationId w) in
  match activeAssignments conversationId (db w) with
  | [] =>
      activeAssignments conversationId (db w')
      = [{| ca_id := nextId (db w); ca_userId := user_id user;
            ca_conversationId := conversationId; ca_isActive := true |}]
      /\ (forall r, r ∈ conversations (db w') -> conv_id r = conversationId ->
                    conv_status r = OPEN)
      /\ emitted w'
         = emitted w
           ++ [{| ev_to := Company (user_companyId user);
                  ev_name := "conversation:assigned";
                  ev_subject := conversationId;
                  ev_agent := Some (user_id user) |};
               {| ev_to := Caller; ev_name := "conversation:taken";
                  ev_subject := conversationId; ev_agent := None |}]
  | _ :: _ =>
      db w' = db w
      /\ emitted w'
         = emitted w ++ [{| ev_to := Caller; ev_name := "error";
                            ev_subject := conversationId;
                            ev_agent := None |}]
  end.
Proof.
  intros Hh Hc.
  pose proof (findUnique_has _ _ _ _ Hc) as Hhas.
  remember (conversationTake user conversationId w) as run eqn:Hrun.
  unfold conversationTake, tryCatch, bind in Hrun.
  rewrite (query_healthy _ w Hh) in Hrun.
  unfold conversation_findUnique_agents in Hrun. rewrite Hc in Hrun.
  destruct (activeAssignments conversationId (db w)) as [|a l] eqn:Hact.
  - change ((0 <? length (@nil ConversationAgent))%nat) with false in Hrun.
    cbv beta iota in Hrun.
    rewrite (mutate_healthy _ w Hh) in Hrun. cbn [fst snd] in Hrun.
    set (w1 := set_db _ w) in Hrun. assert (Hh1 : healthy w1) by exact Hh.
    rewrite (update_healthy _ w1 Hh1) in Hrun.
    unfold conversation_update in Hrun.
    assert (Hhas1 : hasConversation conversationId (db w1) = true)
      by exact Hhas.
    rewrite Hhas1 in Hrun. cbn [fst snd] in Hrun.
    assert (Hact1 : activeAssignments conversationId (db w1)
                    = [{| ca_id := nextId (db w); ca_userId := user_id user;
                          ca_conversationId := conversationId;
                          ca_isActive := true |}]).
    { unfold w1. rewrite db_set_db, create_adds_one, Hact. reflexivity. }
    subst run. simpl. split; [exact Hact1|].
    split; [intros r; apply status_after_update|].
    rewrite <- app_assoc. reflexivity.
  - change ((0 <? length (a :: l))%nat) with true in Hrun.
    cbv beta iota in Hrun. subst run. simpl. auto.
Qed.

(** X13.  Closing over the socket is bound to the user's company: on a store
    that answers, a conversation of the company ends CLOSED with no active
    assignment; for any other id the update is rejected, the caller is
    told, and no row changes, not even an assignment. *)
Theorem socket_close_keeps_to_the_company (user : User)
    (conversationId : nat) (w : World) :
  healthy w ->
  let w' := snd (conversationClose user conversationId w) in
  match conversation_findUnique conversationId (user_companyId user) (db w)
  with
  | Some _ =>
      activeAssignments conversationId (db w') = []
      /\ (forall r, r ∈ conversations (db w') ->
                    conv_id r = conversationId ->
                    conv_companyId r = user_companyId user ->
                    conv_status r = CLOSED)
  | None =>
      db w' = db w
      /\ emitted w'
         = emitted w ++ [{| ev_to := Caller; ev_name := "error";
                            ev_subject := conversationId;
                            ev_agent := None |}]
  end.
Proof.
  intros Hh.
  remember (conversationClose user conversationId w) as run eqn:Hrun.
  unfold conversationClose, tryCatch, bind in Hrun.
  rewrite (update_healthy _ w Hh) in Hrun.
  unfold conversation_update_within in Hrun.
  destruct (conversation_findUnique conversationId (user_companyId user) (db w))
    as [c|]; cbn [fst snd] in Hrun.
  - set (w1 := set_db _ w) in Hrun. assert (Hh1 : healthy w1) by exact Hh.
    rewrite (mutate_healthy _ w1 Hh1) in Hrun. cbn [fst snd] in Hrun.
    subst run. simpl. split; [apply deactivate_leaves_none|].
    intros r Hr Hid Hco. apply list_elem_of_fmap in Hr as (r0 & -> & _).
    case_bool_decide as Hb; [reflexivity|]. tauto.
  - subst run. simpl. auto.
Qed.

End ManualAssignment.

(* ===================================================================== *)
(** * Campaign accounting *)
(* ===================================================================== *)

Section CampaignAccounting.
Import Store Runtime CampaignService Accounting.

Lemma counted_refl (r : Results) : counted 0 r r.
Proof. unfold counted. lia. Qed.

Lemma counted_trans (n m : nat) (a b c : Results) :
  counted n a b -> counted m b c -> counted (n + m) a c.
Proof. unfold counted. lia. Qed.

Lemma counted_sent1 (r : Results) : counted 1 r (sent1 r).
Proof. unfold counted, sent1. simpl. lia. Qed.

Lemma counted_failed1 (phone : string) (r : Results) :
  counted 1 r (failed1 phone r).
Proof. unfold counted, failed1. simpl. rewrite length_app. simpl. lia. Qed.

Lemma sendToRecipient_counts (others : Interleaving) (campaign : Campaign)
    (whatsappAccount index : nat) (results : Results) (recipient : Recipient)
    (w : World) :
  exists r' w',
    sendToRecipient others campaign whatsappAccount index results recipient w
    = (Ok r', w')
    /\ counted 1 results r'.
Proof.
  unfold sendToRecipient, tryCatch.
  match goal with
  | |- context [bind ?m ?k w] => destruct (bind m k w) as [[r'|e] w'] eqn:Hrun
  end.
  - eexists _, _. split; [reflexivity|].
    unfold bind in Hrun.
    repeat match type of Hrun with
           | context [match ?x with _ => _ end] => destruct x; try discriminate
           end.
    unfold ret in Hrun. injection Hrun as <- _. apply counted_sent1.
  - unfold bind, logger, ret. eexists _, _. split; [reflexivity|].
    apply counted_failed1.
Qed.

(** X14.  A failure for one recipient never stops the batch: whatever the store,
    the channel and the other handlers do, [sendBatch] returns normally and
    has counted every recipient of the batch exactly once, as sent and
    delivered or as failed with one error line. *)
Theorem batch_counts_every_recipient (others : Interleaving)
    (campaign : Campaign) (whatsappAccount index : nat) (results : Results)
    (batch : list Recipient) (w : World) :
  exists r' w',
    sendBatch others campaign whatsappAccount index results batch w
    = (Ok r', w')
    /\ counted (length batch) results r'.
Proof.
  revert index results w.
  induction batch as [|recipient rest IH]; intros index results w.
  - eexists _, _. split; [reflexivity | apply counted_refl].
  - simpl. unfold bind.
    destruct (sendToRecipient_counts others campaign whatsappAccount index
                results recipient w) as (r1 & w1 & Hrun & Hc1).
    rewrite Hrun.
    destruct (IH (S index) r1 w1) as (r2 & w2 & Hrun2 & Hc2).
    rewrite Hrun2. eexists _, _. split; [reflexivity|].
    exact (counted_trans 1 (length rest) _ _ _ Hc1 Hc2).
Qed.

Lemma sendToRecipient_healthy (campaign : Campaign)
    (whatsappAccount index : nat) (results : Results) (recipient : Recipient)
    (w : World) :
  healthy w ->
  exists r' w',
    sendToRecipient quiet campaign whatsappAccount index results recipient w
    = (Ok r', w')
    /\ healthy w' /\ campaigns (db w') = campaigns (db w)
    /\ runningCampaigns w' = runningCampaigns w
    /\ counted 1 results r'
    /\ length (outbox w') + res_sent results
       = length (outbox w) + res_sent r'.
Proof.
  intros Hh. unfold sendToRecipient, tryCatch.
  unfold bind at 1. rewrite (query_healthy _ w Hh).
  unfold bind at 1.
  assert (Hcontact : exists contact w1,
             match contact_findUnique (rcp_phone recipient) (db w) with
             | Some c => ret c
             | None => mutate (contact_create (rcp_phone recipient))
             end w = (Ok contact, w1)
             /\ healthy w1 /\ campaigns (db w1) = campaigns (db w)
             /\ runningCampaigns w1 = runningCampaigns w
             /\ outbox w1 = outbox w /\ channelFaults w1 = channelFaults w).
  { destruct (contact_findUnique _ _).
    - eexists _, _. split; [reflexivity|]. auto.
    - rewrite (mutate_healthy _ w Hh). eexists _, _.
      split; [reflexivity|]. simpl. auto. }
  destruct Hcontact as (contact & w1 & -> & Hh1 & Hc1 & Hg1 & Ho1 & Hf1).
  unfold bind at 1. rewrite (query_healthy _ w1 Hh1).
  unfold bind at 1.
  assert (Hconv : exists conversation w2,
             match conversation_findFirst (contact_id contact)
                     (camp_companyId campaign) (db w1) with
             | Some c => ret c
             | None => mutate (conversation_create (contact_id contact)
                                 (camp_companyId campaign) OPEN "WHATSAPP"
                                 None)
             end w1 = (Ok conversation, w2)
             /\ healthy w2 /\ campaigns (db w2) = campaigns (db w1)
             /\ runningCampaigns w2 = runningCampaigns w1
             /\ outbox w2 = outbox w1 /\ channelFaults w2 = channelFaults w1).
  { destruct (conversation_findFirst _ _ _).
    - eexists _, _. split; [reflexivity|]. auto.
    - rewrite (mutate_healthy _ w1 Hh1). eexists _, _.
      split; [reflexivity|]. simpl. auto. }
  destruct Hconv as (conversation & w2 & -> & Hh2 & Hc2 & Hg2 & Ho2 & Hf2).
  unfold bind at 1. unfold sendMessage.
  destruct (nextFault (channelFaults w2)) as [[|] rest].
  - unfold logger, bind, ret. eexists _, _. split; [reflexivity|]. simpl.
    split; [exact Hh2|]. split; [congruence|]. split; [congruence|].
    split; [apply counted_failed1|]. rewrite Ho2, Ho1. lia.
  - unfold bind at 1.
    set (w3 := set_outbox _ _). assert (Hh3 : healthy w3) by exact Hh2.
    rewrite (mutate_healthy _ w3 Hh3). cbn [fst snd].
    unfold bind, delay, quiet, ret. eexists _, _. split; [reflexivity|].
    cbn [snd]. split; [exact Hh2|].
    split; [simpl; congruence|]. split; [simpl; congruence|].
    split; [apply counted_sent1|].
    simpl. rewrite length_app, Ho2, Ho1. simpl. lia.
Qed.

Lemma sendBatch_healthy (campaign : Campaign) (whatsappAccount : nat)
    (batch : list Recipient) (index : nat) (results : Results) (w : World) :
  healthy w ->
  exists r' w',
    sendBatch quiet campaign whatsappAccount index results batch w
    = (Ok r', w')
    /\ healthy w' /\ campaigns (db w') = campaigns (db w)
    /\ runningCampaigns w' = runningCampaigns w
    /\ counted (length batch) results r'
    /\ length (outbox w') + res_sent results
       = length (outbox w) + res_sent r'.
Proof.
  revert index results w.
  induction batch as [|recipient rest IH]; intros index results w Hh.
  - eexists _, _. split; [reflexivity|].
    repeat (split; [auto using counted_refl|]). lia.
  - simpl. unfold bind.
    destruct (sendToRecipient_healthy campaign whatsappAccount index results
                recipient w Hh)
      as (r1 & w1 & -> & Hh1 & Hc1 & Hg1 & Hn1 & Ho1).
    destruct (IH (S index) r1 w1 Hh1)
      as (r2 & w2 & -> & Hh2 & Hc2 & Hg2 & Hn2 & Ho2).
    eexists _, _. split; [reflexivity|].
    split; [exact Hh2|]. split; [congruence|]. split; [congruence|].
    split; [exact (counted_trans 1 (length rest) _ _ _ Hn1 Hn2)|]. lia.
Qed.

Lemma slice_length {A} (l : list A) (i k : nat) :
  length (JS.slice l i (i + k)) = Nat.min k (length l - i).
Proof.
  unfold JS.slice. rewrite length_take, length_drop.
  replace (i + k - i) with k by lia. reflexivity.
Qed.

Lemma campaign_update_found (id : nat) (f : Campaign -> Campaign) (d : DB) :
  (forall c, camp_id (f c) = camp_id c) ->
  is_Some (campaign_findUnique id d) ->
  fst (campaign_update id f d) = Ok tt
  /\ campaign_findUnique id (snd (campaign_update id f d))
     = option_map f (campaign_findUnique id d).
Proof.
  intros Hf [c Hc]. unfold campaign_update. rewrite Hc. simpl.
  split; [reflexivity|]. unfold campaign_findUnique in *. simpl.
  rewrite (find_after_update id f (campaigns d) Hf), Hc. reflexivity.
Qed.

Lemma batches_healthy (campaign : Campaign) (whatsappAccount : nat)
    (turns i : nat) (results : Results) (w : World) :
  length (camp_recipients campaign) - i <= turns ->
  healthy w ->
  is_Some (runningCampaigns w !! camp_id campaign) ->
  is_Some (campaign_findUnique (camp_id campaign) (db w)) ->
  exists r' w',
    batches turns quiet campaign whatsappAccount i results w = (Ok r', w')
    /\ healthy w'
    /\ is_Some (campaign_findUnique (camp_id campaign) (db w'))
    /\ runningCampaigns w' = runningCampaigns w
    /\ counted (length (camp_recipients campaign) - i) results r'
    /\ length (outbox w') + res_sent results
       = length (outbox w) + res_sent r'.
Proof.
  revert i results w.
  induction turns as [|turns IH]; intros i results w Ht Hh Hreg Hrow.
  - simpl. eexists _, _. split; [reflexivity|].
    replace (length (camp_recipients campaign) - i) with 0 by lia.
    repeat (split; [auto using counted_refl|]). lia.
  - simpl. destruct (Nat.ltb_spec i (length (camp_recipients campaign)))
      as [Hlt|Hge].
    + rewrite (bool_decide_eq_true_2 _ Hreg). cbn [negb].
      unfold bind at 1.
      destruct (sendBatch_healthy campaign whatsappAccount
                  (JS.slice (camp_recipients campaign) i (i + batchSize))
                  i results w Hh)
        as (r1 & w1 & -> & Hh1 & Hc1 & Hg1 & Hn1 & Ho1).
      rewrite slice_length in Hn1.
      assert (Hrow1 : is_Some (campaign_findUnique (camp_id campaign) (db w1))).
      { unfold campaign_findUnique in *. rewrite Hc1. exact Hrow. }
      unfold bind at 1. rewrite (update_healthy _ w1 Hh1).
      destruct (campaign_update_found (camp_id campaign)
                  (set_campaign_results r1) (db w1) ltac:(reflexivity) Hrow1)
        as [Hok Hfind].
      destruct (campaign_update _ _ (db w1)) as [ru d2]. simpl in Hok, Hfind.
      subst ru. cbn [fst snd].
      set (w2 := set_db d2 w1).
      assert (Hrow2 : is_Some (campaign_findUnique (camp_id campaign) (db w2))).
      { unfold w2. simpl. rewrite Hfind. destruct Hrow1 as [c ->].
        eexists; reflexivity. }
      assert (Hnext : exists w3,
                 (notifyCompany (camp_companyId campaign) "campaign:progress"
                                (camp_id campaign) None >>
                  (if (i + batchSize <? length (camp_recipients campaign))%nat
                   then delay quiet (BeforeBatch (i + batchSize))
                   else ret tt) >>
                  batches turns quiet campaign whatsappAccount (i + batchSize)
                          r1) w2
                 = batches turns quiet campaign whatsappAccount (i + batchSize)
                           r1 w3
                 /\ healthy w3 /\ db w3 = db w2
                 /\ runningCampaigns w3 = runningCampaigns w2
                 /\ outbox w3 = outbox w2).
      { unfold bind, notifyCompany, delay, quiet, ret, emit.
        destruct (io w2);
          destruct (i + batchSize <? length (camp_recipients campaign))%nat;
          eexists; (split; [reflexivity|]); simpl; auto. }
      destruct Hnext as (w3 & -> & Hh3 & Hdb3 & Hg3 & Ho3).
      rewrite <- Hdb3 in Hrow2.
      assert (Hreg3 : is_Some (runningCampaigns w3 !! camp_id campaign)).
      { rewrite Hg3. unfold w2. simpl. rewrite Hg1. exact Hreg. }
      destruct (IH (i + batchSize) r1 w3 ltac:(unfold batchSize; lia)
                  Hh3 Hreg3 Hrow2)
        as (r' & w' & -> & Hh' & Hrow' & Hg' & Hn' & Ho').
      eexists _, _. split; [reflexivity|].
      split; [exact Hh'|]. split; [exact Hrow'|].
      split; [rewrite Hg', Hg3; unfold w2; simpl; exact Hg1|].
      unfold batchSize in *. split.
      * replace (length (camp_recipients campaign) - i)
          with (Nat.min 10 (length (camp_recipients campaign) - i)
                + (length (camp_recipients campaign) - (i + 10))) by lia.
        exact (counted_trans _ _ _ _ _ Hn1 Hn').
      * rewrite Ho3 in Ho'. unfold w2 in Ho'. simpl in Ho'.
        unfold counted in Hn1. lia.
    + eexists _, _. split; [reflexivity|].
      replace (length (camp_recipients campaign) - i) with 0 by lia.
      repeat (split; [auto using counted_refl|]). lia.
Qed.

(** X15.  A campaign that nobody cancels, on a store that answers: whatever the
    channel does, [processCampaign] ends with status SENT, has counted
    every recipient exactly once as sent or as failed, has handed to the
    channel exactly as many messages as it counts as sent, and has left
    the registry of running campaigns. *)
Theorem campaign_accounts_for_every_recipient (campaign : Campaign)
    (whatsappAccount : nat) (w : World) :
  healthy w ->
  is_Some (campaign_findUnique (camp_id campaign) (db w)) ->
  let w' := snd (processCampaign quiet campaign whatsappAccount w) in
  exists stored,
    campaign_findUnique (camp_id campaign) (db w') = Some stored
    /\ camp_status stored = SENT
    /\ res_sent (camp_results stored) + res_failed (camp_results stored)
       = res_sent (camp_results campaign) + res_failed (camp_results campaign)
         + length (camp_recipients campaign)
    /\ length (outbox w') + res_sent (camp_results campaign)
       = length (outbox w) + res_sent (camp_results stored)
    /\ runningCampaigns w' !! camp_id campaign = None.
Proof.
  intros Hh Hrow.
  remember (processCampaign quiet campaign whatsappAccount w) as run eqn:Hrun.
  unfold processCampaign, tryFinally, tryCatch in Hrun.
  set (w0 := set_runningCampaigns _ w) in Hrun.
  assert (Hh0 : healthy w0) by exact Hh.
  unfold bind at 1 in Hrun. unfold logger at 1 in Hrun.
  unfold bind at 1 in Hrun.
  set (w1 := set_logs _ w0) in Hrun.
  assert (Hstart : exists w2,
             notifyCompany (camp_companyId campaign) "campaign:started"
                           (camp_id campaign) None w1 = (Ok tt, w2)
             /\ healthy w2 /\ db w2 = db w
             /\ runningCampaigns w2 = runningCampaigns w0
             /\ outbox w2 = outbox w).
  { unfold notifyCompany, emit. destruct (io w1); eexists;
      (split; [reflexivity|]); simpl; auto. }
  destruct Hstart as (w2 & Hn & Hh2 & Hdb2 & Hg2 & Ho2).
  rewrite Hn in Hrun. unfold bind at 1 in Hrun.
  assert (Hreg2 : is_Some (runningCampaigns w2 !! camp_id campaign)).
  { rewrite Hg2. unfold w0. simpl. rewrite lookup_insert_eq.
    eexists; reflexivity. }
  assert (Hrow2 : is_Some (campaign_findUnique (camp_id campaign) (db w2)))
    by (rewrite Hdb2; exact Hrow).
  destruct (batches_healthy campaign whatsappAccount
              (length (camp_recipients campaign)) 0 (camp_results campaign)
              w2 ltac:(lia) Hh2 Hreg2 Hrow2)
    as (r' & w3 & Hb & Hh3 & Hrow3 & Hg3 & Hn3 & Ho3).
  rewrite Hb in Hrun. unfold bind at 1 in Hrun.
  rewrite (update_healthy _ w3 Hh3) in Hrun.
  destruct (campaign_update_found (camp_id campaign)
              (fun c => set_campaign_results r' (set_campaign_status SENT c))
              (db w3) ltac:(reflexivity) Hrow3) as [Hok Hfind].
  destruct (campaign_update _ _ (db w3)) as [ru d4]. simpl in Hok, Hfind.
  subst ru. cbn [fst snd] in Hrun.
  destruct Hrow3 as [c3 Hc3]. rewrite Hc3 in Hfind. simpl in Hfind.
  exists (set_campaign_results r' (set_campaign_status SENT c3)).
  unfold counted in Hn3. rewrite Nat.sub_0_r in Hn3. rewrite Ho2 in Ho3.
  unfold notifyCompany, bind, logger, emit in Hrun. cbn [io set_db] in Hrun.
  subst run.
  destruct (io w3); cbn; rewrite Hfind;
    (split; [reflexivity|]); (split; [reflexivity|]);
    (split; [cbn; lia|]); (split; [cbn; lia|]); apply lookup_delete_eq.
Qed.

End CampaignAccounting.



Section CampaignCancellation.
Import Store Runtime CampaignService.

(** X16.  [cancelCampaign] acts only on a campaign that is SENDING: on a store
    that answers it then takes the id out of the registry and writes
    CANCELLED; for an unknown id or any other status it rejects, and only
    the log changes. *)
Theorem cancel_only_while_sending (campaignId : nat) (w : World) :
  healthy w ->
  match campaign_findUnique campaignId (db w) with
  | None =>
      cancelCampaign campaignId w
      = (Throw (Rejected "Campanha não encontrada"),
         set_logs (logs w ++ ["Error cancelling campaign:"]) w)
  | Some c =>
      if bool_decide (camp_status c = SENDING)
      then fst (cancelCampaign campaignId w)
           = Ok "Campanha cancelada com sucesso"
           /\ runningCampaigns (snd (cancelCampaign campaignId w))
              !! campaignId = None
           /\ option_map camp_status
                (campaign_findUnique campaignId
                   (db (snd (cancelCampaign campaignId w))))
              = Some CANCELLED
      else cancelCampaign campaignId w
           = (Throw (Rejected "Apenas campanhas em envio podem ser canceladas"),
              set_logs (logs w ++ ["Error cancelling campaign:"]) w)
  end.
Proof.
  intros Hh.
  destruct (campaign_findUnique campaignId (db w)) as [c|] eqn:Hc.
  - case_bool_decide as Hs.
    + exact (cancelCampaign_effect campaignId c w Hh Hc Hs).
    + unfold cancelCampaign, tryCatch, bind.
      rewrite (query_healthy _ w Hh), Hc.
      rewrite (bool_decide_eq_true_2 _ Hs). reflexivity.
  - unfold cancelCampaign, tryCatch, bind.
    rewrite (query_healthy _ w Hh), Hc. reflexivity.
Qed.

End CampaignCancellation.

(* ===================================================================== *)
(** * Presence: what the two maps keep *)
(* ===================================================================== *)

Section PresenceInvariant.
Import Presence Connections.

Lemma addUser_lookup (u s u' : string) (p : PresenceManager) :
  userSockets (addUser u s p) !! u'
  = if decide (u' = u)
    then Some (default ∅ (userSockets p !! u) ∪ {[s]})
    else userSockets p !! u'.
Proof.
  unfold addUser; cbn [userSockets].
  destruct (userSockets p !! u) as [S|] eqn:E; destruct (decide (u' = u)) as [->|Hne].
  - rewrite lookup_alter_eq, E. reflexivity.
  - rewrite lookup_alter_ne by congruence. reflexivity.
  - rewrite lookup_alter_eq, lookup_insert_eq. reflexivity.
  - rewrite lookup_alter_ne, lookup_insert_ne by congruence. reflexivity.
Qed.

Lemma removeUser_lookup (s u : string) (S : gset string) (p : PresenceManager) :
  socketUsers p !! s = Some u -> truthy u = true ->
  userSockets p !! u = Some S ->
  fst (removeUser s p) = Some u
  /\ socketUsers (snd (removeUser s p)) = delete s (socketUsers p)
  /\ forall u', userSockets (snd (removeUser s p)) !! u'
       = if decide (u' = u)
         then (if decide (size (S ∖ {[s]}) = 0) then None else Some (S ∖ {[s]}))
         else userSockets p !! u'.
Proof.
  intros Hs Ht Hu. unfold removeUser. rewrite Hs, Ht, Hu. cbn [fst snd userSockets socketUsers].
  split; [reflexivity|]. split; [reflexivity|].
  intros u'. destruct (decide (size (S ∖ {[s]}) = 0)); destruct (decide (u' = u)) as [->|Hne].
  - apply lookup_delete_eq.
  - apply lookup_delete_ne; congruence.
  - apply lookup_insert_eq.
  - apply lookup_insert_ne; congruence.
Qed.

Lemma removeUser_unregistered (s : string) (p : PresenceManager) :
  socketUsers p !! s = None -> removeUser s p = (None, p).
Proof. intros H. unfold removeUser. rewrite H. reflexivity. Qed.

Lemma consistent_empty : consistent empty.
Proof.
  split; [|split]; cbn.
  - intros u s. rewrite !lookup_empty. split; [|discriminate].
    intros (S & H & _). discriminate.
  - intros u S. rewrite lookup_empty. discriminate.
  - intros s u. rewrite lookup_empty. discriminate.
Qed.

Lemma consistent_addUser (u s : string) (p : PresenceManager) :
  consistent p -> truthy u = true -> socketUsers p !! s = None ->
  consistent (addUser u s p).
Proof.
  intros (Hag & Hne & Htr) Ht Hfresh. split; [|split].
  - intros u' s'. rewrite addUser_lookup.
    change (socketUsers (addUser u s p)) with (<[s := u]> (socketUsers p)).
    destruct (decide (u' = u)) as [->|Hu].
    + destruct (decide (s' = s)) as [->|Hs].
      * rewrite lookup_insert_eq. split; [reflexivity|].
        intros _. eexists; split; [reflexivity|]. set_solver.
      * rewrite lookup_insert_ne by congruence. rewrite <- Hag.
        split.
        -- intros (S & [= <-] & Hin).
           destruct (userSockets p !! u) as [S0|]; cbn in Hin.
           ++ exists S0. split; [reflexivity|]. set_solver.
           ++ set_solver.
        -- intros (S & HS & Hin). rewrite HS. cbn.
           eexists; split; [reflexivity|]. set_solver.
    + destruct (decide (s' = s)) as [->|Hs].
      * rewrite lookup_insert_eq. split.
        -- intros (S & HS & Hin).
           assert (socketUsers p !! s = Some u') as E by (apply Hag; eauto).
           congruence.
        -- intros [= E]. congruence.
      * rewrite lookup_insert_ne by congruence. apply Hag.
  - intros u' S. rewrite addUser_lookup.
    destruct (decide (u' = u)) as [->|Hu].
    + intros [= <-]. set_solver.
    + apply Hne.
  - intros s' u'.
    change (socketUsers (addUser u s p)) with (<[s := u]> (socketUsers p)).
    destruct (decide (s' = s)) as [->|Hs].
    + rewrite lookup_insert_eq. intros [= <-]. exact Ht.
    + rewrite lookup_insert_ne by congruence. apply Htr.
Qed.

Lemma consistent_removeUser (s : string) (p : PresenceManager) :
  consistent p -> consistent (snd (removeUser s p)).
Proof.
  intros Hc. destruct (socketUsers p !! s) as [u|] eqn:Hs.
  2:{ rewrite removeUser_unregistered by exact Hs. exact Hc. }
  destruct Hc as (Hag & Hne & Htr).
  assert (Ht : truthy u = true) by (eapply Htr; eauto).
  destruct (proj2 (Hag u s) Hs) as (S & HS & Hin).
  destruct (removeUser_lookup s u S p Hs Ht HS) as (_ & Hsu & Hus).
  split; [|split].
  - intros u' s'. rewrite Hus, Hsu.
    destruct (decide (s' = s)) as [->|Hs'].
    + rewrite lookup_delete_eq. split; [|discriminate].
      intros (S' & HS' & Hin'). exfalso.
      destruct (decide (u' = u)) as [->|Hu].
      * destruct (decide (size (S ∖ {[s]}) = 0)); [discriminate|].
        injection HS' as <-. set_solver.
      * assert (socketUsers p !! s = Some u') as E by (apply Hag; eauto).
        congruence.
    + rewrite lookup_delete_ne by congruence. rewrite <- Hag.
      destruct (decide (u' = u)) as [->|Hu]; [|reflexivity].
      rewrite HS. destruct (decide (size (S ∖ {[s]}) = 0)) as [Hz|Hz].
      * apply size_empty_inv in Hz. split.
        -- intros (? & [=] & _).
        -- intros (? & [= <-] & Hin'). set_solver.
      * split.
        -- intros (? & [= <-] & Hin'). eexists; split; [reflexivity|]. set_solver.
        -- intros (? & [= <-] & Hin'). eexists; split; [reflexivity|]. set_solver.
  - intros u' S'. rewrite Hus.
    destruct (decide (u' = u)) as [->|Hu]; [|apply Hne].
    destruct (decide (size (S ∖ {[s]}) = 0)) as [Hz|Hz]; [discriminate|].
    intros [= <-]. intros E. rewrite E in Hz. apply Hz. apply size_empty.
  - intros s' u'. rewrite Hsu. intros H.
    apply lookup_delete_Some in H as [_ H]. eapply Htr; eauto.
Qed.

Lemma reachable_consistent (p : PresenceManager) : reachable p -> consistent p.
Proof.
  induction 1.
  - apply consistent_empty.
  - apply consistent_addUser; assumption.
  - apply consistent_removeUser; assumption.
Qed.

Lemma isUserOnline_true (u : string) (p : PresenceManager) :
  isUserOnline u p = true
  <-> exists S, userSockets p !! u = Some S /\ S <> ∅.
Proof.
  unfold isUserOnline. destruct (userSockets p !! u) as [S|].
  - rewrite bool_decide_eq_true. split.
    + intros H. exists S. split; [reflexivity|]. intros ->. rewrite size_empty in H. lia.
    + intros (? & [= <-] & Hne).
      destruct (decide (size S = 0)) as [Hz|Hz]; [|lia].
      apply size_empty_inv in Hz. exfalso. apply Hne. apply leibniz_equiv. exact Hz.
  - split; [discriminate|]. intros (? & [=] & _).
Qed.

(** X17.  In every state the presence manager reaches, a user is reported
    online exactly when a socket is still registered to it, and the list of
    online users is exactly the set of users reported online. *)
Theorem online_iff_a_socket_is_registered (p : PresenceManager) (u : string) :
  reachable p ->
  (isUserOnline u p = true <-> exists s, socketUsers p !! s = Some u)
  /\ (isUserOnline u p = true <-> u ∈ getOnlineUsers p).
Proof.
  intros Hr. destruct (reachable_consistent p Hr) as (Hag & Hne & _).
  rewrite isUserOnline_true. split.
  - split.
    + intros (S & HS & Hn). apply set_choose_L in Hn as [s Hin].
      exists s. apply Hag. eauto.
    + intros (s & Hs). apply Hag in Hs as (S & HS & Hin).
      exists S. split; [exact HS|]. set_solver.
  - unfold getOnlineUsers. rewrite elem_of_elements, elem_of_dom. split.
    + intros (S & HS & _). eauto.
    + intros (S & HS). eauto.
Qed.

(** X18.  A connection followed by its disconnection leaves the presence
    manager as it was, and [removeUser] answers the user of the
    connection. *)
Theorem connect_then_disconnect_restores (p : PresenceManager) (u s : string) :
  reachable p -> truthy u = true -> socketUsers p !! s = None ->
  removeUser s (addUser u s p) = (Some u, p).
Proof.
  intros Hr Ht Hfresh. destruct (reachable_consistent p Hr) as (Hag & Hne & _).
  assert (Hs : socketUsers (addUser u s p) !! s = Some u)
    by apply lookup_insert_eq.
  pose proof (addUser_lookup u s u p) as Hu.
  rewrite decide_True in Hu by reflexivity.
  destruct (removeUser_lookup s u _ _ Hs Ht Hu) as (Hfst & Hsu & Hus).
  destruct (removeUser s (addUser u s p)) as [r p'] eqn:E. cbn [fst snd] in *.
  subst r. f_equal.
  destruct p as [us su], p' as [us' su']. cbn [userSockets socketUsers] in *.
  f_equal.
  - apply map_eq. intros u'. rewrite Hus.
    destruct (decide (u' = u)) as [->|Hne'].
    2:{ rewrite addUser_lookup, decide_False by exact Hne'. reflexivity. }
    destruct (us !! u) as [S|] eqn:HS; cbn.
    + assert (s ∉ S) as Hnin.
      { intros Hin. assert (su !! s = Some u) as E' by (apply Hag; eauto). congruence. }
      assert ((S ∪ {[s]}) ∖ {[s]} = S) as -> by set_solver.
      rewrite decide_False; [reflexivity|].
      intros Hz. apply size_empty_inv in Hz. apply (Hne u S HS). apply leibniz_equiv. exact Hz.
    + assert ((∅ ∪ {[s]}) ∖ {[s]} = (∅ : gset string)) as -> by set_solver.
      rewrite decide_True; [reflexivity|apply size_empty].
  - rewrite Hsu. cbn. rewrite delete_insert_eq. apply delete_id. exact Hfresh.
Qed.

End PresenceInvariant.

(* ===================================================================== *)
(** * Phone numbers: the normal form of [formatPhone] *)
(* ===================================================================== *)

Section PhoneNumbers.
Import Helpers.

Lemma allDigits_stripNonDigits (s : string) :
  allDigits (stripNonDigits s) = true.
Proof.
  induction s as [|c s IH]; [reflexivity|].
  cbn [stripNonDigits]. destruct (isDigit c) eqn:E; [|exact IH].
  cbn [allDigits]. rewrite E, IH. reflexivity.
Qed.

Lemma stripNonDigits_id (s : string) :
  allDigits s = true -> stripNonDigits s = s.
Proof.
  induction s as [|c s IH]; [reflexivity|].
  cbn [allDigits stripNonDigits]. intros H.
  apply andb_true_iff in H as [Hc Hs]. rewrite Hc, IH by exact Hs. reflexivity.
Qed.

Lemma allDigits_substring (n m : nat) (s : string) :
  allDigits s = true -> allDigits (String.substring n m s) = true.
Proof.
  revert n m. induction s as [|c s IH]; intros n m H.
  - destruct n, m; reflexivity.
  - cbn [allDigits] in H. apply andb_true_iff in H as [Hc Hs].
    destruct n as [|n].
    + destruct m as [|m]; [reflexivity|].
      cbn [String.substring allDigits]. rewrite Hc. apply (IH 0 m Hs).
    + cbn [String.substring]. apply IH, Hs.
Qed.

Lemma append_String (c : ascii) (a b : string) :
  String c a +:+ b = String c (a +:+ b).
Proof. reflexivity. Qed.

Lemma allDigits_append (a b : string) :
  allDigits (a +:+ b) = allDigits a && allDigits b.
Proof.
  induction a as [|c a IH]; [reflexivity|].
  rewrite append_String. cbn [allDigits]. rewrite IH. apply andb_assoc.
Qed.

Lemma length_append (a b : string) :
  String.length (a +:+ b) = String.length a + String.length b.
Proof.
  induction a as [|c a IH]; [reflexivity|].
  rewrite append_String. cbn [String.length]. rewrite IH. reflexivity.
Qed.

Lemma substring_all (m : nat) (s : string) :
  String.length s <= m -> String.substring 0 m s = s.
Proof.
  revert m. induction s as [|c s IH]; intros m H.
  - destruct m; reflexivity.
  - destruct m as [|m]; cbn in H; [lia|].
    cbn [String.substring]. rewrite IH by lia. reflexivity.
Qed.

Lemma length_substring (n m : nat) (s : string) :
  n + m <= String.length s -> String.length (String.substring n m s) = m.
Proof.
  revert n m. induction s as [|c s IH]; intros n m H; cbn in H.
  - destruct n, m; cbn; lia.
  - destruct n as [|n].
    + destruct m as [|m]; [reflexivity|].
      cbn [String.substring String.length]. rewrite (IH 0 m) by lia. reflexivity.
    + cbn [String.substring]. apply IH. lia.
Qed.

Lemma allDigits_formatPhone (phone : string) :
  allDigits (formatPhone phone) = true.
Proof.
  unfold formatPhone.
  pose proof (allDigits_stripNonDigits phone) as H.
  destruct (_ && _).
  - apply allDigits_substring, H.
  - destruct (_ =? _)%nat; [|exact H].
    rewrite allDigits_append, H. reflexivity.
Qed.

(** A string of 10 or 11 digits is left as it is. *)
Lemma formatPhone_national (n : string) :
  allDigits n = true -> 10 <= String.length n <= 11 ->
  formatPhone n = n.
Proof.
  intros Hd Hl. unfold formatPhone. rewrite (stripNonDigits_id n Hd).
  replace (11 <? String.length n)%nat with false
    by (symmetry; apply Nat.ltb_ge; lia).
  rewrite andb_false_r.
  replace (String.length n =? 9)%nat with false
    by (symmetry; apply Nat.eqb_neq; lia).
  reflexivity.
Qed.

Lemma isValidBrazilianPhone_length (phone : string) :
  isValidBrazilianPhone phone = true ->
  10 <= String.length (formatPhone phone) <= 11.
Proof.
  unfold isValidBrazilianPhone. intros H.
  destruct (allDigits _ && (10 <=? _)%nat && (_ <=? 11)%nat) eqn:E;
    [|discriminate H].
  apply andb_true_iff in E as [E E3]. apply andb_true_iff in E as [_ E2].
  apply Nat.leb_le in E2, E3. lia.
Qed.

(** X19.  The formatted form of a phone that [isValidBrazilianPhone] accepts
    is a string of 10 or 11 digits, [formatPhone] leaves it as it is, and it
    is itself accepted. *)
Theorem valid_phone_normal_form (phone : string) :
  isValidBrazilianPhone phone = true ->
  allDigits (formatPhone phone) = true
  /\ (String.length (formatPhone phone) = 10
      \/ String.length (formatPhone phone) = 11)
  /\ formatPhone (formatPhone phone) = formatPhone phone
  /\ isValidBrazilianPhone (formatPhone phone) = true.
Proof.
  intros H.
  pose proof (allDigits_formatPhone phone) as Hd.
  pose proof (isValidBrazilianPhone_length phone H) as Hl.
  pose proof (formatPhone_national _ Hd Hl) as Hf.
  split; [exact Hd|]. split; [lia|]. split; [exact Hf|].
  unfold isValidBrazilianPhone in *. rewrite Hf. exact H.
Qed.

(** X20.  A national number of 10 or 11 digits written with the country code,
    in any punctuation, is formatted to the national number, which is what
    [formatPhone] answers for the national number itself; so both forms are
    accepted or both refused. *)
Theorem country_code_is_removed (phone n : string) :
  stripNonDigits phone = "55" +:+ n ->
  10 <= String.length n <= 11 ->
  formatPhone phone = n
  /\ formatPhone n = n
  /\ isValidBrazilianPhone phone = isValidBrazilianPhone n.
Proof.
  intros Hp Hl.
  assert (Hd : allDigits n = true).
  { pose proof (allDigits_stripNonDigits phone) as H. rewrite Hp in H.
    rewrite allDigits_append in H. apply andb_true_iff in H as [_ H]. exact H. }
  assert (H1 : formatPhone phone = n).
  { unfold formatPhone. rewrite Hp.
    change (String.prefix "55" ("55" +:+ n)) with (String.prefix "" n).
    replace (String.prefix "" n) with true by (destruct n; reflexivity).
    rewrite length_append.
    replace (11 <? String.length "55" + String.length n)%nat with true
      by (symmetry; apply Nat.ltb_lt; cbn; lia).
    cbn [andb].
    change (String.substring 2 ?m ("55" +:+ n)) with (String.substring 0 m n).
    apply substring_all. cbn. lia. }
  assert (H2 : formatPhone n = n) by (apply formatPhone_national; assumption).
  split; [exact H1|]. split; [exact H2|].
  unfold isValidBrazilianPhone. rewrite H1, H2. reflexivity.
Qed.

(** X21.  A mobile number of nine digits without area code gets two normal
    forms, and both are accepted: written alone it is put under area code
    11, written after the country code 55 it keeps the 55, which is then
    read as the area code. *)
Theorem local_mobile_has_two_forms (n : string) :
  allDigits n = true -> String.length n = 8 ->
  let mobile := "9" +:+ n in
  formatPhone mobile = "11" +:+ mobile
  /\ formatPhone ("+55" +:+ mobile) = "55" +:+ mobile
  /\ isValidBrazilianPhone mobile = true
  /\ isValidBrazilianPhone ("+55" +:+ mobile) = true.
Proof.
  intros Hd Hl mobile.
  assert (Hm : allDigits mobile = true) by exact Hd.
  assert (Hlm : String.length mobile = 9)
    by (unfold mobile; rewrite length_append, Hl; reflexivity).
  assert (H1 : formatPhone mobile = "11" +:+ mobile).
  { unfold formatPhone. rewrite (stripNonDigits_id _ Hm), Hlm. reflexivity. }
  assert (H2 : formatPhone ("+55" +:+ mobile) = "55" +:+ mobile).
  { unfold formatPhone.
    change (stripNonDigits ("+55" +:+ mobile))
      with ("55" +:+ stripNonDigits mobile).
    rewrite (stripNonDigits_id _ Hm), length_append, Hlm. reflexivity. }
  split; [exact H1|]. split; [exact H2|].
  assert (Hv : forall area : string,
             String.length area = 2 -> allDigits area = true ->
             area ∈ validAreaCodes ->
             formatPhone (area +:+ mobile) = area +:+ mobile /\
             isValidBrazilianPhone (area +:+ mobile) = true).
  { intros area Ha Hda Hin.
    assert (Hf : formatPhone (area +:+ mobile) = area +:+ mobile).
    { apply formatPhone_national.
      - rewrite allDigits_append, Hda, Hm. reflexivity.
      - rewrite length_append, Ha, Hlm. lia. }
    split; [exact Hf|].
    unfold isValidBrazilianPhone. rewrite Hf.
    rewrite allDigits_append, Hda, Hm, length_append, Ha, Hlm.
    destruct area as [|a [|b [|]]]; try discriminate Ha.
    cbn. apply bool_decide_eq_true. exact Hin. }
  split.
  - destruct (Hv "11") as [Hf Hok]; [reflexivity|reflexivity|set_solver|].
    unfold isValidBrazilianPhone in Hok |- *.
    rewrite H1. rewrite Hf in Hok. exact Hok.
  - destruct (Hv "55") as [Hf Hok]; [reflexivity|reflexivity|set_solver|].
    unfold isValidBrazilianPhone in Hok |- *.
    rewrite H2. rewrite Hf in Hok. exact Hok.
Qed.

End PhoneNumbers.

(* ===================================================================== *)
(** * Campaign intake: the recipients that [createCampaign] stores *)
(* ===================================================================== *)

Section CampaignIntakeFacts.
Import Store Runtime Helpers CampaignIntake.

Lemma validate_invalid (recipients : list Recipient) (r : Recipient) :
  r ∈ recipients ->
  isValidBrazilianPhone (formatPhone (rcp_phone r)) = false ->
  rcp_phone r ∈ snd (validate recipients).
Proof.
  induction recipients as [|r' rest IH]; intros Hin Hbad.
  - apply elem_of_nil in Hin as [].
  - cbn [validate]. destruct (validate rest) as [valid invalid] eqn:E.
    apply elem_of_cons in Hin as [<-|Hin].
    + rewrite Hbad. cbn. apply elem_of_cons. left. reflexivity.
    + specialize (IH Hin Hbad). cbn [snd] in IH.
      destruct (isValidBrazilianPhone (formatPhone (rcp_phone r')));
        cbn [snd]; [exact IH|].
      apply elem_of_cons. right. exact IH.
Qed.

Lemma validate_all_valid (recipients : list Recipient) :
  Forall (fun r => isValidBrazilianPhone (formatPhone (rcp_phone r)) = true)
         recipients ->
  validate recipients
  = (map (fun r => {| rcp_phone := formatPhone (rcp_phone r) |}) recipients,
     []).
Proof.
  induction 1 as [|r rest Hr _ IH]; [reflexivity|].
  cbn [validate]. rewrite IH, Hr. reflexivity.
Qed.

(** X22.  If the phone of one recipient is refused, [createCampaign] throws
    with a message that lists the refused phones as they were given, logs the
    error, and has made no store call: no campaign is created and none is
    started, whatever the other recipients are. *)
Theorem invalid_phone_refuses_the_campaign
    (startCampaign : nat -> M string) (companyId : nat) (content : string)
    (recipients : list Recipient) (scheduledAt : option string)
    (r : Recipient) (w : World) :
  r ∈ recipients ->
  isValidBrazilianPhone (formatPhone (rcp_phone r)) = false ->
  rcp_phone r ∈ snd (validate recipients)
  /\ createCampaign startCampaign companyId content recipients scheduledAt w
     = (Throw (Rejected ("Telefones inválidos encontrados: "
                         +:+ String.concat ", " (snd (validate recipients)))),
        set_logs (logs w ++ ["Error creating campaign:"]) w).
Proof.
  intros Hin Hbad.
  pose proof (validate_invalid recipients r Hin Hbad) as Hlisted.
  split; [exact Hlisted|].
  unfold createCampaign, tryCatch.
  destruct (validate recipients) as [valid invalid] eqn:E. cbn [snd] in *.
  destruct invalid as [|p invalid]; [apply elem_of_nil in Hlisted as []|].
  reflexivity.
Qed.

(** X23.  When every phone is accepted and the campaign is scheduled, on a
    store whose calls succeed [createCampaign] appends one SCHEDULED campaign
    with one recipient per recipient given, in the same order, each under the
    formatted phone, which is a string of digits that
    [isValidBrazilianPhone] accepts; nothing is started, sent or logged. *)
Theorem scheduled_campaign_stores_formatted_phones
    (startCampaign : nat -> M string) (companyId : nat) (content : string)
    (recipients : list Recipient) (scheduledAt : string) (w : World) :
  healthy w ->
  Presence.truthy scheduledAt = true ->
  Forall (fun r => isValidBrazilianPhone (formatPhone (rcp_phone r)) = true)
         recipients ->
  exists campaign,
    createCampaign startCampaign companyId content recipients
                   (Some scheduledAt) w
    = (Ok campaign,
       set_db (bump (with_campaigns (campaigns (db w) ++ [campaign]) (db w))) w)
    /\ camp_id campaign = nextId (db w)
    /\ camp_status campaign = SCHEDULED
    /\ map rcp_phone (camp_recipients campaign)
       = map (fun r => formatPhone (rcp_phone r)) recipients
    /\ Forall (fun r => allDigits (rcp_phone r) = true
                        /\ isValidBrazilianPhone (rcp_phone r) = true)
              (camp_recipients campaign).
Proof.
  intros Hw Hs Hall.
  eexists. split.
  - unfold createCampaign, tryCatch. rewrite Hs.
    rewrite (validate_all_valid recipients Hall). cbn [length Nat.ltb Nat.leb].
    unfold bind at 1. rewrite mutate_healthy by exact Hw.
    cbn [fst snd campaign_create]. unfold bind, ret. reflexivity.
  - cbn [camp_id camp_status camp_recipients].
    split; [reflexivity|]. split; [reflexivity|]. split.
    + rewrite map_map. reflexivity.
    + apply Forall_map. eapply Forall_impl; [exact Hall|].
      intros r Hr. cbn. split; [apply allDigits_formatPhone | exact Hr].
Qed.

End CampaignIntakeFacts.

(* ===================================================================== *)
(** * The channel of an outgoing unified message *)
(* ===================================================================== *)

Section PreferredChannel.
Import Store Channels.

(** X24.  The preferred channel is one of the channels of the conversation,
    provided none of them is the empty string; when the list of channels is
    empty the answer is WHATSAPP, whatever the channel of the conversation
    row is. *)
Theorem preferred_channel_is_listed (conversation : UnifiedConversation) :
  "" ∉ channelsOf conversation ->
  determinePreferredChannel conversation ∈ channelsOf conversation
  \/ (conv_channels conversation = Some []
      /\ determinePreferredChannel conversation = "WHATSAPP").
Proof.
  intros Hne. unfold determinePreferredChannel.
  set (channels := channelsOf conversation) in *.
  assert (Hprio :
    match List.find (fun channel => bool_decide (channel ∈ channels)) priority with
    | Some channel => channel
    | None => match channels with
              | first :: _ => if Presence.truthy first then first else "WHATSAPP"
              | [] => "WHATSAPP"
              end
    end ∈ channels
    \/ (conv_channels conversation = Some [] /\
        match List.find (fun channel => bool_decide (channel ∈ channels)) priority with
        | Some channel => channel
        | None => match channels with
                  | first :: _ => if Presence.truthy first then first else "WHATSAPP"
                  | [] => "WHATSAPP"
                  end
        end = "WHATSAPP")).
  { destruct (List.find _ priority) as [ch|] eqn:Hf.
    - left. apply find_some in Hf as [_ Hin].
      apply bool_decide_eq_true in Hin. exact Hin.
    - destruct channels as [|first rest] eqn:Hch.
      + right. split; [|reflexivity].
        unfold channels, channelsOf in Hch.
        destruct (conv_channels conversation) as [l|]; cbn in Hch;
          [subst l; reflexivity | discriminate].
      + left. destruct first as [|c first'].
        * exfalso. apply Hne. apply elem_of_cons. left. reflexivity.
        * cbn. apply elem_of_cons. left. reflexivity. }
  destruct (lastChannel conversation) as [last|]; [|exact Hprio].
  destruct (Presence.truthy last && bool_decide (last ∈ channels)) eqn:E;
    [|exact Hprio].
  left. apply andb_true_iff in E as [_ E]. apply bool_decide_eq_true in E. exact E.
Qed.

End PreferredChannel.

(* ===================================================================== *)
(** * The channels of a unified conversation *)
(* ===================================================================== *)

Section UnifiedChannels.
Import Store Runtime Omnichannel.

Lemma findFirst_after_channels (contactId companyId : nat)
    (chs : list string) (l : list Conversation) (c : Conversation) :
  find (fun r => bool_decide (conv_contactId r = contactId
                              ∧ conv_companyId r = companyId)
                 && active (conv_status r)) l = Some c ->
  find (fun r => bool_decide (conv_contactId r = contactId
                              ∧ conv_companyId r = companyId)
                 && active (conv_status r))
       (map (fun r => if bool_decide (conv_id r = conv_id c)
                      then set_channels chs r else r) l)
  = Some (set_channels chs c).
Proof.
  induction l as [|r l IH]; [discriminate|].
  cbn [find map]. intros H.
  destruct (bool_decide (conv_contactId r = contactId
                         ∧ conv_companyId r = companyId)
            && active (conv_status r)) eqn:E.
  - injection H as ->.
    rewrite (bool_decide_eq_true_2 (conv_id c = conv_id c)) by reflexivity.
    cbn [set_channels conv_contactId conv_companyId conv_status].
    rewrite E. reflexivity.
  - destruct (bool_decide (conv_id r = conv_id c));
      cbn [set_channels conv_contactId conv_companyId conv_status];
      rewrite E; apply IH, H.
Qed.

(** X25.  An inbound message on an active unified conversation adds its
    channel to the stored list of channels once: on a store that answers, a
    channel that is not listed is appended and the others are kept, a
    listed one changes nothing, and a second message on the same channel
    finds the same conversation and writes nothing. *)
Theorem unified_channels_accumulate (contactId companyId : nat)
    (channel : string) (c : Conversation) (w : World) :
  healthy w ->
  conversation_findFirst contactId companyId (db w) = Some c ->
  let w1 := snd (findOrCreateUnifiedConversation contactId channel companyId w) in
  exists stored,
    conversation_findFirst contactId companyId (db w1) = Some stored
    /\ conv_id stored = conv_id c
    /\ default [] (conv_channels stored)
       = (if bool_decide (channel ∈ default [] (conv_channels c))
          then default [] (conv_channels c)
          else default [] (conv_channels c) ++ [channel])
    /\ findOrCreateUnifiedConversation contactId channel companyId w1
       = (Ok stored, w1).
Proof.
  intros Hh Hc.
  assert (Hlisted : forall (s : Conversation) (v : World),
            healthy v ->
            conversation_findFirst contactId companyId (db v) = Some s ->
            channel ∈ default [] (conv_channels s) ->
            findOrCreateUnifiedConversation contactId channel companyId v
            = (Ok s, v)).
  { intros s v Hv Hs Hin. unfold findOrCreateUnifiedConversation, tryCatch.
    unfold bind at 1. rewrite (query_healthy _ v Hv), Hs.
    rewrite bool_decide_eq_true_2 by exact Hin. reflexivity. }
  destruct (decide (channel ∈ default [] (conv_channels c))) as [Hin|Hnin].
  - cbn zeta. rewrite (Hlisted c w Hh Hc Hin). cbn [snd].
    exists c. rewrite bool_decide_eq_true_2 by exact Hin.
    split; [exact Hc|]. split; [reflexivity|]. split; [reflexivity|].
    exact (Hlisted c w Hh Hc Hin).
  - assert (Hrow : c ∈ conversations (db w)).
    { apply list_elem_of_In. eapply find_some. exact Hc. }
    assert (Hrun : snd (findOrCreateUnifiedConversation contactId channel
                          companyId w)
                   = set_db (with_conversations
                               (map (fun r => if bool_decide (conv_id r = conv_id c)
                                              then set_channels
                                                     (default [] (conv_channels c)
                                                      ++ [channel]) r
                                              else r)
                                    (conversations (db w))) (db w)) w).
    { unfold findOrCreateUnifiedConversation, tryCatch.
      unfold bind at 1. rewrite (query_healthy _ w Hh), Hc.
      rewrite bool_decide_eq_false_2 by exact Hnin.
      unfold bind at 1. rewrite (update_healthy _ w Hh).
      unfold conversation_update. rewrite (hasConversation_elem c (db w) Hrow).
      cbn [fst snd]. unfold ret. reflexivity. }
    cbn zeta. rewrite Hrun.
    set (w1 := set_db _ w).
    assert (Hh1 : healthy w1) by exact Hh.
    assert (Hs : conversation_findFirst contactId companyId (db w1)
                 = Some (set_channels (default [] (conv_channels c) ++ [channel]) c)).
    { unfold w1. rewrite db_set_db. unfold conversation_findFirst.
      cbn [conversations with_conversations].
      apply findFirst_after_channels. exact Hc. }
    exists (set_channels (default [] (conv_channels c) ++ [channel]) c).
    rewrite bool_decide_eq_false_2 by exact Hnin.
    split; [exact Hs|]. split; [reflexivity|]. split; [reflexivity|].
    apply (Hlisted _ w1 Hh1 Hs). cbn. apply elem_of_app. right.
    apply list_elem_of_singleton. reflexivity.
Qed.

End UnifiedChannels.

(* ===================================================================== *)
(** * Writes that stop half way *)
(* ===================================================================== *)

Section PartialWrites.
Import Store Runtime MessageProcessor Routes.

#[local] Arguments activeAssignments : simpl never.

Lemma query_passes {A} (q : DB -> A) (rest : list bool) (w : World) :
  storeFaults w = false :: rest ->
  query q w = (Ok (q (db w)), set_storeFaults rest w).
Proof. intros H. unfold query. rewrite H. reflexivity. Qed.

Lemma mutate_passes {A} (q : DB -> A * DB) (rest : list bool) (w : World) :
  storeFaults w = false :: rest ->
  mutate q w
  = (Ok (fst (q (db w))), set_db (snd (q (db w))) (set_storeFaults rest w)).
Proof.
  intros H. unfold mutate. rewrite H. cbn [nextFault].
  destruct (q (db w)); reflexivity.
Qed.

Lemma mutate_rejects {A} (q : DB -> A * DB) (rest : list bool) (w : World) :
  storeFaults w = true :: rest ->
  mutate q w = (Throw StoreError, set_storeFaults rest w).
Proof. intros H. unfold mutate. rewrite H. reflexivity. Qed.

Lemma update_rejects (q : DB -> Res unit * DB) (rest : list bool) (w : World) :
  storeFaults w = true :: rest ->
  update q w = (Throw StoreError, set_storeFaults rest w).
Proof. intros H. unfold update. rewrite H. reflexivity. Qed.

(** X26.  The HTTP assignment is not atomic: when the store rejects the
    creation of the new assignment after the previous ones were
    deactivated, the answer is 500 and every assignment of the conversation
    that was active is now inactive, so the agent who held the conversation
    has lost it and nobody has got it; the other rows of the store are
    unchanged and nobody is notified. *)
Theorem failed_assign_leaves_no_assignee (reqUser agent : User)
    (agentId : option nat) (conversationId : nat) (c : Conversation)
    (rest : list bool) (w : World) :
  storeFaults w = false :: false :: false :: true :: rest ->
  conversation_findUnique conversationId (user_companyId reqUser) (db w)
    = Some c ->
  user_findUnique_active (default (user_id reqUser) agentId)
                         (user_companyId reqUser) (db w) = Some agent ->
  let w' := snd (assign reqUser agentId conversationId w) in
  fst (assign reqUser agentId conversationId w)
  = Ok {| res_status := 500; res_body := "Erro ao atribuir conversa" |}
  /\ db w' = conversationAgent_deactivate conversationId (db w)
  /\ (forall held, held ∈ activeAssignments conversationId (db w) ->
        {| ca_id := ca_id held; ca_userId := ca_userId held;
           ca_conversationId := conversationId; ca_isActive := false |}
        ∈ conversationAgents (db w'))
  /\ activeAssignments conversationId (db w') = []
  /\ conversations (db w') = conversations (db w)
  /\ emitted w' = emitted w.
Proof.
  intros Hf Hc Ha.
  remember (assign reqUser agentId conversationId w) as run eqn:Hrun.
  unfold assign, tryCatch in Hrun.
  unfold bind at 1 in Hrun. rewrite (query_passes _ _ w Hf), Hc in Hrun.
  set (w1 := set_storeFaults _ w) in Hrun.
  unfold bind at 1 in Hrun.
  rewrite (query_passes _ (false :: true :: rest) w1 eq_refl) in Hrun.
  change (db w1) with (db w) in Hrun. rewrite Ha in Hrun.
  set (w2 := set_storeFaults _ w1) in Hrun.
  unfold bind at 1 in Hrun.
  rewrite (mutate_passes _ (true :: rest) w2 eq_refl) in Hrun.
  cbn [fst snd] in Hrun.
  set (w3 := set_db _ _) in Hrun.
  unfold bind at 1 in Hrun.
  rewrite (mutate_rejects _ rest w3 eq_refl) in Hrun.
  unfold bind, logger, ret in Hrun. subst run. cbn [fst snd].
  split; [reflexivity|]. split; [reflexivity|].
  split; [|split; [|split; reflexivity]].
  - intros held Hheld.
    apply list_elem_of_filter in Hheld as [[Hid _] Hin].
    cbn [db set_logs set_storeFaults set_db w3].
    unfold conversationAgent_deactivate. cbn [conversationAgents
      with_conversationAgents].
    apply list_elem_of_fmap. exists held. split; [|exact Hin].
    rewrite bool_decide_eq_true_2 by exact Hid. rewrite Hid. reflexivity.
  - cbn [db set_logs set_storeFaults set_db w3].
    apply deactivate_leaves_none.
Qed.

(** X27.  Automatic assignment is not atomic either: when the store rejects
    the status update after the assignment was created, the new active
    assignment stays while the conversation keeps the status it had, nobody
    is notified, and the failure is only logged. *)
Theorem assignment_survives_a_failed_status_update
    (conversation : ConversationObj) (a : Agent) (rest : list bool)
    (w : World) :
  storeFaults w = false :: false :: true :: rest ->
  fst (findAvailableAgent (conv_companyId conversation) w) = Ok (Some a) ->
  let w' := snd (assignToAgent conversation w) in
  conversationAgents (db w')
  = conversationAgents (db w)
    ++ [{| ca_id := nextId (db w); ca_userId := user_id a;
           ca_conversationId := conv_id conversation; ca_isActive := true |}]
  /\ conversations (db w') = conversations (db w)
  /\ emitted w' = emitted w
  /\ logs w' = logs w ++ ["Error assigning to agent:"].
Proof.
  intros Hf Hfind.
  remember (assignToAgent conversation w) as run eqn:Hrun.
  unfold assignToAgent, tryCatch in Hrun.
  unfold bind at 1 in Hrun.
  assert (Hfa : findAvailableAgent (conv_companyId conversation) w
                = (Ok (Some a), set_storeFaults (false :: true :: rest) w)).
  { unfold findAvailableAgent, bind in Hfind |- *.
    rewrite (query_passes _ _ w Hf) in Hfind |- *.
    destruct (length _ =? 0)%nat; [discriminate Hfind|].
    destruct (JS.reduce _ _) as [b|]; [|discriminate Hfind].
    cbn in Hfind. injection Hfind as ->. reflexivity. }
  rewrite Hfa in Hrun.
  set (w1 := set_storeFaults _ w) in Hrun.
  unfold bind at 1 in Hrun.
  rewrite (mutate_passes _ (true :: rest) w1 eq_refl) in Hrun.
  cbn [fst snd] in Hrun.
  set (w2 := set_db _ _) in Hrun.
  unfold bind at 1 in Hrun.
  rewrite (update_rejects
             (conversation_update (conv_id conversation) (set_status OPEN))
             rest w2 eq_refl) in Hrun.
  unfold logger in Hrun. subst run. cbn [fst snd].
  repeat split; reflexivity.
Qed.

End PartialWrites.

(* ===================================================================== *)
(** * The statements above on concrete situations *)
(* ===================================================================== *)

Section MoreExamples.
Import Store Runtime MessageProcessor Routes Lifecycle Inbound.
Import CampaignService Accounting Helpers CampaignIntake Channels Connections.
Import Scenario Cases.

(** Witness of X3. *)
Lemma reply_with_keyword_is_discarded_witness :
  healthy escalating
  /\ exists w1,
       processChatbotResponse hello thread 9 escalating
       = assignToAgent thread w1
       /\ db w1 = db escalating /\ outbox w1 = outbox escalating
       /\ outbox (snd (processChatbotResponse hello thread 9 escalating))
          = outbox escalating
       /\ messages (db (snd (processChatbotResponse hello thread 9 escalating)))
          = messages (db escalating).
Proof.
  split; [reflexivity|].
  apply (reply_with_keyword_is_discarded hello thread 9
           "Vou transferir você para um atendente." "transferir" escalating).
  - reflexivity.
  - intros context. reflexivity.
  - apply elem_of_cons. left. reflexivity.
  - reflexivity.
Defined.

(** Witness of X4. *)
Lemma chatbot_needs_the_contact_witness :
  healthy (world deskWithBot)
  /\ processChatbotResponse hello threadWithoutContact 9 (world deskWithBot)
     = assignToAgent threadWithoutContact
         (set_logs (logs (world deskWithBot)
                    ++ ["Error processing chatbot response:"])
                   (world deskWithBot))
  /\ outbox (snd (processChatbotResponse hello threadWithoutContact 9
                                         (world deskWithBot)))
     = outbox (world deskWithBot)
  /\ messages (db (snd (processChatbotResponse hello threadWithoutContact 9
                                               (world deskWithBot))))
     = messages (db (world deskWithBot)).
Proof.
  split; [reflexivity|].
  apply (chatbot_needs_the_contact hello threadWithoutContact 9
           {| chatbot_id := 40; chatbot_companyId := 1;
              chatbot_isActive := true |} (world deskWithBot));
    reflexivity.
Defined.

(** Witness of X5. *)
Lemma bot_reply_is_persisted_and_sent_witness :
  healthy (world deskWithBot)
  /\ shouldTransferToAgent "Claro, posso ajudar." (msg_content hello) = false
  /\ let w' := snd (processChatbotResponse hello thread 9 (world deskWithBot)) in
     messages (db w')
     = messages (db (world deskWithBot))
       ++ [{| msg_id := nextId (db (world deskWithBot));
              msg_content := "Claro, posso ajudar.";
              msg_inbound := false;
              msg_conversationId := conv_id thread |}]
     /\ outbox w'
        = outbox (world deskWithBot)
          ++ [{| sent_account := 9;
                 sent_phone := contact_phone
                                 {| contact_id := 7;
                                    contact_phone := "5511999990007" |};
                 sent_content := "Claro, posso ajudar." |}]
     /\ emitted w'
        = emitted (world deskWithBot)
          ++ (if io (world deskWithBot)
              then [{| ev_to := Company (conv_companyId thread);
                       ev_name := "message:new";
                       ev_subject := conv_id thread; ev_agent := None |}]
              else [])
     /\ conversationAgents (db w') = conversationAgents (db (world deskWithBot))
     /\ conversations (db w') = conversations (db (world deskWithBot)).
Proof.
  split; [reflexivity|]. split; [reflexivity|].
  apply (bot_reply_is_persisted_and_sent hello thread 9
           {| chatbot_id := 40; chatbot_companyId := 1;
              chatbot_isActive := true |}
           {| contact_id := 7; contact_phone := "5511999990007" |}
           "Claro, posso ajudar." (world deskWithBot)).
  - reflexivity.
  - reflexivity.
  - reflexivity.
  - reflexivity.
  - intros context. reflexivity.
  - reflexivity.
Defined.

(** Witness of X6. *)
Lemma failed_send_is_swallowed_witness :
  healthy channelDown
  /\ channelFaults channelDown = [true]
  /\ let w' := snd (processChatbotResponse hello thread 9 channelDown) in
     fst (processChatbotResponse hello thread 9 channelDown) = Ok tt
     /\ messages (db w')
        = messages (db channelDown)
          ++ [{| msg_id := nextId (db channelDown);
                 msg_content := "Claro, posso ajudar.";
                 msg_inbound := false;
                 msg_conversationId := conv_id thread |}]
     /\ outbox w' = outbox channelDown
     /\ emitted w' = emitted channelDown
     /\ conversationAgents (db w') = conversationAgents (db channelDown)
     /\ conversations (db w') = conversations (db channelDown)
     /\ "Error sending bot message:" ∈ logs w'.
Proof.
  split; [reflexivity|]. split; [reflexivity|].
  apply (failed_send_is_swallowed hello thread 9
           {| chatbot_id := 40; chatbot_companyId := 1;
              chatbot_isActive := true |}
           {| contact_id := 7; contact_phone := "5511999990007" |}
           "Claro, posso ajudar." [] channelDown).
  - reflexivity.
  - reflexivity.
  - reflexivity.
  - reflexivity.
  - intros context. reflexivity.
  - reflexivity.
Defined.

(** Witness of X7. *)
Lemma routes_keep_to_the_company_witness :
  healthy (world desk)
  /\ close outsider 20 (world desk)
     = (Ok {| res_status := 404; res_body := "Conversa não encontrada" |},
        world desk)
  /\ reopen outsider 20 (world desk)
     = (Ok {| res_status := 404; res_body := "Conversa não encontrada" |},
        world desk)
  /\ assign outsider (Some 1) 20 (world desk)
     = (Ok {| res_status := 404; res_body := "Conversa não encontrada" |},
        world desk).
Proof.
  split; [reflexivity|].
  apply (routes_keep_to_the_company outsider (Some 1) 20 (world desk)).
  - reflexivity.
  - intros c Hc _. apply list_elem_of_singleton in Hc. subst c. discriminate.
Defined.

(** Witness of X8. *)
Lemma close_deactivates_all_witness :
  healthy (world desk)
  /\ let w' := snd (close (user 1 AGENT) 20 (world desk)) in
     fst (close (user 1 AGENT) 20 (world desk))
     = Ok {| res_status := 200; res_body := "Conversa fechada com sucesso" |}
     /\ activeAssignments 20 (db w') = []
     /\ (forall r, r ∈ conversations (db w') -> conv_id r = 20 ->
                   conv_status r = CLOSED)
     /\ (forall other, other <> 20 ->
                       activeAssignments other (db w')
                       = activeAssignments other (db (world desk))).
Proof.
  split; [reflexivity|].
  apply (close_deactivates_all (user 1 AGENT) 20 (conversation 20 OPEN)
           (world desk)); reflexivity.
Defined.

(** Witness of X9. *)
Lemma closed_conversation_gets_a_successor_witness :
  healthy (world desk)
  /\ activeFor (db (world desk)) 7 1 = [conversation 20 OPEN]
  /\ exists c2 w2,
       findOrCreate ViaWhatsApp 7 1
         (snd (close (user 1 AGENT) (conv_id (conversation 20 OPEN))
                     (world desk)))
       = (Ok c2, w2)
       /\ conv_id c2 <> conv_id (conversation 20 OPEN)
       /\ conv_status c2 = OPEN
       /\ activeFor (db w2) 7 1 = [c2].
Proof.
  split; [reflexivity|]. split; [reflexivity|].
  apply (closed_conversation_gets_a_successor (user 1 AGENT) ViaWhatsApp 7 1
           (conversation 20 OPEN) (world desk)).
  - reflexivity.
  - reflexivity.
  - reflexivity.
  - intros r Hr. apply list_elem_of_singleton in Hr. subst r. cbn. lia.
Defined.

(** Witness of X10. *)
Lemma reopen_makes_a_second_active_witness :
  healthy (world returning)
  /\ let w' := snd (reopen (user 1 AGENT) (conv_id (conversation 19 CLOSED))
                           (world returning)) in
     set_status PENDING (conversation 19 CLOSED) ∈ activeFor (db w') 7 1
     /\ conversation 20 OPEN ∈ activeFor (db w') 7 1
     /\ ~ singleActive (db w') 7 1.
Proof.
  split; [reflexivity|].
  apply (reopen_makes_a_second_active (user 1 AGENT) 7 1
           (conversation 19 CLOSED) (conversation 20 OPEN) (world returning)).
  - reflexivity.
  - apply list_elem_of_singleton. reflexivity.
  - apply elem_of_cons. left. reflexivity.
  - reflexivity.
  - reflexivity.
  - discriminate.
  - reflexivity.
Defined.

(** Witness of X11. *)
Lemma assign_replaces_the_assignee_witness :
  healthy (world desk)
  /\ let w' := snd (assign (user 1 AGENT) (Some 1) 20 (world desk)) in
     fst (assign (user 1 AGENT) (Some 1) 20 (world desk))
     = Ok {| res_status := 200; res_body := "Conversa atribuída com sucesso" |}
     /\ activeAssignments 20 (db w')
        = [{| ca_id := nextId (db (world desk));
              ca_userId := user_id (user 1 AGENT);
              ca_conversationId := 20; ca_isActive := true |}]
     /\ (forall r, r ∈ conversations (db w') -> conv_id r = 20 ->
                   conv_status r = OPEN)
     /\ (forall other, other <> 20 ->
                       activeAssignments other (db w')
                       = activeAssignments other (db (world desk))).
Proof.
  split; [reflexivity|].
  apply (assign_replaces_the_assignee (user 1 AGENT) (user 1 AGENT) (Some 1) 20
           (conversation 20 OPEN) (world desk)); reflexivity.
Defined.

(** Witness of X12. *)
Lemma take_assigns_or_refuses_witness :
  healthy (world desk)
  /\ let w' := snd (Socket.conversationTake (user 1 AGENT) 20 (world desk)) in
     match activeAssignments 20 (db (world desk)) with
     | [] =>
         activeAssignments 20 (db w')
         = [{| ca_id := nextId (db (world desk));
               ca_userId := user_id (user 1 AGENT);
               ca_conversationId := 20; ca_isActive := true |}]
         /\ (forall r, r ∈ conversations (db w') -> conv_id r = 20 ->
                       conv_status r = OPEN)
         /\ emitted w'
            = emitted (world desk)
              ++ [{| ev_to := Company (user_companyId (user 1 AGENT));
                     ev_name := "conversation:assigned";
                     ev_subject := 20;
                     ev_agent := Some (user_id (user 1 AGENT)) |};
                  {| ev_to := Caller; ev_name := "conversation:taken";
                     ev_subject := 20; ev_agent := None |}]
     | _ :: _ =>
         db w' = db (world desk)
         /\ emitted w'
            = emitted (world desk)
              ++ [{| ev_to := Caller; ev_name := "error";
                     ev_subject := 20; ev_agent := None |}]
     end.
Proof.
  split; [reflexivity|].
  apply (take_assigns_or_refuses (user 1 AGENT) 20 (conversation 20 OPEN)
           (world desk)); reflexivity.
Defined.

(** Witness of X13. *)
Lemma socket_close_keeps_to_the_company_witness :
  healthy (world desk)
  /\ let w' := snd (conversationClose outsider 20 (world desk)) in
     match conversation_findUnique 20 (user_companyId outsider)
                                   (db (world desk)) with
     | Some _ =>
         activeAssignments 20 (db w') = []
         /\ (forall r, r ∈ conversations (db w') ->
                       conv_id r = 20 ->
                       conv_companyId r = user_companyId outsider ->
                       conv_status r = CLOSED)
     | None =>
         db w' = db (world desk)
         /\ emitted w'
            = emitted (world desk)
              ++ [{| ev_to := Caller; ev_name := "error";
                     ev_subject := 20; ev_agent := None |}]
     end.
Proof.
  split; [reflexivity|].
  apply (socket_close_keeps_to_the_company outsider 20 (world desk)).
  reflexivity.
Defined.

(** Witness of X15. *)
Lemma campaign_accounts_for_every_recipient_witness :
  healthy (world broadcast)
  /\ let w' := snd (processCampaign quiet campaign 9 (world broadcast)) in
     exists stored,
       campaign_findUnique (camp_id campaign) (db w') = Some stored
       /\ camp_status stored = SENT
       /\ res_sent (camp_results stored) + res_failed (camp_results stored)
          = res_sent (camp_results campaign)
            + res_failed (camp_results campaign)
            + length (camp_recipients campaign)
       /\ length (outbox w') + res_sent (camp_results campaign)
          = length (outbox (world broadcast)) + res_sent (camp_results stored)
       /\ runningCampaigns w' !! camp_id campaign = None.
Proof.
  split; [reflexivity|].
  apply (campaign_accounts_for_every_recipient campaign 9 (world broadcast)).
  - reflexivity.
  - exists campaign. reflexivity.
Defined.

(** Witness of X16. *)
Lemma cancel_only_while_sending_witness :
  healthy (world broadcast)
  /\ match campaign_findUnique 60 (db (world broadcast)) with
     | None =>
         cancelCampaign 60 (world broadcast)
         = (Throw (Rejected "Campanha não encontrada"),
            set_logs (logs (world broadcast) ++ ["Error cancelling campaign:"])
                     (world broadcast))
     | Some c =>
         if bool_decide (camp_status c = SENDING)
         then fst (cancelCampaign 60 (world broadcast))
              = Ok "Campanha cancelada com sucesso"
              /\ runningCampaigns (snd (cancelCampaign 60 (world broadcast)))
                 !! 60 = None
              /\ option_map camp_status
                   (campaign_findUnique 60
                      (db (snd (cancelCampaign 60 (world broadcast)))))
                 = Some CANCELLED
         else cancelCampaign 60 (world broadcast)
              = (Throw (Rejected "Apenas campanhas em envio podem ser canceladas"),
                 set_logs (logs (world broadcast)
                           ++ ["Error cancelling campaign:"])
                          (world broadcast))
     end.
Proof.
  split; [reflexivity|].
  apply (cancel_only_while_sending 60 (world broadcast)). reflexivity.
Defined.

(** Witness of X17. *)
Lemma online_iff_a_socket_is_registered_witness :
  reachable (Presence.addUser "agentA" "conn1" Presence.empty)
  /\ (Presence.isUserOnline "agentA"
        (Presence.addUser "agentA" "conn1" Presence.empty) = true
      <-> exists s, Presence.socketUsers
                      (Presence.addUser "agentA" "conn1" Presence.empty) !! s
                    = Some "agentA")
  /\ (Presence.isUserOnline "agentA"
        (Presence.addUser "agentA" "conn1" Presence.empty) = true
      <-> "agentA" ∈ Presence.getOnlineUsers
                       (Presence.addUser "agentA" "conn1" Presence.empty)).
Proof.
  assert (H : reachable (Presence.addUser "agentA" "conn1" Presence.empty)).
  { apply reach_connect; [apply reach_empty | reflexivity | reflexivity]. }
  split; [exact H|].
  apply (online_iff_a_socket_is_registered
           (Presence.addUser "agentA" "conn1" Presence.empty) "agentA").
  exact H.
Defined.

(** Witness of X18. *)
Lemma connect_then_disconnect_restores_witness :
  reachable Presence.empty
  /\ Presence.removeUser "conn1" (Presence.addUser "agentA" "conn1" Presence.empty)
     = (Some "agentA", Presence.empty).
Proof.
  split; [apply reach_empty|].
  apply (connect_then_disconnect_restores Presence.empty "agentA" "conn1").
  - apply reach_empty.
  - reflexivity.
  - reflexivity.
Defined.

(** Witness of X19. *)
Lemma valid_phone_normal_form_witness :
  isValidBrazilianPhone "+55 (11) 91234-5678" = true
  /\ allDigits (formatPhone "+55 (11) 91234-5678") = true
  /\ (String.length (formatPhone "+55 (11) 91234-5678") = 10
      \/ String.length (formatPhone "+55 (11) 91234-5678") = 11)
  /\ formatPhone (formatPhone "+55 (11) 91234-5678")
     = formatPhone "+55 (11) 91234-5678"
  /\ isValidBrazilianPhone (formatPhone "+55 (11) 91234-5678") = true.
Proof.
  split; [reflexivity|].
  apply (valid_phone_normal_form "+55 (11) 91234-5678"). reflexivity.
Defined.

(** Witness of X20. *)
Lemma country_code_is_removed_witness :
  stripNonDigits "+55 (11) 91234-5678" = "55" +:+ "11912345678"
  /\ formatPhone "+55 (11) 91234-5678" = "11912345678"
  /\ formatPhone "11912345678" = "11912345678"
  /\ isValidBrazilianPhone "+55 (11) 91234-5678"
     = isValidBrazilianPhone "11912345678".
Proof.
  split; [reflexivity|].
  apply (country_code_is_removed "+55 (11) 91234-5678" "11912345678").
  - reflexivity.
  - cbn. lia.
Defined.

(** Witness of X21. *)
Lemma local_mobile_has_two_forms_witness :
  allDigits "12345678" = true
  /\ let mobile := "9" +:+ "12345678" in
     formatPhone mobile = "11" +:+ mobile
     /\ formatPhone ("+55" +:+ mobile) = "55" +:+ mobile
     /\ isValidBrazilianPhone mobile = true
     /\ isValidBrazilianPhone ("+55" +:+ mobile) = true.
Proof.
  split; [reflexivity|].
  apply (local_mobile_has_two_forms "12345678"); reflexivity.
Defined.

(** Witness of X22. *)
Lemma invalid_phone_refuses_the_campaign_witness :
  isValidBrazilianPhone (formatPhone "1234-567") = false
  /\ "1234-567" ∈ snd (validate mailingWithTypo)
  /\ createCampaign neverStarts 1 "Promoção" mailingWithTypo None (world fresh)
     = (Throw (Rejected ("Telefones inválidos encontrados: "
                         +:+ String.concat ", " (snd (validate mailingWithTypo)))),
        set_logs (logs (world fresh) ++ ["Error creating campaign:"])
                 (world fresh)).
Proof.
  split; [reflexivity|].
  apply (invalid_phone_refuses_the_campaign neverStarts 1 "Promoção"
           mailingWithTypo None {| rcp_phone := "1234-567" |} (world fresh)).
  - apply elem_of_cons. right. apply elem_of_cons. left. reflexivity.
  - reflexivity.
Defined.

(** Witness of X23. *)
Lemma scheduled_campaign_stores_formatted_phones_witness :
  healthy (world fresh)
  /\ exists campaign,
       createCampaign neverStarts 1 "Promoção" mailing
                      (Some "2025-01-01T10:00:00Z") (world fresh)
       = (Ok campaign,
          set_db (bump (with_campaigns
                          (campaigns (db (world fresh)) ++ [campaign])
                          (db (world fresh))))
                 (world fresh))
       /\ camp_id campaign = nextId (db (world fresh))
       /\ camp_status campaign = SCHEDULED
       /\ map rcp_phone (camp_recipients campaign)
          = map (fun r => formatPhone (rcp_phone r)) mailing
       /\ Forall (fun r => allDigits (rcp_phone r) = true
                           /\ isValidBrazilianPhone (rcp_phone r) = true)
                 (camp_recipients campaign).
Proof.
  split; [reflexivity|].
  apply (scheduled_campaign_stores_formatted_phones neverStarts 1 "Promoção"
           mailing "2025-01-01T10:00:00Z" (world fresh)).
  - reflexivity.
  - reflexivity.
  - apply Forall_cons. split; [reflexivity|].
    apply Forall_cons. split; [reflexivity|]. apply Forall_nil. exact I.
Defined.

(** Witness of X24. *)
Lemma preferred_channel_is_listed_witness :
  "" ∉ channelsOf unifiedThread
  /\ (determinePreferredChannel unifiedThread ∈ channelsOf unifiedThread
      \/ (conv_channels unifiedThread = Some []
          /\ determinePreferredChannel unifiedThread = "WHATSAPP")).
Proof.
  assert (H : "" ∉ channelsOf unifiedThread).
  { intros Hin. apply list_elem_of_singleton in Hin. discriminate Hin. }
  split; [exact H|].
  apply (preferred_channel_is_listed unifiedThread). exact H.
Defined.

(** Witness of X25. *)
Lemma unified_channels_accumulate_witness :
  healthy (world desk)
  /\ let w1 := snd (Omnichannel.findOrCreateUnifiedConversation
                      7 "TELEGRAM" 1 (world desk)) in
     exists stored,
       conversation_findFirst 7 1 (db w1) = Some stored
       /\ conv_id stored = conv_id (conversation 20 OPEN)
       /\ default [] (conv_channels stored)
          = (if bool_decide ("TELEGRAM"
                             ∈ default [] (conv_channels (conversation 20 OPEN)))
             then default [] (conv_channels (conversation 20 OPEN))
             else default [] (conv_channels (conversation 20 OPEN))
                  ++ ["TELEGRAM"])
       /\ Omnichannel.findOrCreateUnifiedConversation 7 "TELEGRAM" 1 w1
          = (Ok stored, w1).
Proof.
  split; [reflexivity|].
  apply (unified_channels_accumulate 7 1 "TELEGRAM" (conversation 20 OPEN)
           (world desk)); reflexivity.
Defined.

(** Witness of X26: agent 1 holds conversation 20; handing it to agent 2
    fails at the creation of the new assignment. *)
Lemma failed_assign_leaves_no_assignee_witness :
  storeFaults fourthCallFails = [false; false; false; true]
  /\ activeAssignments 20 (db fourthCallFails) = [assignment 50 1 20]
  /\ let w' := snd (assign (user 1 AGENT) (Some 2) 20 fourthCallFails) in
     fst (assign (user 1 AGENT) (Some 2) 20 fourthCallFails)
     = Ok {| res_status := 500; res_body := "Erro ao atribuir conversa" |}
     /\ db w' = conversationAgent_deactivate 20 (db fourthCallFails)
     /\ (forall held, held ∈ activeAssignments 20 (db fourthCallFails) ->
           {| ca_id := ca_id held; ca_userId := ca_userId held;
              ca_conversationId := 20; ca_isActive := false |}
           ∈ conversationAgents (db w'))
     /\ activeAssignments 20 (db w') = []
     /\ conversations (db w') = conversations (db fourthCallFails)
     /\ emitted w' = emitted fourthCallFails.
Proof.
  split; [reflexivity|]. split; [reflexivity|].
  apply (failed_assign_leaves_no_assignee (user 1 AGENT) (user 2 AGENT)
           (Some 2) 20 (conversation 20 OPEN) [] fourthCallFails);
    reflexivity.
Defined.

(** Witness of X27. *)
Lemma assignment_survives_a_failed_status_update_witness :
  storeFaults thirdCallFails = [false; false; true]
  /\ let w' := snd (assignToAgent thread thirdCallFails) in
     conversationAgents (db w')
     = conversationAgents (db thirdCallFails)
       ++ [{| ca_id := nextId (db thirdCallFails);
              ca_userId := user_id (loadAgent (db thirdCallFails) (user 1 AGENT));
              ca_conversationId := conv_id thread; ca_isActive := true |}]
     /\ conversations (db w') = conversations (db thirdCallFails)
     /\ emitted w' = emitted thirdCallFails
     /\ logs w' = logs thirdCallFails ++ ["Error assigning to agent:"].
Proof.
  split; [reflexivity|].
  apply (assignment_survives_a_failed_status_update thread
           (loadAgent (db thirdCallFails) (user 1 AGENT)) [] thirdCallFails);
    reflexivity.
Defined.

End MoreExamples.
